(** * Hydra kernel: delegated execution engines

    A shallow embedding of [hydra_kernel/kernel.py] (the dispatcher, the
    message proxy, the comm of the front end and the kernel managers) and of
    [ansible/files/hydra_agent.py] (the bootstrap agent), with the
    properties of the specification stated and proved over it.

    Python objects that are mutated in place and shared (the proxy that the
    channel handlers and the dispatcher both hold, the channels of a cached
    client, the class-level [_kernels] dict) live in an explicit store;
    calls that leave the repository (the kernel managers of
    [jupyter_client], the binding's remote execution, the operating system)
    are answered by an environment and recorded in a trace of events. *)

From Stdlib Require Import ZArith QArith Lia Lqa Bool Ascii String List.
From Stdlib Require Import DecimalString.
From Stdlib Require Import Floats.PrimFloat Floats.SpecFloat Floats.FloatOps.
From stdpp Require Import base option list strings gmap.

Set Warnings "-register-all".

Open Scope string_scope.
Open Scope list_scope.

(** ** Python values and exceptions *)

Module Py.

(** The values that travel in messages and JSON documents.  A [dict] is
    kept as the list of its items in insertion order; floats are IEEE
    binary64, as in CPython. *)
Inductive pyval : Type :=
| PyNone
| PyBool (b : bool)
| PyInt (n : Z)
| PyFloat (f : float)
| PyStr (s : string)
| PyList (l : list pyval)
| PyDict (d : list (string * pyval)).

Definition dict : Type := list (string * pyval).

(** [bool(v)]: the truth value that [if], [not], [and] and [while] test. *)
Definition truthy (v : pyval) : bool :=
  match v with
  | PyNone => false
  | PyBool b => b
  | PyInt n => negb (n =? 0)%Z
  | PyFloat f => negb (PrimFloat.eqb f PrimFloat.zero)
  | PyStr s => negb (String.eqb s "")
  | PyList l => match l with [] => false | _ :: _ => true end
  | PyDict d => match d with [] => false | _ :: _ => true end
  end.

(** [v is not None] *)
Definition is_not_None (v : pyval) : bool :=
  match v with PyNone => false | _ => true end.

(** [v == s] for a str literal [s]: only an equal str compares equal. *)
Definition eq_str (v : pyval) (s : string) : bool :=
  match v with PyStr s' => String.eqb s' s | _ => false end.

(** The exception classes that occur, with their base classes. *)
Inductive exc_class : Type :=
| Exception
| RuntimeError | NotImplementedError | RecursionError
| OSError | TimeoutError | FileNotFoundError
| TypeError | AttributeError
| LookupError | KeyError | NoSuchKernel
| ValueError | JSONDecodeError
| StopIteration
| ZMQError.

Definition base (c : exc_class) : option exc_class :=
  match c with
  | Exception => None
  | NotImplementedError | RecursionError => Some RuntimeError
  | TimeoutError | FileNotFoundError => Some OSError
  | KeyError => Some LookupError
  | NoSuchKernel => Some KeyError
  | JSONDecodeError => Some ValueError
  | _ => Some Exception
  end.

Definition exc_class_eqb (c1 c2 : exc_class) : bool :=
  match c1, c2 with
  | Exception, Exception | RuntimeError, RuntimeError
  | NotImplementedError, NotImplementedError | RecursionError, RecursionError
  | OSError, OSError
  | TimeoutError, TimeoutError | FileNotFoundError, FileNotFoundError
  | TypeError, TypeError | AttributeError, AttributeError
  | LookupError, LookupError | KeyError, KeyError
  | NoSuchKernel, NoSuchKernel | ValueError, ValueError
  | JSONDecodeError, JSONDecodeError | StopIteration, StopIteration
  | ZMQError, ZMQError => true
  | _, _ => false
  end.

(** [issubclass(c, target)], climbing the (at most four) base classes. *)
Fixpoint issubclass_upto (depth : nat) (c target : exc_class) : bool :=
  exc_class_eqb c target ||
  match depth with
  | O => false
  | S depth' =>
      match base c with
      | Some b => issubclass_upto depth' b target
      | None => false
      end
  end.

Definition issubclass : exc_class -> exc_class -> bool := issubclass_upto 4.

Record exn : Type := Exn { exc : exc_class; exc_msg : string }.

(** [isinstance(e, c)], what an [except c:] clause tests. *)
Definition isinstance (e : exn) (c : exc_class) : bool := issubclass (exc e) c.

(** The result of an expression that may raise. *)
Definition Exc (A : Type) : Type := exn + A.

Fixpoint dict_lookup (d : dict) (k : string) : option pyval :=
  match d with
  | [] => None
  | (k', v) :: d' => if String.eqb k' k then Some v else dict_lookup d' k
  end.

(** [d.get(k, default)] *)
Definition dict_get (d : dict) (k : string) (default : pyval) : pyval :=
  match dict_lookup d k with Some v => v | None => default end.

(** [d[k]] on a dict *)
Definition dict_getitem (d : dict) (k : string) : Exc pyval :=
  match dict_lookup d k with
  | Some v => inr v
  | None => inl (Exn KeyError k)
  end.

(** [v[k]] for a str key [k] on an arbitrary value: only a dict can be
    subscripted by a str. *)
Definition getitem (v : pyval) (k : string) : Exc pyval :=
  match v with
  | PyDict d => dict_getitem d k
  | PyList _ => inl (Exn TypeError "list indices must be integers or slices, not str")
  | PyStr _ => inl (Exn TypeError "string indices must be integers")
  | PyNone => inl (Exn TypeError "'NoneType' object is not subscriptable")
  | PyBool _ => inl (Exn TypeError "'bool' object is not subscriptable")
  | PyInt _ => inl (Exn TypeError "'int' object is not subscriptable")
  | PyFloat _ => inl (Exn TypeError "'float' object is not subscriptable")
  end.

(** The double quote character. *)
Definition dquote : ascii := Ascii false true false false false true false false.

(** [str(n)] for an int. *)
Definition str_of_Z (n : Z) : string :=
  NilZero.string_of_int (Z.to_int n).

Definition str_of_N (n : N) : string :=
  NilZero.string_of_uint (N.to_uint n).

End Py.

Import Py.

(** ** The bootstrap agent ([ansible/files/hydra_agent.py]) *)

Module Agent.

(** What [argparse] stores for [--timeout]: the option is declared with
    [default=10] and no [type=], so the default is the int [10] and a value
    given on the command line stays the str it was typed as. *)
Inductive timeout_value : Type :=
| TimeoutInt (n : Z)
| TimeoutStr (s : string).

(** The options as given on the command line. *)
Record CommandLine : Type := {
  opt_id : string;                 (* --id, required *)
  opt_kernel : string;             (* --kernel, required *)
  opt_timeout : option string;     (* --timeout *)
  opt_launcher : option string;    (* --launcher *)
  opt_log_file : option bool       (* the last of --log-file / --no-log-file *)
}.

(** The namespace [args] that [parser.parse_args] returns. *)
Record Args : Type := {
  id : string;
  kernel : string;
  timeout : timeout_value;
  launcher : string;
  log_to_file : bool
}.

Definition parse_args (argv : CommandLine) : Args :=
  {| id := opt_id argv;
     kernel := opt_kernel argv;
     timeout := match opt_timeout argv with
                | None => TimeoutInt 10
                | Some s => TimeoutStr s
                end;
     launcher := default "hydra-subkernel" (opt_launcher argv);
     log_to_file := default true (opt_log_file argv) |}.

(** What the agent observes of the host it runs on.  The [k]-th pass of the
    polling loop sees [path_exists k]; when the file is absent it reads the
    clock, [perf_counter k], and, once the timeout has elapsed, the state of
    the launched process, [poll k] ([None] while it runs, its exit status
    afterwards).  Clock readings are exact seconds. *)
Record Host : Type := {
  jupyter_runtime_dir : string;
  popen : string -> Exc N;          (* subprocess.Popen(shlex.split(cmd)): the pid *)
  start : Q;                        (* the reading taken before the loop *)
  path_exists : nat -> bool;
  perf_counter : nat -> Q;
  poll : nat -> option Z;
  read_file : string -> Exc string  (* open(path, "r").read(): the str read in text mode *)
}.

(** [os.path.join(a, b)] on a POSIX host. *)
Definition path_join (a b : string) : string :=
  match b with
  | String "/" _ => b
  | _ =>
      if String.eqb a "" then b
      else if String.eqb (substring (String.length a - 1) 1 a) "/" then a +:+ b
      else a +:+ "/" +:+ b
  end.

Definition connection_file (h : Host) (args : Args) : string :=
  path_join (jupyter_runtime_dir h) ("kernel-" +:+ id args +:+ ".json").

Definition log_file (h : Host) (args : Args) : string :=
  path_join (jupyter_runtime_dir h) ("kernel-" +:+ id args +:+ ".log").

Definition cmd_str (h : Host) (args : Args) : string :=
  let cmd := launcher args +:+ " --kernel " +:+ kernel args
             +:+ " --KernelManager.connection_file " +:+ connection_file h args in
  if log_to_file args then cmd +:+ " --log-file " +:+ log_file h args else cmd.

(** [elapsed > args.timeout] for a float [elapsed]: ordering a float against
    a str raises [TypeError]. *)
Definition elapsed_gt (elapsed : Q) (t : timeout_value) : Exc bool :=
  match t with
  | TimeoutInt n => inr (negb (Qle_bool elapsed (inject_Z n)))
  | TimeoutStr _ =>
      inl (Exn TypeError "'>' not supported between instances of 'float' and 'str'")
  end.

(** The message of the [TimeoutError] raised in pass [k].  The first
    assignment, made when the process has exited, is overwritten by the
    second one before anything reads it. *)
Definition timeout_msg (h : Host) (args : Args) (k : nat) : string :=
  let ret := poll h k in
  let msg := match ret with
             | Some status => "Kernel failed with status " +:+ str_of_Z status +:+ "."
             | None => ""   (* not yet bound *)
             end in
  let msg := "Failed to find connection file, did the kernel fail to start?" in
  let msg := if log_to_file args
             then msg +:+ " See " +:+ log_file h args +:+ " for details."
             else msg in
  msg.

(** The polling loop, from its [k]-th pass on: [Some (inr tt)] when the
    connection file is there, [Some (inl e)] when the pass raises, [None]
    when [fuel] passes did not settle it (the loop is still polling). *)
Fixpoint poll_loop (h : Host) (args : Args) (fuel k : nat) : option (Exc unit) :=
  match fuel with
  | O => None
  | S fuel' =>
      if path_exists h k then Some (inr tt)
      else
        match elapsed_gt (perf_counter h k - start h) (timeout args) with
        | inl e => Some (inl e)
        | inr true => Some (inl (Exn TimeoutError (timeout_msg h args k)))
        | inr false => poll_loop h args fuel' (S k)   (* time.sleep(0.1) *)
        end
  end.

(** How a run of the script ends, with what its own [print] calls have
    written.  The launched process inherits the standard output of the
    script and has its standard error on it too; what it writes there is
    not in [stdout]. *)
Inductive Outcome : Type :=
| Completed (stdout : string)
| Failed (stdout : string) (e : exn)
| StillPolling.

Definition newline : string := String (ascii_of_nat 10) "".

(** [print(x)] writes [str(x)] and a newline after what the script has
    written, [stdout]. *)
Definition print (stdout x : string) : string := stdout +:+ x +:+ newline.

(** The script body, polling at most [fuel] times. *)
Definition main (h : Host) (argv : CommandLine) (fuel : nat) : Outcome :=
  let args := parse_args argv in
  match popen h (cmd_str h args) with
  | inl e => Failed "" e
  | inr pid =>
      match poll_loop h args fuel 0 with
      | None => StillPolling
      | Some (inl e) => Failed "" e
      | Some (inr _) =>
          let out := print "" (str_of_N pid) in
          match read_file h (connection_file h args) with
          | inl e => Failed out e
          | inr text => Completed (print out text)
          end
      end
  end.

(** What a successful run prints. *)
Definition spawn_output (pid : N) (descriptor : string) : string :=
  print (print "" (str_of_N pid)) descriptor.

End Agent.

(** ** [json.load], as far as the kernel manager relies on it

    The decoder of the Python standard library ([json/decoder.py],
    [json/scanner.py]).  The scanner hands strings, objects and arrays to
    the decoder's [parse_string], [parse_object] and [parse_array] and
    floats to [parse_float]; these stay the parameters they are in the
    library, and [default_decoder] is what they are when [json.load] is
    given no decoder, as the accelerator [_json] of CPython implements
    them.  Messages are without the position. *)

Module Json.

Definition is_digit (c : ascii) : bool :=
  (48 <=? nat_of_ascii c)%nat && (nat_of_ascii c <=? 57)%nat.

Definition is_whitespace (c : ascii) : bool :=
  let n := nat_of_ascii c in
  (n =? 32)%nat || (n =? 9)%nat || (n =? 10)%nat || (n =? 13)%nat.

(** [WHITESPACE.match(s, idx).end()]: skip blanks, tabs and line ends. *)
Fixpoint skip_whitespace (s : string) : string :=
  match s with
  | String c s' => if is_whitespace c then skip_whitespace s' else s
  | EmptyString => s
  end.

(** The longest run of digits at the front of [s], and what follows it. *)
Fixpoint span_digits (s : string) : string * string :=
  match s with
  | String c s' =>
      if is_digit c
      then let '(ds, rest) := span_digits s' in (String c ds, rest)
      else ("", s)
  | EmptyString => ("", s)
  end.

(** The first group of [NUMBER_RE]: an optional minus sign, then either a
    single 0 or a digit from 1 to 9 followed by any number of digits. *)
Definition match_integer (s : string) : option (string * string) :=
  let '(sign, s1) := match s with
                     | String "-" r => ("-", r)
                     | _ => ("", s)
                     end in
  match s1 with
  | String "0" r => Some (sign +:+ "0", r)
  | String c r =>
      if is_digit c
      then let '(ds, rest) := span_digits r in Some (sign +:+ String c ds, rest)
      else None
  | EmptyString => None
  end.

(** The optional second group: a point and at least one digit. *)
Definition match_frac (s : string) : option string * string :=
  match s with
  | String "." r =>
      match span_digits r with
      | (String d ds, rest) => (Some (String "." (String d ds)), rest)
      | _ => (None, s)
      end
  | _ => (None, s)
  end.

(** The optional third group: e or E, an optional sign, at least one digit. *)
Definition match_exp (s : string) : option string * string :=
  match s with
  | String e r =>
      if Ascii.eqb e "e" || Ascii.eqb e "E" then
        let '(sign, r1) := match r with
                           | String "-" r' => ("-", r')
                           | String "+" r' => ("+", r')
                           | _ => ("", r)
                           end in
        match span_digits r1 with
        | (String d ds, rest) => (Some (String e (sign +:+ String d ds)), rest)
        | _ => (None, s)
        end
      else (None, s)
  | EmptyString => (None, s)
  end.

(** [NUMBER_RE.match]: the three groups and the text after the match. *)
Definition match_number (s : string)
  : option (string * option string * option string * string) :=
  match match_integer s with
  | None => None
  | Some (integer, r) =>
      let '(frac, r1) := match_frac r in
      let '(exp, r2) := match_exp r1 in
      Some (integer, frac, exp, r2)
  end.

(** [int(s)] on the text of the integer group. *)
Fixpoint digits_value (acc : Z) (s : string) : Z :=
  match s with
  | String c s' => digits_value (10 * acc + (Z.of_nat (nat_of_ascii c) - 48)) s'
  | EmptyString => acc
  end.

Definition parse_int (s : string) : Z :=
  match s with
  | String "-" r => - digits_value 0 r
  | _ => digits_value 0 s
  end.

(** [parse_constant]: the floats that [NaN], [Infinity] and [-Infinity] name. *)
Definition parse_constant (name : string) : pyval :=
  if String.eqb name "NaN" then PyFloat PrimFloat.nan
  else if String.eqb name "Infinity" then PyFloat PrimFloat.infinity
  else PyFloat PrimFloat.neg_infinity.

(** [s[:len(p)] == p] *)
Definition startswith (p s : string) : bool := String.prefix p s.

(** [s[n:]] *)
Definition drop (n : nat) (s : string) : string :=
  substring n (String.length s - n) s.

(** The parts of a [JSONDecoder] that the scanner calls back: each takes
    the text after the opening character and returns the value with the
    text that follows it. *)
Record JSONDecoder : Type := {
  parse_float : string -> float;
  parse_string : string -> Exc (pyval * string);
  parse_object : string -> Exc (pyval * string);
  parse_array : string -> Exc (pyval * string)
}.

Section Scanner.

Variable decoder : JSONDecoder.

Definition opt_text (o : option string) : string := default "" o.

(** [_scan_once(string, idx)] of [py_make_scanner]. *)
Definition scan_once (s : string) : Exc (pyval * string) :=
  match s with
  | EmptyString => inl (Exn StopIteration "")
  | String nextchar s' =>
      if Ascii.eqb nextchar dquote then parse_string decoder s'
      else if Ascii.eqb nextchar "{" then parse_object decoder s'
      else if Ascii.eqb nextchar "[" then parse_array decoder s'
      else if Ascii.eqb nextchar "n" && startswith "null" s then inr (PyNone, drop 4 s)
      else if Ascii.eqb nextchar "t" && startswith "true" s then inr (PyBool true, drop 4 s)
      else if Ascii.eqb nextchar "f" && startswith "false" s then inr (PyBool false, drop 5 s)
      else
        match match_number s with
        | Some (integer, frac, exp, rest) =>
            match frac, exp with
            | None, None => inr (PyInt (parse_int integer), rest)
            | _, _ =>
                inr (PyFloat (parse_float decoder
                                (integer +:+ opt_text frac +:+ opt_text exp)), rest)
            end
        | None =>
            if Ascii.eqb nextchar "N" && startswith "NaN" s
            then inr (parse_constant "NaN", drop 3 s)
            else if Ascii.eqb nextchar "I" && startswith "Infinity" s
            then inr (parse_constant "Infinity", drop 8 s)
            else if Ascii.eqb nextchar "-" && startswith "-Infinity" s
            then inr (parse_constant "-Infinity", drop 9 s)
            else inl (Exn StopIteration "")
        end
  end.

(** [JSONDecoder.raw_decode]: the scanner's [StopIteration] becomes a
    [JSONDecodeError]. *)
Definition raw_decode (s : string) : Exc (pyval * string) :=
  match scan_once s with
  | inl e =>
      if isinstance e StopIteration
      then inl (Exn JSONDecodeError "Expecting value")
      else inl e
  | inr r => inr r
  end.

(** [JSONDecoder.decode]: one value, with nothing but whitespace around it. *)
Definition decode (s : string) : Exc pyval :=
  match raw_decode (skip_whitespace s) with
  | inl e => inl e
  | inr (obj, rest) =>
      match skip_whitespace rest with
      | EmptyString => inr obj
      | String _ _ => inl (Exn JSONDecodeError "Extra data")
      end
  end.

(** [json.load(fp)] on a stream holding the text [s]. *)
Definition load (s : string) : Exc pyval := decode s.

End Scanner.

(** *** The default decoder *)

(** The value of a hexadecimal digit. *)
Definition hex_value (c : ascii) : option N :=
  let n := N_of_ascii c in
  if ((48 <=? n) && (n <=? 57))%N then Some (n - 48)%N
  else if ((97 <=? n) && (n <=? 102))%N then Some (n - 87)%N
  else if ((65 <=? n) && (n <=? 70))%N then Some (n - 55)%N
  else None.

(** The four hexadecimal digits of a [\u] escape. *)
Definition hex4 (a b c d : ascii) : option N :=
  match hex_value a, hex_value b, hex_value c, hex_value d with
  | Some x, Some y, Some z, Some w => Some (((x * 16 + y) * 16 + z) * 16 + w)%N
  | _, _, _, _ => None
  end.

(** [chr(n)]: a str is kept as the bytes of its UTF-8 form, a lone
    surrogate as the three bytes that pattern gives it. *)
Definition byte (n : N) : ascii := ascii_of_N n.

Definition chr (n : N) : string :=
  if (n <? 128)%N then String (byte n) ""
  else if (n <? 2048)%N
  then String (byte (192 + n / 64)) (String (byte (128 + n mod 64)) "")
  else if (n <? 65536)%N
  then String (byte (224 + n / 4096))
         (String (byte (128 + (n / 64) mod 64)) (String (byte (128 + n mod 64)) ""))
  else String (byte (240 + n / 262144))
         (String (byte (128 + (n / 4096) mod 64))
            (String (byte (128 + (n / 64) mod 64)) (String (byte (128 + n mod 64)) ""))).

(** The table [BACKSLASH] of the escapes of one character. *)
Definition unescape (esc : ascii) : option ascii :=
  if Ascii.eqb esc dquote then Some dquote
  else if Ascii.eqb esc "\" then Some "\"%char
  else if Ascii.eqb esc "/" then Some "/"%char
  else if Ascii.eqb esc "b" then Some (ascii_of_nat 8)
  else if Ascii.eqb esc "f" then Some (ascii_of_nat 12)
  else if Ascii.eqb esc "n" then Some (ascii_of_nat 10)
  else if Ascii.eqb esc "r" then Some (ascii_of_nat 13)
  else if Ascii.eqb esc "t" then Some (ascii_of_nat 9)
  else None.

(** The two halves of a surrogate pair. *)
Definition is_high_surrogate (n : N) : bool := ((55296 <=? n) && (n <=? 56319))%N.
Definition is_low_surrogate (n : N) : bool := ((56320 <=? n) && (n <=? 57343))%N.

(** The characters [chars], then the rest of the string. *)
Definition then_chars (chars : string) (r : Exc (string * string)) : Exc (string * string) :=
  match r with
  | inl e => inl e
  | inr (str, rest) => inr (chars +:+ str, rest)
  end.

(** [scanstring] of the accelerator [_json], strict: [s] is the text after
    the opening quote; the result is the str and the text after the closing
    quote.  A [\u] escape takes four hexadecimal digits with a character
    after them, and a high surrogate followed by the escape of a low one,
    itself with a character after it, makes one character. *)
Fixpoint scanstring (s : string) : Exc (string * string) :=
  match s with
  | EmptyString => inl (Exn JSONDecodeError "Unterminated string starting at")
  | String c rest =>
      if Ascii.eqb c dquote then inr ("", rest)
      else if Ascii.eqb c "\" then
        match rest with
        | EmptyString => inl (Exn JSONDecodeError "Unterminated string starting at")
        | String "u" (String x1 (String x2 (String x3 (String x4 (String _ _ as rest1))))) =>
            match hex4 x1 x2 x3 x4 with
            | None => inl (Exn JSONDecodeError "Invalid \uXXXX escape")
            | Some uni =>
                match rest1 with
                | String "\" (String "u" (String y1 (String y2 (String y3
                    (String y4 (String _ _ as rest2)))))) =>
                    if is_high_surrogate uni then
                      match hex4 y1 y2 y3 y4 with
                      | None => inl (Exn JSONDecodeError "Invalid \uXXXX escape")
                      | Some uni2 =>
                          if is_low_surrogate uni2
                          then then_chars
                                 (chr (65536 + (uni - 55296) * 1024 + (uni2 - 56320)))
                                 (scanstring rest2)
                          else then_chars (chr uni) (scanstring rest1)
                      end
                    else then_chars (chr uni) (scanstring rest1)
                | _ => then_chars (chr uni) (scanstring rest1)
                end
            end
        | String "u" _ => inl (Exn JSONDecodeError "Invalid \uXXXX escape")
        | String esc rest1 =>
            match unescape esc with
            | Some char => then_chars (String char "") (scanstring rest1)
            | None => inl (Exn JSONDecodeError "Invalid \escape")
            end
        end
      else if (nat_of_ascii c <=? 31)%nat
      then inl (Exn JSONDecodeError "Invalid control character at")
      else then_chars (String c "") (scanstring rest)
  end.

(** [dict.__setitem__] on the list of items: a key that is there keeps its
    place and takes the new value. *)
Fixpoint dict_setitem (d : dict) (k : string) (v : pyval) : dict :=
  match d with
  | [] => [(k, v)]
  | (k', v') :: d' =>
      if String.eqb k' k then (k', v) :: d' else (k', v') :: dict_setitem d' k v
  end.

Section Containers.

(** The scanner that [JSONObject] and [JSONArray] are given for the values
    they hold. *)
Variable scan : string -> Exc (pyval * string).

(** The loop of [JSONObject]: [s] begins where a key is expected.  An
    item takes at least one character, so [fuel], the length of the text,
    never runs out. *)
Fixpoint object_items (fuel : nat) (s : string) (pairs : dict) : Exc (pyval * string) :=
  match fuel with
  | O => inl (Exn JSONDecodeError "Expecting property name enclosed in double quotes")
  | S fuel' =>
      match s with
      | String c s1 =>
          if Ascii.eqb c dquote then
            match scanstring s1 with
            | inl e => inl e
            | inr (key, s2) =>
                match skip_whitespace s2 with
                | String ":" s3 =>
                    match scan (skip_whitespace s3) with
                    | inl e => inl e
                    | inr (value, s4) =>
                        let pairs := dict_setitem pairs key value in
                        match skip_whitespace s4 with
                        | String "}" s5 => inr (PyDict pairs, s5)
                        | String "," s5 => object_items fuel' (skip_whitespace s5) pairs
                        | _ => inl (Exn JSONDecodeError "Expecting ',' delimiter")
                        end
                    end
                | _ => inl (Exn JSONDecodeError "Expecting ':' delimiter")
                end
            end
          else inl (Exn JSONDecodeError "Expecting property name enclosed in double quotes")
      | EmptyString =>
          inl (Exn JSONDecodeError "Expecting property name enclosed in double quotes")
      end
  end.

(** [JSONObject]: [s] is the text after the opening brace. *)
Definition JSONObject (s : string) : Exc (pyval * string) :=
  match skip_whitespace s with
  | String "}" rest => inr (PyDict [], rest)
  | s1 => object_items (String.length s1) s1 []
  end.

(** The loop of [JSONArray]: [s] begins where a value is expected. *)
Fixpoint array_items (fuel : nat) (s : string) (values : list pyval)
  : Exc (pyval * string) :=
  match fuel with
  | O => inl (Exn JSONDecodeError "Expecting value")
  | S fuel' =>
      match scan s with
      | inl e => inl e
      | inr (value, s1) =>
          let values := values ++ [value] in
          match skip_whitespace s1 with
          | String "]" s2 => inr (PyList values, s2)
          | String "," s2 => array_items fuel' (skip_whitespace s2) values
          | _ => inl (Exn JSONDecodeError "Expecting ',' delimiter")
          end
      end
  end.

(** [JSONArray]: [s] is the text after the opening bracket. *)
Definition JSONArray (s : string) : Exc (pyval * string) :=
  match skip_whitespace s with
  | String "]" rest => inr (PyList [], rest)
  | s1 => array_items (S (String.length s1)) s1 []
  end.

End Containers.

(** [int(s)] for the digits of an exponent, with their sign. *)
Definition signed_digits (s : string) : Z :=
  match s with
  | String "-" r => - digits_value 0 r
  | String "+" r => digits_value 0 r
  | _ => digits_value 0 s
  end.

(** The binary64 nearest to [m] times ten to the [e10], ties to even: a
    quotient is cut after more than 64 bits, with a last bit that tells
    whether anything was cut. *)
Definition decimal (negative : bool) (m e10 : Z) : spec_float :=
  let sign (z : Z) := if negative then (- z)%Z else z in
  if (m =? 0)%Z then S754_zero negative
  else if (0 <=? e10)%Z
  then SpecFloat.binary_normalize prec emax (sign (m * 10 ^ e10)%Z) 0 false
  else
    let d := (10 ^ (- e10))%Z in
    let s := Z.max 0 (64 + Z.log2 d - Z.log2 m)%Z in
    let q := (m * 2 ^ s / d)%Z in
    let sticky := if (m * 2 ^ s mod d =? 0)%Z then 0%Z else 1%Z in
    SpecFloat.binary_normalize prec emax (sign (2 * q + sticky)%Z) (- (s + 1)) false.

(** [float(s)] for the text of a number. *)
Definition py_float (s : string) : float :=
  let '(negative, s1) := match s with
                         | String "-" r => (true, r)
                         | _ => (false, s)
                         end in
  let '(int_digits, r1) := span_digits s1 in
  let '(frac_digits, r2) := match r1 with
                            | String "." r => span_digits r
                            | _ => ("", r1)
                            end in
  let exponent := match r2 with
                  | String _ r => signed_digits r
                  | EmptyString => 0%Z
                  end in
  SF2Prim (decimal negative (digits_value 0 (int_digits +:+ frac_digits))
             (exponent - Z.of_nat (String.length frac_digits))).

(** The decoder that [json.load] uses when it is given none, on an
    interpreter that has room for [depth] nested objects and arrays. *)
Fixpoint default_decoder (depth : nat) : JSONDecoder :=
  let parse_string s :=
    match scanstring s with
    | inl e => inl e
    | inr (str, rest) => inr (PyStr str, rest)
    end in
  match depth with
  | O =>
      {| parse_float := py_float;
         parse_string := parse_string;
         parse_object := fun _ =>
           inl (Exn RecursionError
                  "maximum recursion depth exceeded while decoding a JSON object from a unicode string");
         parse_array := fun _ =>
           inl (Exn RecursionError
                  "maximum recursion depth exceeded while decoding a JSON array from a unicode string") |}
  | S depth' =>
      let scan := scan_once (default_decoder depth') in
      {| parse_float := py_float;
         parse_string := parse_string;
         parse_object := JSONObject scan;
         parse_array := JSONArray scan |}
  end.

End Json.

(** ** Statements that change a state and may raise *)

Module Eff.

(** How a call ends: it returns, it raises, or it never comes back (a wait
    whose condition is never met). *)
Inductive outcome (A : Type) : Type :=
| Returned (a : A)
| Raised (e : exn)
| Blocked.

Arguments Returned {A} a.
Arguments Raised {A} e.
Arguments Blocked {A}.

(** A statement run on a state [S]: an assignment made before an exception
    is raised stays made. *)
Definition M (S A : Type) : Type := S -> outcome A * S.

Definition ret {S A} (a : A) : M S A := fun st => (Returned a, st).

Definition bind {S A B} (c : M S A) (k : A -> M S B) : M S B :=
  fun st =>
    match c st with
    | (Returned a, st') => k a st'
    | (Raised e, st') => (Raised e, st')
    | (Blocked, st') => (Blocked, st')
    end.

Definition raise {S A} (e : exn) : M S A := fun st => (Raised e, st).

Definition block {S A} : M S A := fun st => (Blocked, st).

Definition get {S} : M S S := fun st => (Returned st, st).

Definition modify {S} (f : S -> S) : M S unit := fun st => (Returned tt, f st).

(** An expression that may raise, evaluated as a statement. *)
Definition lift {S A} (r : Exc A) : M S A :=
  match r with inl e => raise e | inr a => ret a end.

(** [try: body / except cls: handler] *)
Definition try_except {S A} (body : M S A) (cls : exc_class)
    (handler : exn -> M S A) : M S A :=
  fun st =>
    match body st with
    | (Raised e, st') =>
        if isinstance e cls then handler e st' else (Raised e, st')
    | r => r
    end.

(** [for x in l: body x] *)
Fixpoint for_each {S A} (l : list A) (body : A -> M S unit) : M S unit :=
  match l with
  | [] => ret tt
  | x :: l' => bind (body x) (fun _ => for_each l' body)
  end.

#[export] Instance M_ret {S} : MRet (M S) := fun A a => ret a.

#[export] Instance M_bind {S} : MBind (M S) := fun A B k c => bind c k.

End Eff.

Import Eff.

(** ** The kernel manager ([HydraKernelManager], [HydraMultiKernelManager]) *)

Module Manager.

(** Modelled from the spec: the Target that [hydra_kernel/binding.py]
    (not among the sources) implements as [Binding]: its name, the
    engine type, the loopback flag and, in [connection], the user, the host
    and the credential reference; each of the three may be absent. *)
Record Binding : Type := {
  name : string;
  kernel : string;
  is_loopback : bool;
  user : option string;
  host : option string;
  ssh_private_key_file : option string
}.

(** The five ports that [tunnel_to_kernel] returns. *)
Record Ports : Type := {
  shell_port : Z; iopub_port : Z; stdin_port : Z; hb_port : Z; control_port : Z
}.

Record HydraKernelManager : Type := {
  id : string;
  kernel_name : string;
  tunnel : bool;
  _binding : option Binding;          (* None until init_binding *)
  _kernel_spec : bool                 (* whether the base class holds the kernel spec *)
}.

(** The calls that leave the repository, in the order they are made, and
    the assignment of the five port traits, which the base class holds. *)
Inductive Event : Type :=
| GetKernelSpec (kernel_name : string)
| InstallKernelSpec (kernel_name : string)
| Exec (command : string)
| LoadConnectionInfo (info : pyval)
| GetConnectionInfo
| TunnelToKernel (info : pyval) (sshserver : string) (sshkey : option string)
| AssignPorts (ports : Ports)
| SuperPreStartKernel.

(** How those calls answer, given the calls made so far ([None]: the call
    returns).  The base class's [pre_start_kernel] answers twice: for what
    it does before it reads [self.kernel_spec], and for the rest. *)
Record Env : Type := {
  get_kernel_spec : string -> list Event -> option exn;
  install_kernel_spec : string -> list Event -> option exn;
  exec : string -> list Event -> Exc (Z * string * string);
  decoder : Json.JSONDecoder;
  load_connection_info : pyval -> list Event -> option exn;
  get_connection_info : list Event -> pyval;
  tunnel_to_kernel : pyval -> string -> option string -> list Event -> Exc Ports;
  super_pre_start_kernel : list Event -> option exn;
  super_pre_start_kernel_rest : list Event -> option exn
}.

Record State : Type := {
  self : HydraKernelManager;
  trace : list Event
}.

(** An outside call: recorded, then answered from the calls before it. *)
Definition call {A} (ev : Event) (answer : list Event -> Exc A) : M State A :=
  fun st =>
    let st' := {| self := self st; trace := trace st ++ [ev] |} in
    match answer (trace st) with
    | inl e => (Raised e, st')
    | inr a => (Returned a, st')
    end.

(** How a call that is under way goes on, given the calls made so far. *)
Definition goes_on {A} (answer : list Event -> Exc A) : M State A :=
  fun st =>
    match answer (trace st) with
    | inl e => (Raised e, st)
    | inr a => (Returned a, st)
    end.

Definition unit_answer (r : option exn) : Exc unit :=
  match r with Some e => inl e | None => inr tt end.

Definition set_self (f : HydraKernelManager -> HydraKernelManager) : M State unit :=
  modify (fun st => {| self := f (self st); trace := trace st |}).

(** [shlex.quote] *)
Definition is_safe_char (c : ascii) : bool :=
  let n := nat_of_ascii c in
  ((48 <=? n) && (n <=? 57) || (65 <=? n) && (n <=? 90)
   || (97 <=? n) && (n <=? 122))%nat
  || existsb (Ascii.eqb c) (list_ascii_of_string "_@%+=:,./-").

Fixpoint escape_quotes (s : string) : string :=
  match s with
  | String c s' =>
      if Ascii.eqb c "'"
      then String "'" (String dquote (String "'" (String dquote "'"))) +:+ escape_quotes s'
      else String c (escape_quotes s')
  | EmptyString => ""
  end.

Definition quote (s : string) : string :=
  if String.eqb s "" then "''"
  else if forallb is_safe_char (list_ascii_of_string s) then s
  else "'" +:+ escape_quotes s +:+ "'".

(** [str(x)] of an optional str, as an f-string prints it. *)
Definition format_opt (o : option string) : string := default "None" o.

(** The property [needs_tunnel]. *)
Definition needs_tunnel (km : HydraKernelManager) : Exc bool :=
  if tunnel km then
    match _binding km with
    | Some b => inr (negb (is_loopback b))
    | None => inl (Exn AttributeError "'NoneType' object has no attribute 'is_loopback'")
    end
  else inr false.

Definition init_binding (binding : Binding) (km : HydraKernelManager)
  : HydraKernelManager :=
  {| id := id km; kernel_name := kernel_name km; tunnel := tunnel km;
     _binding := Some binding; _kernel_spec := _kernel_spec km |}.

Section WithEnv.

Variable env : Env.

(** [pre_start_kernel], first statement: the kernel spec is looked up and,
    when the lookup raises [NoSuchKernel], installed. *)
Definition lookup_or_install (km : HydraKernelManager) : M State unit :=
  try_except
    (call (GetKernelSpec (kernel_name km))
          (fun tr => unit_answer (get_kernel_spec env (kernel_name km) tr)))
    NoSuchKernel
    (fun _ =>
       call (InstallKernelSpec (kernel_name km))
            (fun tr => unit_answer (install_kernel_spec env (kernel_name km) tr))).

(** [pre_start_kernel], the remote start: the command is run through the
    binding, its output read as JSON and the connection it holds loaded. *)
Definition spawn_remote (km : HydraKernelManager) : M State unit :=
  (* Actually start the kernel on the remote, it will return the pid *)
  lift (match _binding km with
        | Some _ => inr tt
        | None => inl (Exn AttributeError "'NoneType' object has no attribute 'exec'")
        end);;
  let command := "hydra spawn " +:+ quote (id km) +:+ " " +:+ quote (kernel_name km) in
  '(code, stdout, stderr) ← call (Exec command) (exec env command);
  res ← lift (Json.load (decoder env) stdout);
  (* pid, connection *)
  info ← lift (getitem res "connection");
  call (LoadConnectionInfo info)
       (fun tr => unit_answer (load_connection_info env info tr)).

(** [pre_start_kernel], the tunnel: [if self.needs_tunnel: ...].  What is
    tunnelled is what [self.get_connection_info()] returns. *)
Definition tunnel_ports (km : HydraKernelManager) : M State unit :=
  tunnelled ← lift (needs_tunnel km);
  if tunnelled : bool then
    conn ← lift (match _binding km with
                 | Some b => inr b
                 | None => inl (Exn AttributeError
                                  "'NoneType' object has no attribute 'connection'")
                 end);
    let sshkey := ssh_private_key_file conn in
    let sshserver := format_opt (user conn) +:+ "@" +:+ format_opt (host conn) in
    info ← call GetConnectionInfo (fun tr => inr (get_connection_info env tr));
    p ← call (TunnelToKernel info sshserver sshkey)
             (tunnel_to_kernel env info sshserver sshkey);
    call (AssignPorts p) (fun _ => inr tt)
  else ret tt.

(** The property [kernel_spec] of the base class: unless the manager holds
    the spec already, or its kernel name is empty, the spec is looked up
    through [self.kernel_spec_manager], the manager that [pre_start_kernel]
    asks first, and kept. *)
Definition kernel_spec : M State unit :=
  st ← get;
  let km := self st in
  if _kernel_spec km || String.eqb (kernel_name km) "" then ret tt
  else
    call (GetKernelSpec (kernel_name km))
         (fun tr => unit_answer (get_kernel_spec env (kernel_name km) tr));;
    set_self (fun km => {| id := id km; kernel_name := kernel_name km;
                           tunnel := tunnel km; _binding := _binding km;
                           _kernel_spec := true |}).

(** The [pre_start_kernel] of the base class, called through [super()]:
    the kernel manager of [jupyter_client] reads [self.kernel_spec] for the
    command of the kernel (its [kernel_cmd] trait, long deprecated, being
    unset). *)
Definition base_pre_start_kernel : M State unit :=
  call SuperPreStartKernel (fun tr => unit_answer (super_pre_start_kernel env tr));;
  kernel_spec;;
  goes_on (fun tr => unit_answer (super_pre_start_kernel_rest env tr)).

(** [HydraKernelManager.pre_start_kernel] *)
Definition pre_start_kernel : M State unit :=
  st ← get;
  let km := self st in
  lookup_or_install km;;
  spawn_remote km;;
  tunnel_ports km;;
  base_pre_start_kernel.

End WithEnv.

(** [HydraMultiKernelManager.pre_start_kernel], after the base class has
    made the manager [km] and the kernel id: [kwargs.pop("binding")], then
    the two assignments. *)
Definition multi_pre_start_kernel (km : HydraKernelManager) (kernel_id : string)
    (binding : option Binding) : Exc HydraKernelManager :=
  match binding with
  | None => inl (Exn KeyError "binding")
  | Some b =>
      let km := init_binding b km in
      inr {| id := kernel_id; kernel_name := kernel_name km; tunnel := tunnel km;
             _binding := _binding km; _kernel_spec := _kernel_spec km |}
  end.

End Manager.

(** ** The dispatcher side of [hydra_kernel/kernel.py] *)

Module Kernel.

Import Manager.

(** Where the kernel's session sends: the caller's broadcast socket and its
    control streams. *)
Inductive Sink : Type :=
| IopubSocket
| ShellStream (i : nat).

(** A message as a handler reads it: [msg["header"]["msg_type"]],
    [msg.get("content")] and [msg.get("metadata")] ([None] when absent). *)
Record Msg : Type := {
  msg_type : string;
  content : pyval;
  metadata : pyval
}.

(** The execution request being served.  [binding_name] is the routing tag,
    [parent["metadata"].get("chameleon.binding_name")]: a str, or [None]
    when the field is absent. *)
Record Request : Type := {
  msg_id : string;
  binding_name : option string;
  request_content : dict
}.

(** What leaves the kernel, in order: the session's sends and the calls
    into [jupyter_client] and the binding manager. *)
Inductive Event : Type :=
| Send (stream : Sink) (msg_type : string) (content : pyval)
       (parent : Request) (metadata : pyval)
| BindingManagerGet (name : string)
| StartKernel (kernel : string) (binding : Binding)
| Client (kernel_id : string)
| StartChannels (kc : nat)
| ShutdownKernel (kernel_id : string)
| ChannelSend (kc : nat) (msg_type : string) (content : dict)
| Flush (kc : nat)
| SuperExecuteRequest (parent : Request)
| AbortQueues.

(** *** [ProxyComms] *)

Record ProxyComms : Type := {
  parent : Request;
  iopub : Sink;
  shells : list Sink;
  _reply_content : pyval;
  _kernel_idle : bool
}.

(** [ProxyComms.__init__] *)
Definition new_ProxyComms (parent : Request) (iopub : Sink) (shells : list Sink)
  : ProxyComms :=
  {| parent := parent; iopub := iopub; shells := shells;
     _reply_content := PyNone; _kernel_idle := false |}.

(** The property [reply_content]. *)
Definition reply_content (self : ProxyComms) : pyval :=
  if negb (_kernel_idle self) then PyNone else _reply_content self.

Definition set_kernel_idle (self : ProxyComms) : ProxyComms :=
  {| parent := parent self; iopub := iopub self; shells := shells self;
     _reply_content := _reply_content self; _kernel_idle := true |}.

Definition set_reply_content (self : ProxyComms) (v : pyval) : ProxyComms :=
  {| parent := parent self; iopub := iopub self; shells := shells self;
     _reply_content := v; _kernel_idle := _kernel_idle self |}.

(** A handler's effect: what it sent, and the proxy it leaves (or the
    exception it raises, the proxy then being as it was). *)
Definition Handled : Type := list Event * Exc ProxyComms.

Definition on_iopub_message (self : ProxyComms) (msg : Msg) : Handled :=
  let type := msg_type msg in
  let content := content msg in
  let sent := [Send (iopub self) type content (parent self) (metadata msg)] in
  if String.eqb type "status" then
    match getitem content "execution_state" with
    | inl e => (sent, inl e)
    | inr state =>
        if eq_str state "idle" then (sent, inr (set_kernel_idle self))
        else (sent, inr self)
    end
  else (sent, inr self).

Definition on_shell_message (self : ProxyComms) (msg : Msg) : Handled :=
  let type := msg_type msg in
  let content := content msg in
  if String.eqb type "execute_request" then
    (* This message was sent ourselves and should not be proxied back to
       the source. *)
    ([], inr self)
  else
    let sent := map (fun s => Send s type content (parent self) (metadata msg))
                    (shells self) in
    if String.eqb type "execute_reply"
    then (sent, inr (set_reply_content self content))
    else (sent, inr self).

(** *** [HydraChannel] and [HydraKernelClient] *)

(** A piped handler: a bound method of the proxy at a place of the store. *)
Inductive Handler : Type :=
| OnIopubMessage (proxy : nat)
| OnShellMessage (proxy : nat).

Record HydraChannel : Type := { _pipes : list Handler }.

(** [HydraChannel.__init__] *)
Definition new_HydraChannel : HydraChannel := {| _pipes := [] |}.

Definition pipe (self : HydraChannel) (handler : Handler) : HydraChannel :=
  {| _pipes := _pipes self ++ [handler] |}.

Definition unpipe (self : HydraChannel) : HydraChannel :=
  {| _pipes := [] |}.

Record HydraKernelClient : Type := {
  shell_channel : HydraChannel;
  iopub_channel : HydraChannel
}.

Inductive ChannelName : Type := Shell | Iopub.

Definition channel (which : ChannelName) (kc : HydraKernelClient) : HydraChannel :=
  match which with Shell => shell_channel kc | Iopub => iopub_channel kc end.

Definition set_channel (which : ChannelName) (ch : HydraChannel)
    (kc : HydraKernelClient) : HydraKernelClient :=
  match which with
  | Shell => {| shell_channel := ch; iopub_channel := iopub_channel kc |}
  | Iopub => {| shell_channel := shell_channel kc; iopub_channel := ch |}
  end.

(** *** The kernel's state *)

(** [_kernels] is the class-level dict of [HydraKernel]; a kernel manager is
    known by its kernel id, clients and proxies by their place in the
    store. *)
Record State : Type := {
  trace : list Event;
  _kernels : gmap string (string * nat);
  clients : gmap nat HydraKernelClient;
  proxies : gmap nat ProxyComms;
  shell_streams : list Sink
}.

Definition set_trace (f : list Event -> list Event) (st : State) : State :=
  {| trace := f (trace st); _kernels := _kernels st; clients := clients st;
     proxies := proxies st; shell_streams := shell_streams st |}.

Definition set_kernels (f : gmap string (string * nat) -> gmap string (string * nat))
    (st : State) : State :=
  {| trace := trace st; _kernels := f (_kernels st); clients := clients st;
     proxies := proxies st; shell_streams := shell_streams st |}.

Definition set_clients (f : gmap nat HydraKernelClient -> gmap nat HydraKernelClient)
    (st : State) : State :=
  {| trace := trace st; _kernels := _kernels st; clients := f (clients st);
     proxies := proxies st; shell_streams := shell_streams st |}.

Definition set_proxies (f : gmap nat ProxyComms -> gmap nat ProxyComms)
    (st : State) : State :=
  {| trace := trace st; _kernels := _kernels st; clients := clients st;
     proxies := f (proxies st); shell_streams := shell_streams st |}.

Definition emit (evs : list Event) : M State unit :=
  modify (set_trace (fun tr => tr ++ evs)).

(** An outside call: recorded, then answered from the trace before it. *)
Definition call {A} (ev : Event) (answer : list Event -> Exc A) : M State A :=
  fun st =>
    match answer (trace st) with
    | inl e => (Raised e, set_trace (fun tr => tr ++ [ev]) st)
    | inr a => (Returned a, set_trace (fun tr => tr ++ [ev]) st)
    end.

Definition unit_answer (r : option exn) : Exc unit :=
  match r with Some e => inl e | None => inr tt end.

(** The first place of a store that holds nothing. *)
Definition fresh_place {A} (m : gmap nat A) : nat := fresh (dom m).

(** Calling a piped handler: the bound method runs on its proxy. *)
Definition invoke (handler : Handler) (msg : Msg) : M State unit :=
  let '(ref, method) := match handler with
                        | OnIopubMessage r => (r, on_iopub_message)
                        | OnShellMessage r => (r, on_shell_message)
                        end in
  st ← get;
  match proxies st !! ref with
  | None => ret tt
  | Some self =>
      let '(sent, result) := method self msg in
      emit sent;;
      match result with
      | inl e => raise e
      | inr self' => modify (set_proxies (insert ref self'))
      end
  end.

(** [HydraChannel.call_handlers] on the channel [which] of the client at
    [kc]. *)
Definition call_handlers (kc : nat) (which : ChannelName) (msg : Msg)
  : M State unit :=
  st ← get;
  match clients st !! kc with
  | None => ret tt
  | Some client => for_each (_pipes (channel which client)) (fun h => invoke h msg)
  end.

(** A message reaching a channel of the delegated engine's client. *)
Definition Arrival : Type := ChannelName * Msg.

(** The channel's thread hands an arriving message to [call_handlers]; an
    exception raised by a handler ends that call and stays in that
    thread. *)
Definition deliver (kc : nat) (a : Arrival) (st : State) : State :=
  snd (call_handlers kc (fst a) (snd a) st).

Definition deliver_all (kc : nat) (l : list Arrival) (st : State) : State :=
  fold_left (fun st a => deliver kc a st) l st.

Definition update_channel (kc : nat) (which : ChannelName)
    (f : HydraChannel -> HydraChannel) : M State unit :=
  modify (set_clients (fun cs =>
    match cs !! kc with
    | Some client => <[kc := set_channel which (f (channel which client)) client]> cs
    | None => cs
    end)).

(** What the delegated engine's channels receive while one request is
    served: after the request is sent and before the handlers are piped,
    between two successive tests of the wait loop, and while the broadcast
    channel is flushed. *)
Record Schedule : Type := {
  before_pipes : list Arrival;
  while_waiting : list (list Arrival);
  on_flush : list Arrival
}.

(** The wait loop: [while not proxy.reply_content: time.sleep(0.1)].  With
    no arrival left the condition cannot change any more and the loop
    never ends. *)
Fixpoint wait (proxy kc : nat) (batches : list (list Arrival)) : M State unit :=
  fun st =>
    let observed := match proxies st !! proxy with
                    | Some self => reply_content self
                    | None => PyNone
                    end in
    if truthy observed then (Returned tt, st)
    else
      match batches with
      | [] => (Blocked, st)
      | batch :: batches' => wait proxy kc batches' (deliver_all kc batch st)
      end.

(** How the calls into [jupyter_client] and the binding manager answer,
    given the trace so far ([None]: the call returns). *)
Record Env : Type := {
  binding_manager_get : string -> list Event -> Exc Binding;
  start_kernel : string -> Binding -> list Event -> Exc string;
  client : string -> list Event -> option exn;
  start_channels : nat -> list Event -> option exn;
  shutdown_kernel : string -> list Event -> option exn;
  super_execute_request : Request -> list Event -> option exn
}.

Section WithEnv.

Variable env : Env.

(** [km.client()]: a client whose channels have nothing piped. *)
Definition new_client (km : string) : M State nat :=
  call (Client km) (fun tr => unit_answer (client env km tr));;
  st ← get;
  let kc := fresh_place (clients st) in
  modify (set_clients (insert kc {| shell_channel := new_HydraChannel;
                                    iopub_channel := new_HydraChannel |}));;
  ret kc.

Definition spawn_kernel (binding : Binding) : M State (string * nat) :=
  kernel_id ← call (StartKernel (kernel binding) binding)
                   (start_kernel env (kernel binding) binding);
  let km := kernel_id in
  kc ← try_except
         (kc ← new_client km;
          (* Only connect shell and iopub channels *)
          call (StartChannels kc) (fun tr => unit_answer (start_channels env kc tr));;
          ret kc)
         RuntimeError
         (fun e =>
            call (ShutdownKernel km) (fun tr => unit_answer (shutdown_kernel env km tr));;
            raise e);
  ret (km, kc).

(** The lookup-or-spawn step of [execute_request], and the read of
    [self._kernels[binding_name]] that follows it. *)
Definition ensure (binding_name : string) : M State (string * nat) :=
  st ← get;
  (if bool_decide (is_Some (_kernels st !! binding_name)) then ret tt
   else
     binding ← call (BindingManagerGet binding_name)
                    (binding_manager_get env binding_name);
     handle ← spawn_kernel binding;
     modify (set_kernels (insert binding_name handle)));;
  st ← get;
  match _kernels st !! binding_name with
  | Some handle => ret handle
  | None => raise (Exn KeyError binding_name)
  end.

(** The last statement of [execute_request]: the abort policy. *)
Definition abort_policy (silent stop_on_error : pyval) (proxy : nat)
  : M State unit :=
  if negb (truthy silent) then
    st ← get;
    let observed := match proxies st !! proxy with
                    | Some self => reply_content self
                    | None => PyNone
                    end in
    status ← lift (getitem observed "status");
    if eq_str status "error" && truthy stop_on_error
    then emit [AbortQueues]
    else ret tt
  else ret tt.

(** [execute_request] on a request tagged with [binding_name], up to the
    two [unpipe]: the request is handed to the delegated engine and its
    messages are proxied until the reply is observable.  What the last
    statement needs is returned: [silent], [stop_on_error] and the proxy. *)
Definition route (sched : Schedule) (parent : Request) (binding_name : string)
  : M State (pyval * pyval * nat) :=
  let content := request_content parent in
  silent ← lift (dict_getitem content "silent");
  let stop_on_error := dict_get content "stop_on_error" (PyBool true) in
  (* Check if binding name is valid (is there a binding set up?) *)
  '(_, kc) ← ensure binding_name;
  st ← get;
  let proxy := fresh_place (proxies st) in
  modify (set_proxies
            (insert proxy (new_ProxyComms parent IopubSocket (shell_streams st))));;
  emit [ChannelSend kc "execute_request" content];;
  modify (deliver_all kc (before_pipes sched));;
  update_channel kc Iopub (fun ch => pipe ch (OnIopubMessage proxy));;
  update_channel kc Shell (fun ch => pipe ch (OnShellMessage proxy));;
  (* This will effectively block, but perhaps that is a good thing. *)
  wait proxy kc (while_waiting sched);;
  emit [Flush kc];;
  modify (deliver_all kc (on_flush sched));;
  update_channel kc Iopub unpipe;;
  update_channel kc Shell unpipe;;
  ret (silent, stop_on_error, proxy).

(** [HydraKernel.execute_request] *)
Definition execute_request (sched : Schedule) (parent : Request) : M State unit :=
  match binding_name parent with
  | None | Some "" =>
      call (SuperExecuteRequest parent)
           (fun tr => unit_answer (super_execute_request env parent tr))
  | Some binding_name =>
      '(silent, stop_on_error, proxy) ← route sched parent binding_name;
      abort_policy silent stop_on_error proxy
  end.

End WithEnv.

End Kernel.

(** ** Vocabulary of the statements *)

(** An int or a float: what the JSON scanner makes of a number. *)
Definition is_number (v : pyval) : Prop :=
  match v with PyInt _ | PyFloat _ => True | _ => False end.

(** The manager's state after the events [evs]. *)
Definition manager_after (st : Manager.State) (evs : list Manager.Event)
  : Manager.State :=
  {| Manager.self := Manager.self st; Manager.trace := Manager.trace st ++ evs |}.

(** The manager [km] once the base class holds its kernel spec. *)
Definition holding_spec (km : Manager.HydraKernelManager)
  : Manager.HydraKernelManager :=
  {| Manager.id := Manager.id km; Manager.kernel_name := Manager.kernel_name km;
     Manager.tunnel := Manager.tunnel km; Manager._binding := Manager._binding km;
     Manager._kernel_spec := true |}.

(** The events that concern the kernel spec: its lookup and its install. *)
Definition is_spec_event (ev : Manager.Event) : bool :=
  match ev with
  | Manager.GetKernelSpec _ | Manager.InstallKernelSpec _ => true
  | _ => false
  end.

(** A statement run on a state with a trace adds events to the trace, and
    each of them satisfies [P]. *)
Definition emits {S Ev A : Type} (tr : S -> list Ev) (P : Ev -> Prop)
    (c : M S A) : Prop :=
  forall st o st', c st = (o, st') ->
    exists evs, tr st' = tr st ++ evs /\ Forall P evs.

(** The proxy after an arriving message has been handled: the handler of
    the channel it came on has run; a handler that raises leaves the proxy
    as it was. *)
Definition arrive (self : Kernel.ProxyComms) (a : Kernel.Arrival)
  : Kernel.ProxyComms :=
  let handled := match fst a with
                 | Kernel.Iopub => Kernel.on_iopub_message self (snd a)
                 | Kernel.Shell => Kernel.on_shell_message self (snd a)
                 end in
  match snd handled with
  | inr self' => self'
  | inl _ => self
  end.

Definition arrive_all (self : Kernel.ProxyComms) (l : list Kernel.Arrival)
  : Kernel.ProxyComms :=
  fold_left arrive l self.

(** What the session has sent while the arrivals [l] were handled. *)
Fixpoint sent_during (self : Kernel.ProxyComms) (l : list Kernel.Arrival)
  : list Kernel.Event :=
  match l with
  | [] => []
  | a :: l' =>
      fst (match fst a with
           | Kernel.Iopub => Kernel.on_iopub_message self (snd a)
           | Kernel.Shell => Kernel.on_shell_message self (snd a)
           end)
      ++ sent_during (arrive self a) l'
  end.

Definition on_channel (which : Kernel.ChannelName) (a : Kernel.Arrival) : bool :=
  match which, fst a with
  | Kernel.Iopub, Kernel.Iopub | Kernel.Shell, Kernel.Shell => true
  | _, _ => false
  end.

(** The status event by which the engine announces it is idle, and the
    reply to an execution request with the payload [payload]. *)
Definition idle_status : Kernel.Msg :=
  {| Kernel.msg_type := "status";
     Kernel.content := PyDict [("execution_state", PyStr "idle")];
     Kernel.metadata := PyDict [] |}.

Definition execute_reply (payload : pyval) : Kernel.Msg :=
  {| Kernel.msg_type := "execute_reply";
     Kernel.content := payload;
     Kernel.metadata := PyDict [] |}.

(** A send of an outbound execution request to the stream [s]. *)
Definition is_execute_request_to (s : Kernel.Sink) (ev : Kernel.Event) : Prop :=
  exists content parent metadata,
    ev = Kernel.Send s "execute_request" content parent metadata.

(** The kernel's state after the events [evs]. *)
Definition kernel_after (st : Kernel.State) (evs : list Kernel.Event)
  : Kernel.State :=
  Kernel.set_trace (fun tr => tr ++ evs) st.

(** A statement leaves a part of the state as it found it. *)
Definition preserves {S X A : Type} (part : S -> X) (c : M S A) : Prop :=
  forall st o st', c st = (o, st') -> part st' = part st.

(** The number of engines started in a trace. *)
Definition spawns (tr : list Kernel.Event) : nat :=
  length (List.filter (fun ev => match ev with
                                 | Kernel.StartKernel _ _ => true
                                 | _ => false
                                 end) tr).

(** [ensure] called [n] times in a row for one name: the handles returned. *)
Fixpoint ensure_times (env : Kernel.Env) (name : string) (n : nat)
  : M Kernel.State (list (string * nat)) :=
  match n with
  | O => ret []
  | S n' =>
      handle ← Kernel.ensure env name;
      handles ← ensure_times env name n';
      ret (handle :: handles)
  end.

(** Every cached handle has its client in the store. *)
Definition clients_known (st : Kernel.State) : Prop :=
  forall name km kc,
    Kernel._kernels st !! name = Some (km, kc) ->
    is_Some (Kernel.clients st !! kc).

(** What the caller can observe of the proxy at [proxy]. *)
Definition observed (st : Kernel.State) (proxy : nat) : pyval :=
  match Kernel.proxies st !! proxy with
  | Some self => Kernel.reply_content self
  | None => PyNone
  end.

(** The abort condition of the dispatcher: the request was not silent, the
    status of the reply is "error" and the stop-on-error flag is set. *)
Definition must_abort (silent stop_on_error reply : pyval) : bool :=
  negb (truthy silent)
  && match getitem reply "status" with
     | inr status => eq_str status "error"
     | inl _ => false
     end
  && truthy stop_on_error.

(** What the [except RuntimeError] clause of [spawn_kernel] does with the
    exception [e] raised in state [st]: the kernel is shut down and the
    exception raised again (or the one of the shut-down, if it raises);
    an exception of another class passes through. *)
Definition teardown (env : Kernel.Env) (km : string) (e : exn) (st : Kernel.State)
  : outcome (string * nat) * Kernel.State :=
  if isinstance e RuntimeError then
    (Raised (default e (Kernel.shutdown_kernel env km (Kernel.trace st))),
     kernel_after st [Kernel.ShutdownKernel km])
  else (Raised e, st).

(** The engines of a state: the cache of handles and the clients with
    their channels. *)
Definition engines (st : Kernel.State)
  : gmap string (string * nat) * gmap nat Kernel.HydraKernelClient :=
  (Kernel._kernels st, Kernel.clients st).

(** An event other than the abort of the caller's queue. *)
Definition not_abort (ev : Kernel.Event) : Prop := ev <> Kernel.AbortQueues.

(** The state in which the wait of [route] begins: the proxy is in the
    store, the request is sent, what arrived in between is delivered and
    the two handlers are piped. *)
Definition subscribed (sched : Kernel.Schedule) (parent : Kernel.Request)
    (kc : nat) (st : Kernel.State) : Kernel.State :=
  let proxy := Kernel.fresh_place (Kernel.proxies st) in
  let st1 := Kernel.set_proxies
               (insert proxy (Kernel.new_ProxyComms parent Kernel.IopubSocket
                                (Kernel.shell_streams st))) st in
  let st2 := kernel_after st1
               [Kernel.ChannelSend kc "execute_request" (Kernel.request_content parent)] in
  let st3 := Kernel.deliver_all kc (Kernel.before_pipes sched) st2 in
  let st4 := snd (Kernel.update_channel kc Kernel.Iopub
                    (fun ch => Kernel.pipe ch (Kernel.OnIopubMessage proxy)) st3) in
  snd (Kernel.update_channel kc Kernel.Shell
         (fun ch => Kernel.pipe ch (Kernel.OnShellMessage proxy)) st4).

(** The state in which [route] ends, from the one in which its wait ended:
    the broadcast channel is flushed and both channels are unpiped. *)
Definition unsubscribed (sched : Kernel.Schedule) (kc : nat) (st : Kernel.State)
  : Kernel.State :=
  let st1 := Kernel.deliver_all kc (Kernel.on_flush sched)
               (kernel_after st [Kernel.Flush kc]) in
  let st2 := snd (Kernel.update_channel kc Kernel.Iopub Kernel.unpipe st1) in
  snd (Kernel.update_channel kc Kernel.Shell Kernel.unpipe st2).

(** Whether a trace holds an abort of the caller's queue. *)
Definition aborts (tr : list Kernel.Event) : bool :=
  existsb (fun ev => match ev with Kernel.AbortQueues => true | _ => false end) tr.

(** An event other than the start of an engine. *)
Definition not_spawn (ev : Kernel.Event) : Prop :=
  match ev with Kernel.StartKernel _ _ => False | _ => True end.

(** The dispatcher serving requests one after the other: a request that
    raises is answered with the error and the next one is served; behind a
    request that never returns nothing is served any more. *)
Fixpoint dispatch_all (env : Kernel.Env)
    (requests : list (Kernel.Schedule * Kernel.Request)) (st : Kernel.State)
  : Kernel.State :=
  match requests with
  | [] => st
  | (sched, parent) :: requests' =>
      match Kernel.execute_request env sched parent st with
      | (Blocked, st') => st'
      | (_, st') => dispatch_all env requests' st'
      end
  end.

(** Every request of the list carries the routing tag [name]. *)
Definition tagged (name : string)
    (requests : list (Kernel.Schedule * Kernel.Request)) : Prop :=
  Forall (fun r => Kernel.binding_name r.2 = Some name) requests.

(** ** Scenarios

    Concrete hosts, environments and states on which the statements below
    are exercised. *)

Module Scenario.

Import Manager.

(** [needle in haystack] for two str. *)
Fixpoint contains (needle haystack : string) : bool :=
  String.prefix needle haystack ||
  match haystack with
  | String _ rest => contains needle rest
  | EmptyString => false
  end.

(** A host on which the connection file never appears; a pass of the loop
    takes a tenth of a second; the launched process is in state [status]. *)
Definition silent_host (status : option Z) : Agent.Host :=
  {| Agent.jupyter_runtime_dir := "/run/jupyter";
     Agent.popen := fun _ => inr 4242%N;
     Agent.start := 0%Q;
     Agent.path_exists := fun _ => false;
     Agent.perf_counter := fun k => (Z.of_nat (S k) # 10)%Q;
     Agent.poll := fun _ => status;
     Agent.read_file := fun _ => inl (Exn FileNotFoundError "kernel-k1.json") |}.

(** A str between double quotes. *)
Definition quoted (s : string) : string :=
  String dquote (s +:+ String dquote EmptyString).

(** The text of a connection file, and a document that holds a process id
    and that connection. *)
Definition descriptor_text : string :=
  "{" +:+ quoted "shell_port" +:+ ": 5001, " +:+ quoted "key" +:+ ": "
      +:+ quoted "k" +:+ "}".

Definition structured_text : string :=
  "{" +:+ quoted "pid" +:+ ": 4242, " +:+ quoted "connection" +:+ ": "
      +:+ descriptor_text +:+ "}".

(** A host on which the connection file is there at the sixth pass. *)
Definition ready_host : Agent.Host :=
  {| Agent.jupyter_runtime_dir := "/run/jupyter";
     Agent.popen := fun _ => inr 4242%N;
     Agent.start := 0%Q;
     Agent.path_exists := fun k => (5 <=? k)%nat;
     Agent.perf_counter := fun k => (Z.of_nat (S k) # 10)%Q;
     Agent.poll := fun _ => None;
     Agent.read_file := fun _ => inr descriptor_text |}.

(** [hydra_agent.py --id k1 --kernel python3], with or without [--timeout]. *)
Definition agent_argv (timeout : option string) : Agent.CommandLine :=
  {| Agent.opt_id := "k1"; Agent.opt_kernel := "python3";
     Agent.opt_timeout := timeout;
     Agent.opt_launcher := None; Agent.opt_log_file := None |}.

(** The connection that was loaded last, [None] when none was. *)
Fixpoint loaded (tr : list Event) : pyval :=
  match tr with
  | [] => PyNone
  | ev :: tr' =>
      match loaded tr', ev with
      | PyNone, LoadConnectionInfo info => info
      | info, _ => info
      end
  end.

(** What [get_connection_info] reports once a connection is loaded into a
    new manager: the transport, the address and the five ports, those the
    connection does not name being as they were. *)
Definition reported (tr : list Event) : pyval :=
  let field name default :=
    (name, match loaded tr with
           | PyDict info => dict_get info name default
           | _ => default
           end) in
  PyDict [field "transport" (PyStr "tcp"); field "ip" (PyStr "127.0.0.1");
          field "shell_port" (PyInt 0); field "iopub_port" (PyInt 0);
          field "stdin_port" (PyInt 0); field "hb_port" (PyInt 0);
          field "control_port" (PyInt 0)].

Definition local_binding : Binding :=
  {| name := "node1"; kernel := "python3"; is_loopback := true;
     user := None; host := None; ssh_private_key_file := None |}.

Definition manager_k1 : HydraKernelManager :=
  {| id := "k1"; kernel_name := "python3"; tunnel := true;
     _binding := Some local_binding; _kernel_spec := false |}.

Definition manager_state : Manager.State :=
  {| self := manager_k1; trace := [] |}.

(** The remote command prints [stdout]; the kernel spec is there at every
    lookup, or at none, whatever is installed; no tunnel can be made. *)
Definition agent_env (found : bool) (stdout : string) : Manager.Env :=
  {| get_kernel_spec := fun name _ =>
       if found then None else Some (Exn NoSuchKernel name);
     install_kernel_spec := fun _ _ => None;
     exec := fun _ _ => inr (0%Z, stdout, "");
     decoder := Json.default_decoder 64;
     load_connection_info := fun _ _ => None;
     get_connection_info := reported;
     tunnel_to_kernel := fun _ _ _ _ => inl (Exn OSError "no tunnel");
     super_pre_start_kernel := fun _ => None;
     super_pre_start_kernel_rest := fun _ => None |}.

(** A dispatcher that has served nothing yet, with one control stream. *)
Definition empty_kernel : Kernel.State :=
  {| Kernel.trace := []; Kernel._kernels := ∅; Kernel.clients := ∅;
     Kernel.proxies := ∅; Kernel.shell_streams := [Kernel.ShellStream 0] |}.

(** The binding manager knows every name; engines start; starting the
    channels of a client answers [channels]. *)
Definition kernel_env (channels : option exn) : Kernel.Env :=
  {| Kernel.binding_manager_get := fun _ _ => inr local_binding;
     Kernel.start_kernel := fun _ _ _ => inr "kernel-1";
     Kernel.client := fun _ _ => None;
     Kernel.start_channels := fun _ _ => channels;
     Kernel.shutdown_kernel := fun _ _ => None;
     Kernel.super_execute_request := fun _ _ => None |}.

(** A state on which one request served by a cached engine shows what
    [unpipe] removes: the channels of the client still hold the handlers of
    an earlier proxy, which never completed. *)
Definition stale_kernel : Kernel.State :=
  {| Kernel.trace := [];
     Kernel._kernels := {[ "node1" := ("kernel-1", 0%nat) ]};
     Kernel.clients :=
       {[ 0%nat := {| Kernel.shell_channel :=
                        {| Kernel._pipes := [Kernel.OnShellMessage 7] |};
                      Kernel.iopub_channel :=
                        {| Kernel._pipes := [Kernel.OnIopubMessage 7] |} |} ]};
     Kernel.proxies :=
       {[ 7%nat := Kernel.new_ProxyComms
                     {| Kernel.msg_id := "m0"; Kernel.binding_name := Some "node1";
                        Kernel.request_content := [("silent", PyBool false)] |}
                     Kernel.IopubSocket [Kernel.ShellStream 0] ]};
     Kernel.shell_streams := [Kernel.ShellStream 0] |}.

(** A request for the engine of [node1], and arrivals that complete it with
    the reply [payload]. *)
Definition request_node1 (content : dict) : Kernel.Request :=
  {| Kernel.msg_id := "m1"; Kernel.binding_name := Some "node1";
     Kernel.request_content := content |}.

Definition completing (payload : pyval) : Kernel.Schedule :=
  {| Kernel.before_pipes := [];
     Kernel.while_waiting :=
       [[(Kernel.Shell, execute_reply payload)]; [(Kernel.Iopub, idle_status)]];
     Kernel.on_flush := [] |}.

(** Replies with status "error" and "ok". *)
Definition error_reply : pyval := PyDict [("status", PyStr "error")].

Definition ok_reply : pyval := PyDict [("status", PyStr "ok")].

(** Schedules in which the idle status and the reply arrive in either
    order while the dispatcher waits. *)
Definition idle_then_reply (payload : pyval) : Kernel.Schedule :=
  {| Kernel.before_pipes := [];
     Kernel.while_waiting :=
       [[(Kernel.Iopub, idle_status)]; [(Kernel.Shell, execute_reply payload)]];
     Kernel.on_flush := [] |}.

Definition reply_then_idle (payload : pyval) : Kernel.Schedule :=
  {| Kernel.before_pipes := [];
     Kernel.while_waiting :=
       [[(Kernel.Shell, execute_reply payload)]; [(Kernel.Iopub, idle_status)]];
     Kernel.on_flush := [] |}.

End Scenario.

(** ** Further vocabulary *)

(** The host [h] with the launched process in the states [p]. *)
Definition with_poll (h : Agent.Host) (p : nat -> option Z) : Agent.Host :=
  {| Agent.jupyter_runtime_dir := Agent.jupyter_runtime_dir h;
     Agent.popen := Agent.popen h; Agent.start := Agent.start h;
     Agent.path_exists := Agent.path_exists h;
     Agent.perf_counter := Agent.perf_counter h;
     Agent.poll := p;
     Agent.read_file := Agent.read_file h |}.

(** The directory part that [os.path.join] puts before a relative name. *)
Definition directory_prefix (dir : string) : string :=
  if String.eqb dir "" then ""
  else if String.eqb (substring (String.length dir - 1) 1 dir) "/" then dir
  else dir +:+ "/".

(** The command that [pre_start_kernel] runs on the remote side, and the
    server that it tunnels through. *)
Definition spawn_command (km : Manager.HydraKernelManager) : string :=
  "hydra spawn " +:+ Manager.quote (Manager.id km) +:+ " "
  +:+ Manager.quote (Manager.kernel_name km).

Definition sshserver (b : Manager.Binding) : string :=
  Manager.format_opt (Manager.user b) +:+ "@" +:+ Manager.format_opt (Manager.host b).

(** Whether the manager [km] reaches the target [b] through a tunnel. *)
Definition tunnelled (km : Manager.HydraKernelManager) (b : Manager.Binding) : bool :=
  Manager.tunnel km && negb (Manager.is_loopback b).

(** An install of a kernel spec. *)
Definition is_install (ev : Manager.Event) : bool :=
  match ev with Manager.InstallKernelSpec _ => true | _ => false end.


(** The environment [env] in which every remote command, whatever it
    printed, has ended with the exit status [code] and the error output
    [stderr]. *)
Definition with_exit (env : Manager.Env) (code : Z) (stderr : string) : Manager.Env :=
  {| Manager.get_kernel_spec := Manager.get_kernel_spec env;
     Manager.install_kernel_spec := Manager.install_kernel_spec env;
     Manager.exec := fun command tr =>
       match Manager.exec env command tr with
       | inl e => inl e
       | inr (_, stdout, _) => inr (code, stdout, stderr)
       end;
     Manager.decoder := Manager.decoder env;
     Manager.load_connection_info := Manager.load_connection_info env;
     Manager.get_connection_info := Manager.get_connection_info env;
     Manager.tunnel_to_kernel := Manager.tunnel_to_kernel env;
     Manager.super_pre_start_kernel := Manager.super_pre_start_kernel env;
     Manager.super_pre_start_kernel_rest := Manager.super_pre_start_kernel_rest env |}.

(** A target that is reached through a tunnel, a manager bound to it, and
    an environment in which the tunnel is established. *)
Definition remote_binding : Manager.Binding :=
  {| Manager.name := "node2"; Manager.kernel := "python3";
     Manager.is_loopback := false;
     Manager.user := Some "cc"; Manager.host := Some "10.0.0.5";
     Manager.ssh_private_key_file := Some "/home/cc/.ssh/id_rsa" |}.

Definition remote_state : Manager.State :=
  {| Manager.self :=
       {| Manager.id := "k2"; Manager.kernel_name := "python3";
          Manager.tunnel := true; Manager._binding := Some remote_binding;
          Manager._kernel_spec := false |};
     Manager.trace := [] |}.

(** Whether a kernel spec has been installed in the calls [tr]. *)
Definition installed (tr : list Manager.Event) : bool := existsb is_install tr.

(** The kernel spec is there from the start when [found], and once it has
    been installed otherwise. *)
Definition tunnel_env (found : bool) : Manager.Env :=
  {| Manager.get_kernel_spec := fun name tr =>
       if found || installed tr then None else Some (Exn NoSuchKernel name);
     Manager.install_kernel_spec := fun _ _ => None;
     Manager.exec := fun _ _ => inr (0%Z, Scenario.structured_text, "");
     Manager.decoder := Json.default_decoder 64;
     Manager.load_connection_info := fun _ _ => None;
     Manager.get_connection_info := Scenario.reported;
     Manager.tunnel_to_kernel := fun _ _ _ _ =>
       inr {| Manager.shell_port := 6001; Manager.iopub_port := 6002;
              Manager.stdin_port := 6003; Manager.hb_port := 6004;
              Manager.control_port := 6005 |};
     Manager.super_pre_start_kernel := fun _ => None;
     Manager.super_pre_start_kernel_rest := fun _ => None |}.

(** ** The comm of the front end ([HydraKernel.register_banana],
    [on_binding_change] and [on_comm_msg]) *)

Module Comms.

Import Manager.

(** What leaves the kernel on this side: the messages sent on a comm, and
    the listing of the bindings. *)
Inductive Event : Type :=
| CommSend (comm : nat) (data : pyval)
| BindingManagerList.

(** [Binding.as_dict] and [BindingManager.list] are not among the sources:
    the first is a function of the binding, the second answers from the
    calls made so far, as does [Comm.send] ([None]: the call returns). *)
Record Env : Type := {
  as_dict : Binding -> pyval;
  binding_manager_list : list Event -> list Binding;
  comm_send : nat -> pyval -> list Event -> option exn
}.

(** [_comm] is the comm the kernel holds, [None] until one is registered
    (a comm object is true, so [if self._comm] tests for [None]).  A comm
    is known by its place; [listening] holds the comms whose message
    callback, set by [Comm.on_msg], is the kernel's [on_comm_msg]. *)
Record State : Type := {
  trace : list Event;
  _comm : option nat;
  listening : gset nat
}.

Definition set_comm (c : option nat) (st : State) : State :=
  {| trace := trace st; _comm := c; listening := listening st |}.

Definition set_listening (f : gset nat -> gset nat) (st : State) : State :=
  {| trace := trace st; _comm := _comm st; listening := f (listening st) |}.

(** An outside call: recorded, then answered from the trace before it. *)
Definition call {A} (ev : Event) (answer : list Event -> Exc A) : M State A :=
  fun st =>
    let st' := {| trace := trace st ++ [ev]; _comm := _comm st;
                  listening := listening st |} in
    match answer (trace st) with
    | inl e => (Raised e, st')
    | inr a => (Returned a, st')
    end.

Definition unit_answer (r : option exn) : Exc unit :=
  match r with Some e => inl e | None => inr tt end.

(** [Comm.on_msg(callback)], for the two callbacks the kernel ever sets:
    [None] and its own [on_comm_msg]. *)
Definition on_msg (comm : nat) (callback : bool) : M State unit :=
  modify (set_listening (fun s => if callback then {[comm]} ∪ s else s ∖ {[comm]})).

Definition register_banana (comm : nat) (message : pyval) : M State unit :=
  st ← get;
  match _comm st with
  | Some old => on_msg old false
  | None => ret tt
  end;;
  modify (set_comm (Some comm));;
  on_msg comm true.

(** [v.get(k, default)]: a method of dicts only. *)
Definition get_method (v : pyval) (k : string) (default : pyval) : Exc pyval :=
  match v with
  | PyDict d => inr (dict_get d k default)
  | _ => inl (Exn AttributeError "object has no attribute 'get'")
  end.

Section WithEnv.

Variable env : Env.

Definition on_binding_change (binding : Binding) (change : pyval) : M State unit :=
  st ← get;
  match _comm st with
  | Some comm =>
      let data := PyDict [("event", PyStr "binding_update");
                          ("binding", as_dict env binding)] in
      call (CommSend comm data) (fun tr => unit_answer (comm_send env comm data tr))
  | None => ret tt
  end.

Definition on_comm_msg (message : dict) : M State unit :=
  payload ← lift (get_method (dict_get message "content" (PyDict [])) "data" (PyDict []));
  event ← lift (getitem payload "event");
  if eq_str event "binding_list_request" then
    st ← get;
    match _comm st with
    | Some comm =>
        bindings ← call BindingManagerList (fun tr => inr (binding_manager_list env tr));
        let data := PyDict [("event", PyStr "binding_list_reply");
                            ("bindings", PyList (map (as_dict env) bindings))] in
        call (CommSend comm data) (fun tr => unit_answer (comm_send env comm data tr))
    | None => ret tt
    end
  else ret tt.

(** [Comm.handle_msg]: a message that arrives on a comm is handed to the
    callback that [on_msg] has set, if any. *)
Definition handle_msg (comm : nat) (message : dict) : M State unit :=
  st ← get;
  if bool_decide (comm ∈ listening st) then on_comm_msg message else ret tt.

(** What reaches the kernel on this side: the front end opens a comm for
    the target [banana], the binding manager reports a change, a message
    arrives on a comm. *)
Inductive Action : Type :=
| CommOpen (comm : nat) (message : pyval)
| BindingChange (binding : Binding) (change : pyval)
| CommMsg (comm : nat) (message : dict).

Definition dispatch (a : Action) : M State unit :=
  match a with
  | CommOpen comm message => register_banana comm message
  | BindingChange binding change => on_binding_change binding change
  | CommMsg comm message => handle_msg comm message
  end.

(** The callbacks run one after the other; an exception raised by one of
    them stays with its caller. *)
Definition run (actions : list Action) (st : State) : State :=
  fold_left (fun st a => snd (dispatch a st)) actions st.

End WithEnv.

(** A kernel that has been given no comm yet. *)
Definition initial : State := {| trace := []; _comm := None; listening := ∅ |}.

End Comms.

(** The comm opened last in a run of actions. *)
Fixpoint last_opened (actions : list Comms.Action) : option nat :=
  match actions with
  | [] => None
  | a :: actions' =>
      match last_opened actions', a with
      | Some c, _ => Some c
      | None, Comms.CommOpen c _ => Some c
      | None, _ => None
      end
  end.

(** The message that answers a request for the list of bindings. *)
Definition binding_list_reply (env : Comms.Env) (tr : list Comms.Event) : pyval :=
  PyDict [("event", PyStr "binding_list_reply");
          ("bindings", PyList (map (Comms.as_dict env) (Comms.binding_manager_list env tr)))].

(** The event asked for in a message on the comm, when the message has a
    content with a data dict that names one. *)
Definition requested_event (message : dict) : option pyval :=
  match dict_get message "content" (PyDict []) with
  | PyDict content =>
      match dict_get content "data" (PyDict []) with
      | PyDict data => dict_lookup data "event"
      | _ => None
      end
  | _ => None
  end.

(** Whether a message on the comm asks for the list of bindings. *)
Definition is_list_request (message : dict) : bool :=
  match requested_event message with
  | Some event => eq_str event "binding_list_request"
  | None => false
  end.

(** The state of the comm side after the events [evs]. *)
Definition comm_after (st : Comms.State) (evs : list Comms.Event) : Comms.State :=
  {| Comms.trace := Comms.trace st ++ evs; Comms._comm := Comms._comm st;
     Comms.listening := Comms.listening st |}.

(** At most one comm has the kernel's handler as its message callback: the
    one the kernel holds. *)
Definition one_listener (st : Comms.State) : Prop :=
  Comms.listening st = match Comms._comm st with Some c => {[c]} | None => ∅ end.

(** An event that is no send to another comm than [c]. *)
Definition sent_to (c : option nat) (ev : Comms.Event) : Prop :=
  match ev with
  | Comms.CommSend c' _ => c = Some c'
  | Comms.BindingManagerList => True
  end.

(** ** Vocabulary of the dispatcher's further properties *)

(** What the proxy [self] passes on to the caller for an arriving
    message. *)
Definition forwarded (self : Kernel.ProxyComms) (a : Kernel.Arrival)
  : list Kernel.Event :=
  let m := snd a in
  match fst a with
  | Kernel.Iopub =>
      [Kernel.Send (Kernel.iopub self) (Kernel.msg_type m) (Kernel.content m)
         (Kernel.parent self) (Kernel.metadata m)]
  | Kernel.Shell =>
      if String.eqb (Kernel.msg_type m) "execute_request" then []
      else map (fun s => Kernel.Send s (Kernel.msg_type m) (Kernel.content m)
                           (Kernel.parent self) (Kernel.metadata m))
               (Kernel.shells self)
  end.

(** A status on the broadcast channel that reports the engine idle. *)
Definition is_idle_status (a : Kernel.Arrival) : bool :=
  match fst a with
  | Kernel.Iopub =>
      String.eqb (Kernel.msg_type (snd a)) "status"
      && match getitem (Kernel.content (snd a)) "execution_state" with
         | inr state => eq_str state "idle"
         | inl _ => false
         end
  | Kernel.Shell => false
  end.

(** The content of the last reply to an execution request among the
    arrivals, if there is one. *)
Fixpoint last_reply (l : list Kernel.Arrival) : option pyval :=
  match l with
  | [] => None
  | a :: l' =>
      match last_reply l' with
      | Some v => Some v
      | None =>
          match fst a with
          | Kernel.Shell =>
              if String.eqb (Kernel.msg_type (snd a)) "execute_reply"
              then Some (Kernel.content (snd a)) else None
          | Kernel.Iopub => None
          end
      end
  end.

(** Whether the proxy [self] shows a reply at one of the tests of the wait
    loop, the arrivals coming in the batches [batches] between the tests. *)
Fixpoint completes (self : Kernel.ProxyComms) (batches : list (list Kernel.Arrival))
  : bool :=
  truthy (Kernel.reply_content self)
  || match batches with
     | [] => false
     | batch :: batches' => completes (arrive_all self batch) batches'
     end.

(** The engine answers at once: the reply and the idle status arrive before
    the handlers are piped, and one more idle status while the dispatcher
    waits. *)
Definition early_reply : Kernel.Schedule :=
  {| Kernel.before_pipes := [(Kernel.Shell, execute_reply Scenario.ok_reply);
                             (Kernel.Iopub, idle_status)];
     Kernel.while_waiting := [[(Kernel.Iopub, idle_status)]];
     Kernel.on_flush := [] |}.

(** A shut-down of an engine. *)
Definition is_shutdown (ev : Kernel.Event) : bool :=
  match ev with Kernel.ShutdownKernel _ => true | _ => false end.

(** Whether [km.client()] or the start of the channels raises a
    [RuntimeError] for the engine [km] started in state [st]. *)
Definition runtime_error_after_start (env : Kernel.Env) (binding : Manager.Binding)
    (km : string) (st : Kernel.State) : bool :=
  let started := Kernel.StartKernel (Manager.kernel binding) binding in
  match Kernel.client env km (Kernel.trace st ++ [started]) with
  | Some e => isinstance e RuntimeError
  | None =>
      match Kernel.start_channels env (Kernel.fresh_place (Kernel.clients st))
              (Kernel.trace st ++ [started; Kernel.Client km]) with
      | Some e => isinstance e RuntimeError
      | None => false
      end
  end.

(** The manager that the multi kernel manager hands over for the id
    [9f2c] and the target [remote_binding], before anything is started. *)
Definition prepared_state : Manager.State :=
  {| Manager.self :=
       {| Manager.id := "9f2c"; Manager.kernel_name := "python3";
          Manager.tunnel := true; Manager._binding := Some remote_binding;
          Manager._kernel_spec := false |};
     Manager.trace := [] |}.

(** A client with no handler piped on either channel. *)
Definition unpiped (client : Kernel.HydraKernelClient) : Prop :=
  Kernel._pipes (Kernel.shell_channel client) = [] /\
  Kernel._pipes (Kernel.iopub_channel client) = [].

(** A dispatcher between two requests: every cached handle has its client
    in the store and no client has a handler piped. *)
Definition quiescent (st : Kernel.State) : Prop :=
  clients_known st /\
  forall kc client, Kernel.clients st !! kc = Some client -> unpiped client.

(** The state once the handler [h] is piped onto the channel [which] of the
    client at [kc]. *)
Definition piped (kc : nat) (which : Kernel.ChannelName) (h : Kernel.Handler)
    (st : Kernel.State) : Kernel.State :=
  (Kernel.update_channel kc which (fun ch => Kernel.pipe ch h) st).2.

(** * Properties *)

(** ** The bootstrap agent *)

Lemma timeout_msg_fixed (h : Agent.Host) (args : Agent.Args) (k : nat) :
  Agent.timeout_msg h args k =
  if Agent.log_to_file args
  then "Failed to find connection file, did the kernel fail to start?"
       +:+ " See " +:+ Agent.log_file h args +:+ " for details."
  else "Failed to find connection file, did the kernel fail to start?".
Proof. reflexivity. Qed.

(** Whatever the loop raises is either the [TypeError] of the comparison or
    a [TimeoutError] carrying the fixed message. *)
Lemma poll_loop_raises (h : Agent.Host) (args : Agent.Args) (fuel k : nat) (e : exn) :
  Agent.poll_loop h args fuel k = Some (inl e) ->
  exc e = TypeError \/
  exists j, e = Exn TimeoutError (Agent.timeout_msg h args j).
Proof.
  revert k. induction fuel as [|fuel IH]; intros k; simpl; [discriminate|].
  destruct (Agent.path_exists h k); [discriminate|].
  destruct (Agent.elapsed_gt _ _) as [e'|[|]] eqn:Hcmp.
  - intros [= <-]. left.
    unfold Agent.elapsed_gt in Hcmp. destruct (Agent.timeout args); [discriminate|].
    by injection Hcmp as <-.
  - intros [= <-]. right. by exists k.
  - apply IH.
Qed.

(** With a number for a timeout the loop behaves as a deadline: while the
    file is absent and the clock is within the timeout it keeps polling, and
    the first pass that finds the clock beyond it raises [TimeoutError]. *)
Lemma poll_loop_deadline (h : Agent.Host) (args : Agent.Args) (n : Z) (k fuel : nat) :
  Agent.timeout args = Agent.TimeoutInt n ->
  (forall j, (j <= k)%nat -> Agent.path_exists h j = false) ->
  (forall j, (j < k)%nat -> (Agent.perf_counter h j - Agent.start h <= inject_Z n)%Q) ->
  (inject_Z n < Agent.perf_counter h k - Agent.start h)%Q ->
  Agent.poll_loop h args (S k + fuel) 0 =
  Some (inl (Exn TimeoutError (Agent.timeout_msg h args k))).
Proof.
  intros Ht Habsent Hwithin Hpast.
  assert (Hgen : forall i m, (i + m = k)%nat ->
            Agent.poll_loop h args (S m + fuel) i =
            Some (inl (Exn TimeoutError (Agent.timeout_msg h args k)))).
  { intros i m. revert i. induction m as [|m IH]; intros i Him.
    - assert (i = k) as -> by lia. simpl.
      rewrite Habsent by lia. rewrite Ht. simpl.
      destruct (Qle_bool _ _) eqn:Hle; [|done].
      apply Qle_bool_iff in Hle. exfalso. revert Hle Hpast. apply Qle_not_lt.
    - change (S (S m) + fuel)%nat with (S (S m + fuel)).
      cbn [Agent.poll_loop].
      rewrite Habsent by lia. rewrite Ht. cbn [Agent.elapsed_gt].
      assert (Hle : Qle_bool (Agent.perf_counter h i - Agent.start h) (inject_Z n) = true).
      { apply Qle_bool_iff, Hwithin. lia. }
      rewrite Hle. cbn [negb]. apply IH. lia. }
  apply (Hgen 0%nat k). lia.
Qed.

(** A run that fails in the loop with [TimeoutError] carries the fixed
    message, which is made of the arguments and the runtime directory
    only. *)
Lemma main_timeout_message (h : Agent.Host) (argv : Agent.CommandLine)
    (pid : N) (fuel : nat) (e : exn) :
  Agent.popen h (Agent.cmd_str h (Agent.parse_args argv)) = inr pid ->
  Agent.main h argv fuel = Agent.Failed "" e ->
  exc e = TimeoutError ->
  exists k, exc_msg e = Agent.timeout_msg h (Agent.parse_args argv) k.
Proof.
  intros Hpopen. unfold Agent.main. rewrite Hpopen.
  destruct (Agent.poll_loop _ _ _ _) as [[e'|[]]|] eqn:Hloop.
  - intros [= <-] Hexc. apply poll_loop_raises in Hloop as [Hty|[j ->]].
    + congruence.
    + by exists j.
  - destruct (Agent.read_file _ _); [|discriminate].
    unfold Agent.print. destruct (str_of_N pid); discriminate.
  - discriminate.
Qed.

(** C3 (the code falls short of it): a launched process that has exited
    with status 3, its connection file never written, should make the
    bootstrap fail with an error that reports the status 3.  The agent
    instead keeps polling until the timeout has elapsed (after a hundred
    passes of a tenth of a second it is still polling) and then raises a
    [TimeoutError] whose message is the fixed one: the text built from the
    status is overwritten before it is used, for any host and any status. *)
Theorem C3_exit_status_is_not_reported :
  Agent.main (Scenario.silent_host (Some 3%Z)) (Scenario.agent_argv None) 100
    = Agent.StillPolling /\
  Agent.main (Scenario.silent_host (Some 3%Z)) (Scenario.agent_argv None) 101
    = Agent.Failed ""
        (Exn TimeoutError
           "Failed to find connection file, did the kernel fail to start? See /run/jupyter/kernel-k1.log for details.") /\
  Scenario.contains "3"
    "Failed to find connection file, did the kernel fail to start? See /run/jupyter/kernel-k1.log for details."
    = false /\
  (forall (h : Agent.Host) (args : Agent.Args) (k : nat) (status : option Z),
     Agent.timeout_msg h args k =
     Agent.timeout_msg
       {| Agent.jupyter_runtime_dir := Agent.jupyter_runtime_dir h;
          Agent.popen := Agent.popen h; Agent.start := Agent.start h;
          Agent.path_exists := Agent.path_exists h;
          Agent.perf_counter := Agent.perf_counter h;
          Agent.poll := fun _ => status;
          Agent.read_file := Agent.read_file h |} args k).
Proof.
  split; [by vm_compute|]. split; [by vm_compute|]. split; [by vm_compute|].
  intros h args k status. reflexivity.
Qed.

(** A timeout given on the command line is a str, and the first pass that
    does not find the connection file fails on comparing the clock with
    it. *)
Lemma given_timeout_raises_TypeError (h : Agent.Host) (argv : Agent.CommandLine)
    (s : string) (pid : N) (fuel : nat) :
  Agent.opt_timeout argv = Some s ->
  Agent.popen h (Agent.cmd_str h (Agent.parse_args argv)) = inr pid ->
  Agent.path_exists h 0 = false ->
  Agent.main h argv (S fuel) =
  Agent.Failed ""
    (Exn TypeError "'>' not supported between instances of 'float' and 'str'").
Proof.
  intros Ht Hpopen Habsent. unfold Agent.main. rewrite Hpopen.
  cbn [Agent.poll_loop]. rewrite Habsent.
  assert (Agent.timeout (Agent.parse_args argv) = Agent.TimeoutStr s) as ->.
  { unfold Agent.parse_args. cbn [Agent.timeout]. by rewrite Ht. }
  reflexivity.
Qed.

(** With the default timeout the failure is the one the specification
    describes: a [TimeoutError] at the first pass past ten seconds, whose
    message names the log file when logging to a file was asked for. *)
Lemma default_timeout_raises_TimeoutError (h : Agent.Host)
    (argv : Agent.CommandLine) (pid : N) (k fuel : nat) :
  Agent.opt_timeout argv = None ->
  Agent.popen h (Agent.cmd_str h (Agent.parse_args argv)) = inr pid ->
  (forall j, (j <= k)%nat -> Agent.path_exists h j = false) ->
  (forall j, (j < k)%nat -> (Agent.perf_counter h j - Agent.start h <= 10)%Q) ->
  (10 < Agent.perf_counter h k - Agent.start h)%Q ->
  Agent.main h argv (S k + fuel) =
  Agent.Failed ""
    (Exn TimeoutError
       (if Agent.log_to_file (Agent.parse_args argv)
        then "Failed to find connection file, did the kernel fail to start?"
             +:+ " See " +:+ Agent.log_file h (Agent.parse_args argv) +:+ " for details."
        else "Failed to find connection file, did the kernel fail to start?")).
Proof.
  intros Ht Hpopen Habsent Hwithin Hpast. unfold Agent.main. rewrite Hpopen.
  rewrite (poll_loop_deadline h (Agent.parse_args argv) 10 k fuel); try done.
  unfold Agent.parse_args. cbn [Agent.timeout]. by rewrite Ht.
Qed.

(** C8 (the code falls short of it): with a timeout supplied by the caller
    and elapsed, no connection file and the process alive, the bootstrap
    should fail with a timeout error after about the timeout.  Run with
    [--timeout 0.2] on such a host, the agent fails in its first pass, and
    with a [TypeError]: the timeout is still the str of the command line
    when the elapsed time is compared with it. *)
Theorem C8_given_timeout_is_not_a_number (fuel : nat) :
  Agent.main (Scenario.silent_host None) (Scenario.agent_argv (Some "0.2")) (S fuel)
  = Agent.Failed ""
      (Exn TypeError "'>' not supported between instances of 'float' and 'str'").
Proof. by apply (given_timeout_raises_TypeError _ _ "0.2" 4242%N). Qed.

(** The default timeout on the same host: polling for ten seconds, then the
    timeout error that names the log file. *)
Example default_timeout_on_silent_host :
  Agent.main (Scenario.silent_host None) (Scenario.agent_argv None) 100
    = Agent.StillPolling /\
  Agent.main (Scenario.silent_host None) (Scenario.agent_argv None) 101
    = Agent.Failed ""
        (Exn TimeoutError
           "Failed to find connection file, did the kernel fail to start? See /run/jupyter/kernel-k1.log for details.").
Proof. split; by vm_compute. Qed.

(** A run that finds the connection file prints the process id, then the
    contents of the file. *)
Lemma main_completed (h : Agent.Host) (argv : Agent.CommandLine) (pid : N)
    (text : string) (fuel : nat) :
  Agent.popen h (Agent.cmd_str h (Agent.parse_args argv)) = inr pid ->
  Agent.poll_loop h (Agent.parse_args argv) fuel 0 = Some (inr tt) ->
  Agent.read_file h (Agent.connection_file h (Agent.parse_args argv)) = inr text ->
  Agent.main h argv fuel = Agent.Completed (Agent.spawn_output pid text).
Proof.
  intros Hpopen Hloop Hread. unfold Agent.main.
  by rewrite Hpopen, Hloop, Hread.
Qed.

Example ready_host_completes :
  Agent.main Scenario.ready_host (Scenario.agent_argv None) 10 =
  Agent.Completed
    (Agent.spawn_output 4242 Scenario.descriptor_text).
Proof. by vm_compute. Qed.

(** ** The spawn result *)

Lemma str_of_N_head (n : N) :
  exists c rest, str_of_N n = String c rest /\ Json.is_digit c = true.
Proof.
  unfold str_of_N. destruct (N.to_uint n); simpl; eauto.
Qed.

(** Text that begins with a digit is scanned as a number. *)
Lemma scan_once_digit (dec : Json.JSONDecoder) (c : ascii) (s : string) :
  Json.is_digit c = true ->
  exists v rest, Json.scan_once dec (String c s) = inr (v, rest) /\ is_number v.
Proof.
  intros Hd.
  destruct c as [[] [] [] [] [] [] [] []];
    try (vm_compute in Hd; discriminate Hd);
    unfold Json.scan_once, Json.match_number, Json.match_integer;
    cbn -[Json.span_digits Json.match_frac Json.match_exp Json.parse_int
          Json.is_digit String.append];
    try rewrite Hd;
    try destruct (Json.span_digits s) as [ds r];
    destruct (Json.match_frac _) as [[frac|] r1];
    destruct (Json.match_exp _) as [[exp|] r2];
    do 2 eexists; (split; [reflexivity|exact I]).
Qed.

(** What [json.load] makes of the agent's output: an error, or a bare
    number; never a document with fields. *)
Lemma load_spawn_output (dec : Json.JSONDecoder) (pid : N) (descriptor : string) :
  match Json.load dec (Agent.spawn_output pid descriptor) with
  | inl e => e = Exn JSONDecodeError "Extra data"
  | inr v => is_number v
  end.
Proof.
  destruct (str_of_N_head pid) as (c & rest & Hstr & Hd).
  assert (exists tail, Agent.spawn_output pid descriptor = String c tail)
    as [tail ->].
  { unfold Agent.spawn_output, Agent.print. rewrite Hstr. simpl. eauto. }
  destruct (scan_once_digit dec c tail Hd) as (v & after & Hscan & Hv).
  unfold Json.load, Json.decode, Json.raw_decode.
  assert (Hws : Json.skip_whitespace (String c tail) = String c tail).
  { cbn [Json.skip_whitespace].
    destruct c as [[] [] [] [] [] [] [] []];
      try (vm_compute in Hd; discriminate Hd); reflexivity. }
  rewrite Hws, Hscan.
  destruct (Json.skip_whitespace after); done.
Qed.

(** Neither an int nor a float can be subscripted. *)
Lemma getitem_number (v : pyval) (k : string) :
  is_number v -> exists e, getitem v k = inl e /\ exc e = TypeError.
Proof. destruct v; try done; intros _; eexists; split; reflexivity. Qed.

(** ** Statements and their traces *)

Lemma bind_run {S A B : Type} (c : M S A) (k : A -> M S B) (st : S) :
  (c ≫= k) st =
  match c st with
  | (Returned a, st') => k a st'
  | (Raised e, st') => (Raised e, st')
  | (Blocked, st') => (Blocked, st')
  end.
Proof. reflexivity. Qed.

Section Emits.

Context {S Ev : Type} (tr : S -> list Ev) (P : Ev -> Prop).

Lemma emits_ret {A} (a : A) : emits tr P (ret a).
Proof. intros st o st' [= <- <-]. exists []. by rewrite app_nil_r. Qed.

Lemma emits_raise {A} (e : exn) : emits tr P (@raise S A e).
Proof. intros st o st' [= <- <-]. exists []. by rewrite app_nil_r. Qed.

Lemma emits_get : emits tr P (@get S).
Proof. intros st o st' [= <- <-]. exists []. by rewrite app_nil_r. Qed.

Lemma emits_lift {A} (r : Exc A) : emits tr P (@lift S A r).
Proof. destruct r; [apply emits_raise | apply emits_ret]. Qed.

Lemma emits_modify (f : S -> S) :
  (forall st, exists evs, tr (f st) = tr st ++ evs /\ Forall P evs) ->
  emits tr P (modify f).
Proof. intros Hf st o st' [= <- <-]. apply Hf. Qed.

Lemma emits_bind {A B} (c : M S A) (k : A -> M S B) :
  emits tr P c -> (forall a, emits tr P (k a)) -> emits tr P (c ≫= k).
Proof.
  intros Hc Hk st o st'. rewrite bind_run.
  destruct (c st) as [[a|e|] st1] eqn:Hrun;
    destruct (Hc _ _ _ Hrun) as (evs1 & Htr1 & HP1).
  - intros Hrun2. destruct (Hk a _ _ _ Hrun2) as (evs2 & Htr2 & HP2).
    exists (evs1 ++ evs2). split.
    + by rewrite Htr2, Htr1, app_assoc.
    + by apply Forall_app.
  - intros [= <- <-]. eauto.
  - intros [= <- <-]. eauto.
Qed.

Lemma emits_try_except {A} (body : M S A) (cls : exc_class)
    (handler : exn -> M S A) :
  emits tr P body -> (forall e, emits tr P (handler e)) ->
  emits tr P (try_except body cls handler).
Proof.
  intros Hb Hh st o st'. unfold try_except.
  destruct (body st) as [[a|e|] st1] eqn:Hrun;
    destruct (Hb _ _ _ Hrun) as (evs1 & Htr1 & HP1).
  - intros [= <- <-]. eauto.
  - destruct (isinstance e cls).
    + intros Hrun2. destruct (Hh e _ _ _ Hrun2) as (evs2 & Htr2 & HP2).
      exists (evs1 ++ evs2). split.
      * by rewrite Htr2, Htr1, app_assoc.
      * by apply Forall_app.
    + intros [= <- <-]. eauto.
  - intros [= <- <-]. eauto.
Qed.

Lemma emits_for_each {A} (l : list A) (body : A -> M S unit) :
  (forall x, emits tr P (body x)) -> emits tr P (for_each l body).
Proof.
  intros Hbody. induction l as [|x l IH]; simpl.
  - apply emits_ret.
  - apply (emits_bind (body x)); [apply Hbody | intros _; apply IH].
Qed.

End Emits.

(** ** Statements and the parts of the state they leave alone *)

Lemma bind_Returned_inv {S A B : Type} (c : M S A) (k : A -> M S B)
    (st st' : S) (b : B) :
  (c ≫= k) st = (Returned b, st') ->
  exists a st1, c st = (Returned a, st1) /\ k a st1 = (Returned b, st').
Proof.
  rewrite bind_run. destruct (c st) as [[a|e|] st1]; [eauto|done|done].
Qed.

Section Preserves.

Context {S X : Type} (part : S -> X).

Lemma preserves_ret {A} (a : A) : preserves part (@ret S A a).
Proof. by intros st o st' [= <- <-]. Qed.

Lemma preserves_raise {A} (e : exn) : preserves part (@raise S A e).
Proof. by intros st o st' [= <- <-]. Qed.

Lemma preserves_get : preserves part (@get S).
Proof. by intros st o st' [= <- <-]. Qed.


Lemma preserves_modify (f : S -> S) :
  (forall st, part (f st) = part st) -> preserves part (modify f).
Proof. intros Hf st o st' [= <- <-]. apply Hf. Qed.

Lemma preserves_bind {A B} (c : M S A) (k : A -> M S B) :
  preserves part c -> (forall a, preserves part (k a)) ->
  preserves part (c ≫= k).
Proof.
  intros Hc Hk st o st'. rewrite bind_run.
  destruct (c st) as [[a|e|] st1] eqn:Hrun; pose proof (Hc _ _ _ Hrun) as H1.
  - intros Hrun2. by rewrite (Hk a _ _ _ Hrun2).
  - by intros [= <- <-].
  - by intros [= <- <-].
Qed.

Lemma preserves_try_except {A} (body : M S A) (cls : exc_class)
    (handler : exn -> M S A) :
  preserves part body -> (forall e, preserves part (handler e)) ->
  preserves part (try_except body cls handler).
Proof.
  intros Hb Hh st o st'. unfold try_except.
  destruct (body st) as [[a|e|] st1] eqn:Hrun; pose proof (Hb _ _ _ Hrun) as H1.
  - by intros [= <- <-].
  - destruct (isinstance e cls).
    + intros Hrun2. by rewrite (Hh e _ _ _ Hrun2).
    + by intros [= <- <-].
  - by intros [= <- <-].
Qed.

Lemma preserves_for_each {A} (l : list A) (body : A -> M S unit) :
  (forall x, preserves part (body x)) -> preserves part (for_each l body).
Proof.
  intros Hbody. induction l as [|x l IH]; simpl.
  - apply preserves_ret.
  - apply (preserves_bind (body x)); [apply Hbody | intros _; apply IH].
Qed.

End Preserves.

(** ** The kernel manager *)

Section ManagerFacts.

Import Manager.

Variable env : Manager.Env.

Lemma manager_call_run {A} (ev : Event) (answer : list Event -> Exc A) (st : State) :
  Manager.call ev answer st =
  (match answer (trace st) with inl e => Raised e | inr a => Returned a end,
   manager_after st [ev]).
Proof. unfold Manager.call, manager_after. by destruct (answer _). Qed.

(** The lookup-or-install step, case by case. *)
Lemma lookup_or_install_run (km : HydraKernelManager) (st : State) :
  lookup_or_install env km st =
  let name := kernel_name km in
  match get_kernel_spec env name (trace st) with
  | None => (Returned tt, manager_after st [GetKernelSpec name])
  | Some e =>
      if isinstance e NoSuchKernel then
        match install_kernel_spec env name (trace st ++ [GetKernelSpec name]) with
        | None =>
            (Returned tt, manager_after st [GetKernelSpec name; InstallKernelSpec name])
        | Some e' =>
            (Raised e', manager_after st [GetKernelSpec name; InstallKernelSpec name])
        end
      else (Raised e, manager_after st [GetKernelSpec name])
  end.
Proof.
  unfold lookup_or_install, try_except. rewrite manager_call_run.
  destruct (get_kernel_spec env _ _) as [e|]; simpl; [|done].
  destruct (isinstance e NoSuchKernel); [|done].
  rewrite manager_call_run. unfold manager_after. simpl.
  rewrite <- app_assoc. simpl.
  by destruct (install_kernel_spec env _ _).
Qed.

Lemma emits_manager_call {A} (P : Event -> Prop) (ev : Event)
    (answer : list Event -> Exc A) :
  P ev -> emits trace P (Manager.call ev answer).
Proof.
  intros HP st o st'. rewrite manager_call_run. intros [= <- <-].
  exists [ev]. split; [done | by constructor].
Qed.


(** The remote start and the tunnel neither look the kernel spec up nor
    install it, and leave the manager as it is. *)
Lemma spawn_remote_emits (km : HydraKernelManager) :
  emits trace (fun ev => is_spec_event ev = false) (spawn_remote env km).
Proof.
  unfold spawn_remote.
  apply emits_bind; [apply emits_lift | intros _].
  apply emits_bind; [by apply emits_manager_call | intros [[code stdout] stderr]].
  apply emits_bind; [apply emits_lift | intros res].
  apply emits_bind; [apply emits_lift | intros info].
  by apply emits_manager_call.
Qed.

Lemma tunnel_ports_emits (km : HydraKernelManager) :
  emits trace (fun ev => is_spec_event ev = false) (tunnel_ports env km).
Proof.
  unfold tunnel_ports.
  apply emits_bind; [apply emits_lift | intros [|]]; [|apply emits_ret].
  apply emits_bind; [apply emits_lift | intros conn].
  apply emits_bind; [by apply emits_manager_call | intros info].
  apply emits_bind; [by apply emits_manager_call | intros p].
  by apply emits_manager_call.
Qed.



(** When the remote side hands back the agent's output, the remote start
    raises: right after the command, before any connection is loaded. *)
Lemma spawn_remote_on_agent_output (km : HydraKernelManager) (st : State)
    (pid : N) (descriptor : string) :
  (forall command tr, exists code stderr,
     exec env command tr = inr (code, Agent.spawn_output pid descriptor, stderr)) ->
  exists e evs,
    spawn_remote env km st = (Raised e, manager_after st evs) /\
    Forall (fun ev => forall info, ev <> LoadConnectionInfo info) evs /\
    Forall (fun ev => is_spec_event ev = false) evs.
Proof.
  intros Hexec. unfold spawn_remote. rewrite bind_run.
  destruct (_binding km) as [b|]; simpl.
  2:{ eexists _, []. unfold manager_after. rewrite app_nil_r.
      destruct st. by repeat split. }
  rewrite bind_run, manager_call_run.
  set (command := "hydra spawn " +:+ _).
  destruct (Hexec command (trace st)) as (code & stderr & ->).
  rewrite bind_run.
  pose proof (load_spawn_output (decoder env) pid descriptor) as Hload.
  destruct (Json.load _ _) as [e|v]; simpl.
  - exists e, [Exec command]. repeat split; repeat constructor; done.
  - destruct (getitem_number v "connection" Hload) as (e & Hget & _).
    rewrite bind_run, Hget. simpl.
    exists e, [Exec command]. repeat split; repeat constructor; done.
Qed.

(** The base class's [pre_start_kernel], case by case. *)
Lemma base_pre_start_kernel_run (st : State) :
  base_pre_start_kernel env st =
  let km := self st in
  let name := kernel_name km in
  let st1 := manager_after st [SuperPreStartKernel] in
  let rest s := match super_pre_start_kernel_rest env (trace s) with
                | Some e => Raised e
                | None => Returned tt
                end in
  match super_pre_start_kernel env (trace st) with
  | Some e => (Raised e, st1)
  | None =>
      if _kernel_spec km || String.eqb name "" then (rest st1, st1)
      else
        let st2 := manager_after st1 [GetKernelSpec name] in
        match get_kernel_spec env name (trace st1) with
        | Some e => (Raised e, st2)
        | None => (rest st2, {| self := holding_spec km; trace := trace st2 |})
        end
  end.
Proof.
  unfold base_pre_start_kernel. rewrite bind_run, manager_call_run.
  destruct (super_pre_start_kernel env (trace st)) as [e|]; [done|].
  cbn [unit_answer]. rewrite bind_run. unfold kernel_spec at 1.
  rewrite bind_run. cbn [get manager_after self].
  destruct (_kernel_spec (self st) || String.eqb (kernel_name (self st)) "").
  - cbn [ret]. unfold goes_on. cbn [trace manager_after].
    by destruct (super_pre_start_kernel_rest env _).
  - rewrite bind_run, manager_call_run. cbn [trace self manager_after].
    destruct (get_kernel_spec env _ _) as [e|]; [done|].
    cbn [unit_answer set_self modify]. unfold goes_on. cbn [trace].
    by destruct (super_pre_start_kernel_rest env _).
Qed.

End ManagerFacts.

(** C2 (the code falls short of it): the output of a successful run of
    the bootstrap agent, the process id and then the contents of the
    connection file, should be parsed by the kernel manager into the
    process id and the connection, and the connection loaded.  Whenever the
    remote command hands back that output, [pre_start_kernel] raises: the
    text is read as one JSON document, which a number followed by more text
    is not, so no connection is loaded and the manager's connection stays
    as it was. *)
Theorem C2_agent_output_is_not_parsed (env : Manager.Env) (st : Manager.State)
    (pid : N) (descriptor : string) :
  (forall command tr, exists code stderr,
     Manager.exec env command tr
     = inr (code, Agent.spawn_output pid descriptor, stderr)) ->
  exists e evs,
    Manager.pre_start_kernel env st = (Raised e, manager_after st evs) /\
    Forall (fun ev => forall info, ev <> Manager.LoadConnectionInfo info) evs.
Proof.
  intros Hexec. unfold Manager.pre_start_kernel.
  rewrite bind_run. cbn [get]. rewrite bind_run, lookup_or_install_run.
  cbv zeta. set (name := Manager.kernel_name (Manager.self st)).
  assert (Hnot : forall info,
            Manager.GetKernelSpec name <> Manager.LoadConnectionInfo info /\
            Manager.InstallKernelSpec name <> Manager.LoadConnectionInfo info) by done.
  destruct (Manager.get_kernel_spec env _ _) as [e|].
  - destruct (isinstance e NoSuchKernel).
    2:{ eexists _, [_]. split; [reflexivity|]. repeat constructor. apply Hnot. }
    destruct (Manager.install_kernel_spec env _ _) as [e'|].
    { eexists _, [_; _]. split; [reflexivity|]. repeat constructor; apply Hnot. }
    rewrite bind_run.
    destruct (spawn_remote_on_agent_output env (Manager.self st)
                (manager_after st [Manager.GetKernelSpec name;
                                   Manager.InstallKernelSpec name])
                pid descriptor Hexec) as (e2 & evs & -> & Hevs & _).
    exists e2, ([Manager.GetKernelSpec name; Manager.InstallKernelSpec name] ++ evs).
    split; [unfold manager_after; simpl; by rewrite <- app_assoc
           | repeat constructor; try apply Hnot; done].
  - rewrite bind_run.
    destruct (spawn_remote_on_agent_output env (Manager.self st)
                (manager_after st [Manager.GetKernelSpec name])
                pid descriptor Hexec) as (e2 & evs & -> & Hevs & _).
    exists e2, ([Manager.GetKernelSpec name] ++ evs).
    split; [unfold manager_after; simpl; by rewrite <- app_assoc
           | repeat constructor; try apply Hnot; done].
Qed.

Lemma C2_agent_output_is_not_parsed_witness :
  exists e evs,
    Manager.pre_start_kernel
      (Scenario.agent_env true (Agent.spawn_output 4242 Scenario.descriptor_text))
      Scenario.manager_state
    = (Raised e, manager_after Scenario.manager_state evs) /\
    Forall (fun ev => forall info, ev <> Manager.LoadConnectionInfo info) evs.
Proof.
  apply (C2_agent_output_is_not_parsed _ _ 4242%N Scenario.descriptor_text).
  intros command tr. by exists 0%Z, "".
Defined.

(** The same run, evaluated: the command is issued and its output refused
    as extra data after the number. *)
Example agent_output_raises_extra_data :
  Manager.pre_start_kernel
    (Scenario.agent_env true (Agent.spawn_output 4242 Scenario.descriptor_text))
    Scenario.manager_state
  = (Raised (Exn JSONDecodeError "Extra data"),
     manager_after Scenario.manager_state
       [Manager.GetKernelSpec "python3"; Manager.Exec "hydra spawn k1 python3"]).
Proof. by vm_compute. Qed.

(** An output that is one document with a connection field is loaded, and
    the base class looks the kernel spec up on its own. *)
Example structured_output_is_loaded :
  Manager.pre_start_kernel
    (Scenario.agent_env true Scenario.structured_text)
    Scenario.manager_state
  = (Returned tt,
     {| Manager.self := holding_spec Scenario.manager_k1;
        Manager.trace :=
          [Manager.GetKernelSpec "python3"; Manager.Exec "hydra spawn k1 python3";
           Manager.LoadConnectionInfo
             (PyDict [("shell_port", PyInt 5001); ("key", PyStr "k")]);
           Manager.SuperPreStartKernel; Manager.GetKernelSpec "python3"] |}).
Proof. by vm_compute. Qed.

(** With the kernel spec missing at every lookup, also after the install,
    the call fails at the second lookup, which the base class makes once
    the engine has been started on the remote side. *)
Example missing_spec_is_fatal :
  Manager.pre_start_kernel
    (Scenario.agent_env false Scenario.structured_text)
    Scenario.manager_state
  = (Raised (Exn NoSuchKernel "python3"),
     manager_after Scenario.manager_state
       [Manager.GetKernelSpec "python3"; Manager.InstallKernelSpec "python3";
        Manager.Exec "hydra spawn k1 python3";
        Manager.LoadConnectionInfo
          (PyDict [("shell_port", PyInt 5001); ("key", PyStr "k")]);
        Manager.SuperPreStartKernel; Manager.GetKernelSpec "python3"]).
Proof. by vm_compute. Qed.



(** ** The message proxy *)

Section ProxyFacts.

Import Kernel.

(** A handler changes nothing of the proxy but its own flag. *)
Lemma arrive_iopub (self : ProxyComms) (m : Msg) :
  arrive self (Iopub, m) = self \/ arrive self (Iopub, m) = set_kernel_idle self.
Proof.
  unfold arrive, on_iopub_message. simpl.
  destruct (String.eqb _ _); [|by left].
  destruct (getitem _ _) as [e|v]; [by left|].
  destruct (eq_str v "idle"); [by right | by left].
Qed.

Lemma arrive_shell (self : ProxyComms) (m : Msg) :
  arrive self (Shell, m) =
  if String.eqb (msg_type m) "execute_reply"
  then set_reply_content self (content m) else self.
Proof.
  unfold arrive, on_shell_message. simpl.
  destruct (String.eqb (msg_type m) "execute_request") eqn:Hreq.
  - apply String.eqb_eq in Hreq. by rewrite Hreq.
  - by destruct (String.eqb (msg_type m) "execute_reply").
Qed.

(** The two handlers commute: one writes the idle flag, the other the
    reply. *)
Lemma arrive_commute (self : ProxyComms) (mi mr : Msg) :
  arrive (arrive self (Iopub, mi)) (Shell, mr)
  = arrive (arrive self (Shell, mr)) (Iopub, mi).
Proof.
  rewrite !arrive_shell.
  destruct (String.eqb (msg_type mr) "execute_reply"); [|done].
  unfold arrive, on_iopub_message. simpl.
  destruct (String.eqb (msg_type mi) "status"); [|done].
  destruct (getitem _ _) as [e|v]; [done|].
  by destruct (eq_str v "idle").
Qed.

Lemma arrive_all_app (self : ProxyComms) (l1 l2 : list Arrival) :
  arrive_all self (l1 ++ l2) = arrive_all (arrive_all self l1) l2.
Proof. apply fold_left_app. Qed.

(** A control message can be handled before a run of broadcast messages or
    after it. *)
Lemma arrive_all_commute (self : ProxyComms) (a : Arrival) (l : list Arrival) :
  forallb (on_channel Iopub) l = true -> on_channel Shell a = true ->
  arrive_all (arrive self a) l = arrive (arrive_all self l) a.
Proof.
  intros Hl Ha. revert self. induction l as [|[[] mi] l IH]; intros self;
    [done|done|]. simpl in Hl.
  destruct a as [[] mr]; [|done]. simpl.
  rewrite <- IH by done. by rewrite arrive_commute.
Qed.

(** Any interleaving leaves the proxy as the run does in which every
    broadcast message comes first and the control messages follow. *)
Lemma arrive_all_sorted (self : ProxyComms) (l : list Arrival) :
  arrive_all self l
  = arrive_all self (List.filter (on_channel Iopub) l ++ List.filter (on_channel Shell) l).
Proof.
  revert self. induction l as [|[[] m] l IH]; intros self; [done| |].
  - (* a control message *)
    change (List.filter (on_channel Iopub) ((Shell, m) :: l))
      with (List.filter (on_channel Iopub) l).
    change (List.filter (on_channel Shell) ((Shell, m) :: l))
      with ((Shell, m) :: List.filter (on_channel Shell) l).
    rewrite arrive_all_app. simpl.
    change (fold_left arrive (List.filter (on_channel Shell) l) ?x)
      with (arrive_all x (List.filter (on_channel Shell) l)).
    rewrite <- (arrive_all_commute self (Shell, m)); [|
      apply forallb_forall; intros x Hx; by apply List.filter_In in Hx as [_ Hx] | done].
    rewrite <- arrive_all_app. apply IH.
  - (* a broadcast message *)
    change (List.filter (on_channel Iopub) ((Iopub, m) :: l))
      with ((Iopub, m) :: List.filter (on_channel Iopub) l).
    change (List.filter (on_channel Shell) ((Iopub, m) :: l))
      with (List.filter (on_channel Shell) l).
    simpl. apply IH.
Qed.

Lemma reply_content_arrive_all (self : ProxyComms) (l1 l2 : list Arrival) :
  List.filter (on_channel Iopub) l1 = List.filter (on_channel Iopub) l2 ->
  List.filter (on_channel Shell) l1 = List.filter (on_channel Shell) l2 ->
  arrive_all self l1 = arrive_all self l2.
Proof.
  intros Hi Hs. rewrite (arrive_all_sorted self l1), (arrive_all_sorted self l2).
  by rewrite Hi, Hs.
Qed.

(** C1: the reply payload is observable, [reply_content] is not [None],
    exactly when the idle status has been observed and a reply payload has
    been recorded.  The order of the two does not matter: the idle status
    before the reply and the reply before the idle status leave the same
    payload to be returned, for any two messages and from any state of the
    proxy; two interleavings of the same broadcast messages and the same
    control messages leave the same payload; and on a new proxy either
    order of an idle status and a reply makes the reply's payload
    observable. *)
Theorem C1_reply_observable_iff_idle_and_recorded :
  (forall self : ProxyComms,
     reply_content self <> PyNone <->
     _kernel_idle self = true /\ _reply_content self <> PyNone) /\
  (forall (self : ProxyComms) (mi mr : Msg),
     reply_content (arrive_all self [(Iopub, mi); (Shell, mr)])
     = reply_content (arrive_all self [(Shell, mr); (Iopub, mi)])) /\
  (forall (self : ProxyComms) (l1 l2 : list Arrival),
     List.filter (on_channel Iopub) l1 = List.filter (on_channel Iopub) l2 ->
     List.filter (on_channel Shell) l1 = List.filter (on_channel Shell) l2 ->
     reply_content (arrive_all self l1) = reply_content (arrive_all self l2)) /\
  (forall (parent : Request) (iopub : Sink) (shells : list Sink) (payload : pyval),
     let proxy := new_ProxyComms parent iopub shells in
     reply_content (arrive_all proxy [(Iopub, idle_status)]) = PyNone /\
     reply_content (arrive_all proxy [(Shell, execute_reply payload)]) = PyNone /\
     reply_content
       (arrive_all proxy [(Iopub, idle_status); (Shell, execute_reply payload)])
     = payload /\
     reply_content
       (arrive_all proxy [(Shell, execute_reply payload); (Iopub, idle_status)])
     = payload).
Proof.
  split; [|split; [|split]].
  - intros self. unfold reply_content.
    destruct (_kernel_idle self); simpl; split.
    + by intros H.
    + by intros [_ H].
    + by intros H.
    + by intros [H _].
  - intros self mi mr. simpl. by rewrite arrive_commute.
  - intros self l1 l2 Hi Hs. by rewrite (reply_content_arrive_all self l1 l2).
  - intros parent iopub shells payload. by repeat split.
Qed.

Lemma arrive_sinks (self : ProxyComms) (a : Arrival) :
  iopub (arrive self a) = iopub self /\ shells (arrive self a) = shells self.
Proof.
  destruct a as [[] m].
  - rewrite arrive_shell. by destruct (String.eqb _ _).
  - by destruct (arrive_iopub self m) as [-> | ->].
Qed.

(** The control handler sends to the control sinks only, and nothing when
    the message is an execution request. *)
Lemma on_shell_message_sent (self : ProxyComms) (m : Msg) (ev : Event) :
  In ev (fst (on_shell_message self m)) ->
  msg_type m <> "execute_request" /\
  exists s, In s (shells self) /\
    ev = Send s (msg_type m) (content m) (parent self) (metadata m).
Proof.
  unfold on_shell_message.
  destruct (String.eqb (msg_type m) "execute_request") eqn:Hreq; [done|].
  apply String.eqb_neq in Hreq. intros Hev. split; [done|].
  assert (Hin : In ev (map (fun s => Send s (msg_type m) (content m) (parent self)
                                         (metadata m)) (shells self))).
  { by destruct (String.eqb (msg_type m) "execute_reply"). }
  apply in_map_iff in Hin as (s & <- & Hs). eauto.
Qed.

(** C5: the control handler never re-emits an outbound execution request.
    Whatever message it is given, none of its sends is an
    [execute_request]; over a whole run of messages on the control channel
    the sends contain no [execute_request] to any sink, each of them being
    a message of another type forwarded to one of the control sinks; and in
    a run on both channels a send of an [execute_request] can only be the
    broadcast handler's, to the broadcast sink. *)
Theorem C5_execute_request_is_never_forwarded :
  (forall (self : ProxyComms) (m : Msg) (s : Sink),
     Forall (fun ev => ~ is_execute_request_to s ev) (fst (on_shell_message self m))) /\
  (forall (self : ProxyComms) (l : list Arrival),
     forallb (on_channel Shell) l = true ->
     Forall (fun ev =>
               (forall s, ~ is_execute_request_to s ev) /\
               exists s type content parent metadata,
                 ev = Send s type content parent metadata /\
                 In s (shells self) /\ type <> "execute_request")
            (sent_during self l)) /\
  (forall (self : ProxyComms) (l : list Arrival) (s : Sink),
     Forall (fun ev => is_execute_request_to s ev -> s = iopub self)
            (sent_during self l)).
Proof.
  split; [|split].
  - intros self m s. apply List.Forall_forall. intros ev Hev.
    apply on_shell_message_sent in Hev as (Hne & s' & _ & ->).
    intros (c & p & md & [= _ Heq _ _ _]). done.
  - intros self l. revert self. induction l as [|[[] m] l IH]; intros self Hl;
      [by constructor| |done].
    simpl in Hl. simpl. apply Forall_app. split.
    + apply List.Forall_forall. intros ev Hev.
      apply on_shell_message_sent in Hev as (Hne & s' & Hs' & ->). split.
      * intros s (c & p & md & [= _ Heq _ _ _]). done.
      * by exists s', (msg_type m), (content m), (parent self), (metadata m).
    + destruct (arrive_sinks self (Shell, m)) as [_ Hsh].
      specialize (IH (arrive self (Shell, m)) Hl). rewrite Hsh in IH. exact IH.
  - intros self l s. revert self. induction l as [|[[] m] l IH]; intros self;
      [by constructor| |]; simpl; apply Forall_app; split.
    + apply List.Forall_forall. intros ev Hev.
      apply on_shell_message_sent in Hev as (Hne & s' & _ & ->).
      intros (c & p & md & [= _ Heq _ _ _]). done.
    + destruct (arrive_sinks self (Shell, m)) as [Hio _].
      specialize (IH (arrive self (Shell, m))). by rewrite Hio in IH.
    + assert (Hsent : fst (on_iopub_message self m)
                      = [Send (iopub self) (msg_type m) (content m) (parent self)
                              (metadata m)]).
      { unfold on_iopub_message. destruct (String.eqb _ _); [|done].
        destruct (getitem _ _) as [e|v]; [done|]. by destruct (eq_str v "idle"). }
      rewrite Hsent. constructor; [|constructor].
      by intros (c & p & md & [= -> _ _ _ _]).
    + destruct (arrive_sinks self (Iopub, m)) as [Hio _].
      specialize (IH (arrive self (Iopub, m))). by rewrite Hio in IH.
Qed.

End ProxyFacts.

(** ** The dispatcher *)

Section KernelFacts.

Import Kernel.

Variable env : Kernel.Env.

Lemma kernel_call_run {A} (ev : Event) (answer : list Event -> Exc A) (st : State) :
  Kernel.call ev answer st =
  (match answer (trace st) with inl e => Raised e | inr a => Returned a end,
   kernel_after st [ev]).
Proof. unfold Kernel.call, kernel_after. by destruct (answer _). Qed.

Lemma kernel_after_after (st : State) (evs1 evs2 : list Event) :
  kernel_after (kernel_after st evs1) evs2 = kernel_after st (evs1 ++ evs2).
Proof. unfold kernel_after, set_trace. simpl. by rewrite <- app_assoc. Qed.

(** [spawn_kernel], case by case. *)
Lemma spawn_kernel_run (binding : Manager.Binding) (st : State) :
  spawn_kernel env binding st =
  let st0 := kernel_after st [StartKernel (Manager.kernel binding) binding] in
  match start_kernel env (Manager.kernel binding) binding (trace st) with
  | inl e => (Raised e, st0)
  | inr km =>
      let st1 := kernel_after st0 [Client km] in
      match client env km (trace st0) with
      | Some e => teardown env km e st1
      | None =>
          let kc := fresh_place (clients st) in
          let st2 := set_clients (insert kc {| shell_channel := new_HydraChannel;
                                               iopub_channel := new_HydraChannel |})
                                 st1 in
          let st3 := kernel_after st2 [StartChannels kc] in
          match start_channels env kc (trace st2) with
          | Some e => teardown env km e st3
          | None => (Returned (km, kc), st3)
          end
      end
  end.
Proof.
  unfold spawn_kernel, try_except, new_client, teardown, kernel_after,
    mbind, M_bind, Eff.bind, call, unit_answer, modify, get, ret, raise.
  cbn -[isinstance fresh_place].
  destruct (start_kernel env _ _ _) as [e|km]; [done|].
  destruct (client env km _) as [e|]; cbn -[isinstance fresh_place].
  - destruct (isinstance e RuntimeError); [|done].
    by destruct (shutdown_kernel env km _).
  - destruct (start_channels env _ _) as [e|]; cbn -[isinstance fresh_place]; [|done].
    destruct (isinstance e RuntimeError); [|done].
    by destruct (shutdown_kernel env km _).
Qed.

End KernelFacts.

(** C9 (as stated it fails on the code): the channels of a newly started
    engine fail to start with an error that is not a [RuntimeError], here
    one of the messaging library.  The error reaches the caller and the
    engine has not been shut down: the trace ends with the attempt to
    start the channels. *)
Lemma C9_other_failure_no_teardown :
  exists st',
    Kernel.spawn_kernel
      (Scenario.kernel_env (Some (Exn ZMQError "Address already in use")))
      Scenario.local_binding Scenario.empty_kernel
    = (Raised (Exn ZMQError "Address already in use"), st') /\
    Kernel.trace st'
    = [Kernel.StartKernel "python3" Scenario.local_binding;
       Kernel.Client "kernel-1"; Kernel.StartChannels 0] /\
    ~ In (Kernel.ShutdownKernel "kernel-1") (Kernel.trace st').
Proof.
  eexists. split; [by vm_compute|]. split; [by vm_compute|].
  vm_compute. intros [H|[H|[H|[]]]]; discriminate H.
Qed.

(** C9, amended: when starting the channels of a newly started engine
    raises a [RuntimeError] (or an exception of a subclass), the engine is
    shut down before an exception reaches the caller, the shut-down being
    the last thing done; the exception is the one raised, or that of the
    shut-down when it fails itself, and no handle is cached.  An exception
    of any other class reaches the caller as it is, with no shut-down. *)
Theorem C9_runtime_error_tears_down (env : Kernel.Env) (binding : Manager.Binding)
    (st : Kernel.State) (km : string) (e : exn) :
  let started := Kernel.StartKernel (Manager.kernel binding) binding in
  let kc := Kernel.fresh_place (Kernel.clients st) in
  Kernel.start_kernel env (Manager.kernel binding) binding (Kernel.trace st) = inr km ->
  Kernel.client env km (Kernel.trace st ++ [started]) = None ->
  Kernel.start_channels env kc (Kernel.trace st ++ [started; Kernel.Client km]) = Some e ->
  exists e' st',
    Kernel.spawn_kernel env binding st = (Raised e', st') /\
    Kernel._kernels st' = Kernel._kernels st /\
    (isinstance e RuntimeError = true ->
     Kernel.trace st' =
       Kernel.trace st ++ [started; Kernel.Client km; Kernel.StartChannels kc;
                           Kernel.ShutdownKernel km] /\
     e' = default e (Kernel.shutdown_kernel env km
                       (Kernel.trace st ++ [started; Kernel.Client km;
                                            Kernel.StartChannels kc]))) /\
    (isinstance e RuntimeError = false ->
     Kernel.trace st' =
       Kernel.trace st ++ [started; Kernel.Client km; Kernel.StartChannels kc] /\
     e' = e).
Proof.
  intros started kc Hstart Hclient Hchannels.
  rewrite spawn_kernel_run. cbv zeta. fold started. rewrite Hstart.
  cbn [Kernel.trace kernel_after Kernel.set_trace Kernel.set_clients].
  rewrite Hclient. fold kc. rewrite <- app_assoc. cbn [app].
  rewrite Hchannels. unfold teardown.
  destruct (isinstance e RuntimeError); eexists _, _; (split; [reflexivity|]);
    cbn [Kernel.trace Kernel._kernels kernel_after Kernel.set_trace Kernel.set_clients];
    rewrite <- !app_assoc; cbn [app]; by repeat split.
Qed.

Lemma C9_runtime_error_tears_down_witness :
  exists e' st',
    Kernel.spawn_kernel
      (Scenario.kernel_env (Some (Exn RuntimeError "channels already started")))
      Scenario.local_binding Scenario.empty_kernel = (Raised e', st') /\
    Kernel._kernels st' = Kernel._kernels Scenario.empty_kernel /\
    (isinstance (Exn RuntimeError "channels already started") RuntimeError = true ->
     Kernel.trace st' =
       [] ++ [Kernel.StartKernel "python3" Scenario.local_binding;
              Kernel.Client "kernel-1"; Kernel.StartChannels 0;
              Kernel.ShutdownKernel "kernel-1"] /\
     e' = Exn RuntimeError "channels already started") /\
    (isinstance (Exn RuntimeError "channels already started") RuntimeError = false ->
     Kernel.trace st' =
       [] ++ [Kernel.StartKernel "python3" Scenario.local_binding;
              Kernel.Client "kernel-1"; Kernel.StartChannels 0] /\
     e' = Exn RuntimeError "channels already started").
Proof.
  apply (C9_runtime_error_tears_down
           (Scenario.kernel_env (Some (Exn RuntimeError "channels already started")))
           Scenario.local_binding Scenario.empty_kernel "kernel-1"
           (Exn RuntimeError "channels already started")); reflexivity.
Defined.

(** ** The cache of delegated engines *)

Section EnsureFacts.

Import Kernel.

Variable env : Kernel.Env.

(** A cached name: the handle is returned and nothing else happens. *)
Lemma ensure_cached (name : string) (handle : string * nat) (st : State) :
  _kernels st !! name = Some handle ->
  ensure env name st = (Returned handle, st).
Proof.
  intros Hc.
  assert (Hd : bool_decide (is_Some (_kernels st !! name)) = true).
  { apply bool_decide_eq_true_2. by exists handle. }
  unfold ensure, mbind, M_bind, Eff.bind, get, ret. by rewrite Hd, Hc.
Qed.

(** A name that is not cached and a call that returns: the binding was
    fetched, one engine started with its client and channels, and the
    handle cached. *)
Lemma ensure_spawned (name : string) (handle : string * nat) (st st1 : State) :
  _kernels st !! name = None ->
  ensure env name st = (Returned handle, st1) ->
  exists binding km,
    let kc := fresh_place (clients st) in
    handle = (km, kc) /\
    trace st1 =
      trace st ++ [BindingManagerGet name;
                   StartKernel (Manager.kernel binding) binding;
                   Client km; StartChannels kc] /\
    _kernels st1 = <[name := handle]> (_kernels st) /\
    clients st1 = <[kc := {| shell_channel := new_HydraChannel;
                             iopub_channel := new_HydraChannel |}]> (clients st) /\
    proxies st1 = proxies st /\
    shell_streams st1 = shell_streams st.
Proof.
  intros Hc.
  assert (Hd : bool_decide (is_Some (_kernels st !! name)) = false).
  { apply bool_decide_eq_false_2. rewrite Hc. by intros [? ?]. }
  unfold ensure, mbind, M_bind, Eff.bind, call, modify, get, ret, raise.
  rewrite Hd.
  destruct (binding_manager_get env name (trace st)) as [e|binding]; [done|].
  rewrite spawn_kernel_run. cbv zeta.
  cbn [trace kernel_after set_trace set_clients clients].
  destruct (start_kernel env _ _ _) as [e|km]; [done|].
  destruct (client env km _) as [e|].
  { unfold teardown. by destruct (isinstance e RuntimeError). }
  destruct (start_channels env _ _) as [e|].
  { unfold teardown. by destruct (isinstance e RuntimeError). }
  cbn [set_kernels _kernels kernel_after set_trace set_clients].
  rewrite lookup_insert_eq. intros [= <- <-].
  exists binding, km. cbn.
  rewrite <- !app_assoc. by repeat split.
Qed.

Lemma ensure_times_cached (name : string) (handle : string * nat) (st : State)
    (n : nat) :
  _kernels st !! name = Some handle ->
  ensure_times env name n st = (Returned (repeat handle n), st).
Proof.
  intros Hc. induction n as [|n IH]; [done|].
  cbn [ensure_times repeat]. rewrite bind_run, (ensure_cached _ _ _ Hc).
  rewrite bind_run, IH. done.
Qed.

Lemma spawns_app (tr1 tr2 : list Event) :
  spawns (tr1 ++ tr2) = (spawns tr1 + spawns tr2)%nat.
Proof. unfold spawns. by rewrite List.filter_app, length_app. Qed.

End EnsureFacts.

(** ** Routing one request *)

Section RouteFacts.

Import Kernel.

Variable env : Kernel.Env.

Lemma emits_kernel_call {A} (P : Event -> Prop) (ev : Event)
    (answer : list Event -> Exc A) :
  P ev -> emits trace P (Kernel.call ev answer).
Proof.
  intros HP st o st'. rewrite kernel_call_run. intros [= <- <-].
  exists [ev]. split; [done | by constructor].
Qed.

Lemma emits_emit (P : Event -> Prop) (evs : list Event) :
  Forall P evs -> emits trace P (emit evs).
Proof. intros HP st o st' [= <- <-]. by exists evs. Qed.

Lemma emits_silent_modify (P : Event -> Prop) (f : State -> State) :
  (forall st, trace (f st) = trace st) -> emits trace P (modify f).
Proof.
  intros Hf. apply emits_modify. intros st. exists [].
  by rewrite Hf, app_nil_r.
Qed.

(** A handler sends, and sends only. *)
Lemma handler_sends (self : ProxyComms) (m : Msg) (ev : Event) :
  In ev (fst (on_iopub_message self m)) \/ In ev (fst (on_shell_message self m)) ->
  exists s type content parent metadata, ev = Send s type content parent metadata.
Proof.
  intros [Hev|Hev].
  - assert (Hsent : fst (on_iopub_message self m)
                    = [Send (iopub self) (msg_type m) (content m) (parent self)
                            (metadata m)]).
    { unfold on_iopub_message. destruct (String.eqb _ _); [|done].
      destruct (getitem _ _) as [e|v]; [done|]. by destruct (eq_str v "idle"). }
    rewrite Hsent in Hev. destruct Hev as [<-|[]]. eauto 6.
  - apply on_shell_message_sent in Hev as (_ & s & _ & ->). eauto 6.
Qed.

Lemma emits_invoke (P : Event -> Prop) (h : Handler) (m : Msg) :
  (forall s type content parent metadata, P (Send s type content parent metadata)) ->
  emits trace P (invoke h m).
Proof.
  intros HP. unfold invoke.
  destruct h as [ref|ref].
  all: apply emits_bind; [apply emits_get | intros st].
  all: destruct (proxies st !! ref) as [self|]; [|apply emits_ret].
  - pose proof (fun ev H => handler_sends self m ev (or_introl H)) as Hs.
    destruct (on_iopub_message self m) as [sent result]. simpl in Hs.
    apply emits_bind; [|intros _].
    + apply emits_emit, List.Forall_forall. intros ev Hev.
      destruct (Hs ev Hev) as (s & t & c & p & md & ->). apply HP.
    + destruct result; [apply emits_raise | by apply emits_silent_modify].
  - pose proof (fun ev H => handler_sends self m ev (or_intror H)) as Hs.
    destruct (on_shell_message self m) as [sent result]. simpl in Hs.
    apply emits_bind; [|intros _].
    + apply emits_emit, List.Forall_forall. intros ev Hev.
      destruct (Hs ev Hev) as (s & t & c & p & md & ->). apply HP.
    + destruct result; [apply emits_raise | by apply emits_silent_modify].
Qed.

Lemma preserves_invoke (h : Handler) (m : Msg) : preserves engines (invoke h m).
Proof.
  unfold invoke. destruct h as [ref|ref].
  all: apply preserves_bind; [apply preserves_get | intros st].
  all: destruct (proxies st !! ref) as [self|]; [|apply preserves_ret].
  - destruct (on_iopub_message self m) as [sent result].
    apply preserves_bind; [by apply preserves_modify | intros _].
    destruct result; [apply preserves_raise | by apply preserves_modify].
  - destruct (on_shell_message self m) as [sent result].
    apply preserves_bind; [by apply preserves_modify | intros _].
    destruct result; [apply preserves_raise | by apply preserves_modify].
Qed.

Lemma emits_call_handlers (P : Event -> Prop) (kc : nat) (which : ChannelName)
    (m : Msg) :
  (forall s type content parent metadata, P (Send s type content parent metadata)) ->
  emits trace P (call_handlers kc which m).
Proof.
  intros HP. unfold call_handlers.
  apply emits_bind; [apply emits_get | intros st].
  destruct (clients st !! kc) as [cl|]; [|apply emits_ret].
  apply emits_for_each. intros h. by apply emits_invoke.
Qed.

Lemma preserves_call_handlers (kc : nat) (which : ChannelName) (m : Msg) :
  preserves engines (call_handlers kc which m).
Proof.
  unfold call_handlers.
  apply preserves_bind; [apply preserves_get | intros st].
  destruct (clients st !! kc) as [cl|]; [|apply preserves_ret].
  apply preserves_for_each. intros h. apply preserves_invoke.
Qed.

(** Delivering messages adds sends to the trace and leaves the engines
    alone. *)
Lemma deliver_all_spec (P : Event -> Prop) (kc : nat) (l : list Arrival) (st : State) :
  (forall s type content parent metadata, P (Send s type content parent metadata)) ->
  engines (deliver_all kc l st) = engines st /\
  exists evs, trace (deliver_all kc l st) = trace st ++ evs /\ Forall P evs.
Proof.
  intros HP. revert st. induction l as [|a l IH]; intros st.
  - split; [done|]. exists []. by rewrite app_nil_r.
  - cbn [deliver_all fold_left].
    change (fold_left _ l ?s) with (deliver_all kc l s).
    destruct (IH (deliver kc a st)) as (He & evs2 & Htr2 & HP2).
    unfold deliver in *.
    destruct (call_handlers kc a.1 a.2 st) as [o st1] eqn:Hrun. simpl in *.
    pose proof (preserves_call_handlers _ _ _ _ _ _ Hrun) as He1.
    destruct (emits_call_handlers P _ _ _ HP _ _ _ Hrun) as (evs1 & Htr1 & HP1).
    split; [by rewrite He|].
    exists (evs1 ++ evs2). split; [by rewrite Htr2, Htr1, app_assoc|].
    by apply Forall_app.
Qed.

Lemma emits_deliver_all (P : Event -> Prop) (kc : nat) (l : list Arrival) :
  (forall s type content parent metadata, P (Send s type content parent metadata)) ->
  emits trace P (modify (deliver_all kc l)).
Proof.
  intros HP. apply emits_modify. intros st.
  by destruct (deliver_all_spec P kc l st HP) as [_ ?].
Qed.

Lemma preserves_deliver_all (kc : nat) (l : list Arrival) :
  preserves engines (modify (deliver_all kc l)).
Proof.
  apply preserves_modify. intros st.
  by destruct (deliver_all_spec (fun _ => True) kc l st) as [? _].
Qed.

Lemma emits_wait (P : Event -> Prop) (proxy kc : nat) (batches : list (list Arrival)) :
  (forall s type content parent metadata, P (Send s type content parent metadata)) ->
  emits trace P (wait proxy kc batches).
Proof.
  intros HP. induction batches as [|batch batches IH]; intros st o st'; simpl.
  - destruct (truthy _); intros [= <- <-]; exists []; by rewrite app_nil_r.
  - destruct (truthy _).
    + intros [= <- <-]. exists []. by rewrite app_nil_r.
    + intros Hrun. destruct (IH _ _ _ Hrun) as (evs2 & Htr2 & HP2).
      destruct (deliver_all_spec P kc batch st HP) as (_ & evs1 & Htr1 & HP1).
      exists (evs1 ++ evs2). split; [by rewrite Htr2, Htr1, app_assoc|].
      by apply Forall_app.
Qed.

Lemma preserves_wait (proxy kc : nat) (batches : list (list Arrival)) :
  preserves engines (wait proxy kc batches).
Proof.
  induction batches as [|batch batches IH]; intros st o st'; simpl.
  - by destruct (truthy _); intros [= <- <-].
  - destruct (truthy _).
    + by intros [= <- <-].
    + intros Hrun. rewrite (IH _ _ _ Hrun).
      by destruct (deliver_all_spec (fun _ => True) kc batch st) as [? _].
Qed.

(** The wait returns only once the reply is observable and true. *)
Lemma wait_returned (proxy kc : nat) (batches : list (list Arrival)) (st st' : State) :
  wait proxy kc batches st = (Returned tt, st') ->
  truthy (observed st' proxy) = true.
Proof.
  revert st. induction batches as [|batch batches IH]; intros st; simpl;
    fold (observed st proxy).
  - destruct (truthy (observed st proxy)) eqn:Ht; [|done]. by intros [= <-].
  - destruct (truthy (observed st proxy)) eqn:Ht; [by intros [= <-]|]. apply IH.
Qed.

Lemma modify_Returned_inv {S : Type} (f : S -> S) (st st' : S) (u : unit) :
  modify f st = (Returned u, st') -> st' = f st.
Proof. by intros [= _ <-]. Qed.

(** A run of [route] that returns, taken apart. *)
Lemma route_returned (sched : Schedule) (parent : Request) (name : string)
    (st st' : State) (r : pyval * pyval * nat) :
  route env sched parent name st = (Returned r, st') ->
  exists silent km kc s1 s2,
    dict_lookup (request_content parent) "silent" = Some silent /\
    ensure env name st = (Returned (km, kc), s1) /\
    r = (silent, dict_get (request_content parent) "stop_on_error" (PyBool true),
         fresh_place (proxies s1)) /\
    wait (fresh_place (proxies s1)) kc (while_waiting sched)
         (subscribed sched parent kc s1) = (Returned tt, s2) /\
    st' = unsubscribed sched kc s2.
Proof.
  unfold route. intros H.
  apply bind_Returned_inv in H as (silent & s0 & Hsilent & H).
  assert (s0 = st /\ dict_lookup (request_content parent) "silent" = Some silent)
    as [-> Hlookup].
  { revert Hsilent. unfold dict_getitem.
    destruct (dict_lookup _ _); [by intros [= <- <-] | done]. }
  apply bind_Returned_inv in H as ([km kc] & s1 & Hensure & H).
  apply bind_Returned_inv in H as (s1' & s1'' & [= <- <-] & H).
  apply bind_Returned_inv in H as ([] & a1 & H1 & H).
  apply modify_Returned_inv in H1 as ->.
  apply bind_Returned_inv in H as ([] & a2 & H2 & H).
  apply modify_Returned_inv in H2 as ->.
  apply bind_Returned_inv in H as ([] & a3 & H3 & H).
  apply modify_Returned_inv in H3 as ->.
  apply bind_Returned_inv in H as ([] & a4 & H4 & H).
  apply modify_Returned_inv in H4 as ->.
  apply bind_Returned_inv in H as ([] & a5 & H5 & H).
  apply modify_Returned_inv in H5 as ->.
  apply bind_Returned_inv in H as ([] & s2 & Hwait & H).
  apply bind_Returned_inv in H as ([] & a6 & H6 & H).
  apply modify_Returned_inv in H6 as ->.
  apply bind_Returned_inv in H as ([] & a7 & H7 & H).
  apply modify_Returned_inv in H7 as ->.
  apply bind_Returned_inv in H as ([] & a8 & H8 & H).
  apply modify_Returned_inv in H8 as ->.
  apply bind_Returned_inv in H as ([] & a9 & H9 & H).
  apply modify_Returned_inv in H9 as ->.
  injection H as <- <-.
  exists silent, km, kc, s1, s2. by repeat split.
Qed.

End RouteFacts.

Section DispatchFacts.

Import Kernel.

Variable env : Kernel.Env.

Lemma emits_spawn_kernel (binding : Manager.Binding) :
  emits trace not_abort (spawn_kernel env binding).
Proof.
  unfold spawn_kernel.
  apply emits_bind; [by apply emits_kernel_call | intros km].
  apply emits_bind; [|intros kc; apply emits_ret].
  apply emits_try_except.
  - apply emits_bind; [|intros kc].
    + unfold new_client.
      apply emits_bind; [by apply emits_kernel_call | intros _].
      apply emits_bind; [apply emits_get | intros st].
      apply emits_bind; [by apply emits_silent_modify | intros _].
      apply emits_ret.
    + apply emits_bind; [by apply emits_kernel_call | intros _]. apply emits_ret.
  - intros e. apply emits_bind; [by apply emits_kernel_call | intros _].
    apply emits_raise.
Qed.

Lemma emits_ensure (name : string) : emits trace not_abort (ensure env name).
Proof.
  unfold ensure.
  apply emits_bind; [apply emits_get | intros st].
  apply emits_bind; [|intros _].
  - destruct (bool_decide _); [apply emits_ret|].
    apply emits_bind; [by apply emits_kernel_call | intros binding].
    apply emits_bind; [apply emits_spawn_kernel | intros handle].
    by apply emits_silent_modify.
  - apply emits_bind; [apply emits_get | intros st'].
    destruct (_kernels st' !! name); [apply emits_ret | apply emits_raise].
Qed.

Lemma emits_update_channel (P : Event -> Prop) (kc : nat) (which : ChannelName)
    (f : HydraChannel -> HydraChannel) :
  emits trace P (update_channel kc which f).
Proof. by apply emits_silent_modify. Qed.

(** Nothing in [route] aborts the caller's queue. *)
Lemma emits_route (sched : Schedule) (parent : Request) (name : string) :
  emits trace not_abort (route env sched parent name).
Proof.
  assert (Hsend : forall s type content parent metadata,
            not_abort (Send s type content parent metadata)) by done.
  unfold route.
  apply emits_bind; [apply emits_lift | intros silent].
  apply emits_bind; [apply emits_ensure | intros [km kc]].
  apply emits_bind; [apply emits_get | intros st].
  apply emits_bind; [by apply emits_silent_modify | intros _].
  apply emits_bind; [apply emits_emit; by repeat constructor | intros _].
  apply emits_bind; [by apply emits_deliver_all | intros _].
  apply emits_bind; [apply emits_update_channel | intros _].
  apply emits_bind; [apply emits_update_channel | intros _].
  apply emits_bind; [by apply emits_wait | intros _].
  apply emits_bind; [apply emits_emit; by repeat constructor | intros _].
  apply emits_bind; [by apply emits_deliver_all | intros _].
  apply emits_bind; [apply emits_update_channel | intros _].
  apply emits_bind; [apply emits_update_channel | intros _].
  apply emits_ret.
Qed.

(** The last statement of [execute_request] adds the abort to the trace
    exactly when the abort condition holds, and nothing otherwise. *)
Lemma abort_policy_run (silent stop_on_error : pyval) (proxy : nat) (st : State) :
  exists o,
    abort_policy silent stop_on_error proxy st =
    (o, kernel_after st
          (if must_abort silent stop_on_error (observed st proxy)
           then [AbortQueues] else [])) /\
    o <> Blocked.
Proof.
  assert (Hnil : kernel_after st [] = st).
  { unfold kernel_after, set_trace. destruct st. simpl. by rewrite app_nil_r. }
  unfold abort_policy, must_abort.
  destruct (truthy silent); simpl.
  { exists (Returned tt). by rewrite Hnil. }
  rewrite bind_run. cbn [get]. fold (observed st proxy).
  rewrite bind_run.
  destruct (getitem (observed st proxy) "status") as [e|status]; simpl.
  { exists (Raised e). by rewrite Hnil. }
  destruct (eq_str status "error"); simpl.
  - destruct (truthy stop_on_error); exists (Returned tt); by rewrite ?Hnil.
  - exists (Returned tt). by rewrite Hnil.
Qed.

Lemma must_abort_true (silent stop_on_error reply : pyval) :
  must_abort silent stop_on_error reply = true <->
  truthy silent = false /\
  (exists status, getitem reply "status" = inr status /\ eq_str status "error" = true) /\
  truthy stop_on_error = true.
Proof.
  unfold must_abort. split.
  - intros H. apply andb_true_iff in H as [H Hstop].
    apply andb_true_iff in H as [Hsilent Hstatus].
    apply negb_true_iff in Hsilent. repeat split; try done.
    destruct (getitem reply "status") as [e|status]; [done|]. by exists status.
  - intros (-> & (status & -> & ->) & ->). done.
Qed.

(** A request with a routing tag is routed, then the abort policy is
    applied. *)
Lemma execute_request_tagged (sched : Schedule) (parent : Request) (name : string)
    (st : State) :
  binding_name parent = Some name -> name <> "" ->
  execute_request env sched parent st =
  match route env sched parent name st with
  | (Returned (silent, stop_on_error, proxy), st1) =>
      abort_policy silent stop_on_error proxy st1
  | (Raised e, st1) => (Raised e, st1)
  | (Blocked, st1) => (Blocked, st1)
  end.
Proof.
  intros Hname Hne. unfold execute_request. rewrite Hname.
  destruct name as [|c name]; [done|].
  rewrite bind_run.
  by destruct (route env sched parent (String c name) st) as [[[[a b] p]|e|] s].
Qed.

(** A request without a routing tag, or with an empty one, goes to the
    local engine and to nothing else. *)
Lemma execute_request_untagged (sched : Schedule) (parent : Request) (st : State) :
  binding_name parent = None \/ binding_name parent = Some "" ->
  execute_request env sched parent st =
  (match super_execute_request env parent (trace st) with
   | Some e => Raised e
   | None => Returned tt
   end, kernel_after st [SuperExecuteRequest parent]).
Proof.
  intros [Hname|Hname]; unfold execute_request; rewrite Hname;
    rewrite kernel_call_run; by destruct (super_execute_request env parent _).
Qed.

End DispatchFacts.

(** C6: once a delegated request has completed, the route having returned
    with the flags of the request and the proxy, the dispatcher aborts the
    caller's queued execution requests if and only if the request was not
    silent, the status of the recorded reply is "error" and the
    stop-on-error flag is set (it is when the request does not carry it).
    In every other case, stop-on-error false, a silent request or another
    status, the queue is not aborted. *)
Theorem C6_abort_iff_error_and_stop_on_error (env : Kernel.Env)
    (sched : Kernel.Schedule) (parent : Kernel.Request) (name : string)
    (st st1 : Kernel.State) (silent stop_on_error : pyval) (proxy : nat) :
  Kernel.binding_name parent = Some name -> name <> "" ->
  Kernel.route env sched parent name st
    = (Returned (silent, stop_on_error, proxy), st1) ->
  let reply := observed st1 proxy in
  exists o st' evs,
    Kernel.execute_request env sched parent st = (o, st') /\
    o <> Blocked /\
    Kernel.trace st' = Kernel.trace st ++ evs /\
    dict_lookup (Kernel.request_content parent) "silent" = Some silent /\
    stop_on_error
      = dict_get (Kernel.request_content parent) "stop_on_error" (PyBool true) /\
    (In Kernel.AbortQueues evs <->
     truthy silent = false /\
     (exists status,
        getitem reply "status" = inr status /\ eq_str status "error" = true) /\
     truthy stop_on_error = true).
Proof.
  intros Hname Hne Hroute reply.
  destruct (emits_route env sched parent name _ _ _ Hroute) as (evs1 & Htr1 & Hevs1).
  destruct (route_returned env sched parent name _ _ _ Hroute)
    as (silent' & km & kc & s1 & s2 & Hsilent & _ & [= <- Hstop _] & _).
  destruct (abort_policy_run silent stop_on_error proxy st1) as (o & Hrun & Ho).
  rewrite (execute_request_tagged env sched parent name st Hname Hne), Hroute.
  fold reply in Hrun.
  eexists o, _, (evs1 ++ if must_abort silent stop_on_error reply
                         then [Kernel.AbortQueues] else []).
  split; [exact Hrun|]. split; [done|].
  split; [by unfold kernel_after; simpl; rewrite Htr1, app_assoc|].
  split; [done|]. split; [done|].
  rewrite <- must_abort_true, in_app_iff. split.
  - intros [Hin|Hin].
    + exfalso. rewrite List.Forall_forall in Hevs1. by apply (Hevs1 _ Hin).
    + by destruct (must_abort silent stop_on_error reply).
  - intros ->. right. by left.
Qed.

Lemma C6_abort_iff_error_and_stop_on_error_witness :
  exists st1 o st' evs,
    Kernel.execute_request (Scenario.kernel_env None) (Scenario.completing Scenario.error_reply)
      (Scenario.request_node1 [("silent", PyBool false)]) Scenario.empty_kernel = (o, st') /\
    o <> Blocked /\
    Kernel.trace st' = Kernel.trace Scenario.empty_kernel ++ evs /\
    dict_lookup [("silent", PyBool false)] "silent" = Some (PyBool false) /\
    PyBool true = dict_get [("silent", PyBool false)] "stop_on_error" (PyBool true) /\
    (In Kernel.AbortQueues evs <->
     truthy (PyBool false) = false /\
     (exists status,
        getitem (observed st1 0) "status" = inr status /\
        eq_str status "error" = true) /\
     truthy (PyBool true) = true).
Proof.
  eexists.
  apply (C6_abort_iff_error_and_stop_on_error (Scenario.kernel_env None)
           (Scenario.completing Scenario.error_reply)
           (Scenario.request_node1 [("silent", PyBool false)])
           "node1" Scenario.empty_kernel _ (PyBool false) (PyBool true) 0).
  - reflexivity.
  - discriminate.
  - vm_compute. reflexivity.
Defined.

(** The four cases of the abort policy on a completed request: an error
    with stop-on-error set aborts the queue; stop-on-error false, a silent
    request or a reply that is no error do not. *)
Example abort_policy_cases :
  let aborted content reply :=
    aborts
      (Kernel.trace
         (Kernel.execute_request (Scenario.kernel_env None) (Scenario.completing reply)
            (Scenario.request_node1 content) Scenario.empty_kernel).2) in
  aborted [("silent", PyBool false); ("stop_on_error", PyBool true)] Scenario.error_reply = true /\
  aborted [("silent", PyBool false)] Scenario.error_reply = true /\
  aborted [("silent", PyBool false); ("stop_on_error", PyBool false)]
          Scenario.error_reply = false /\
  aborted [("silent", PyBool true); ("stop_on_error", PyBool true)] Scenario.error_reply = false /\
  aborted [("silent", PyBool false); ("stop_on_error", PyBool true)] Scenario.ok_reply = false.
Proof. repeat split; by vm_compute. Qed.

(** ** Subscriptions *)

Section SubscriptionFacts.

Import Kernel.

Variable env : Kernel.Env.

Lemma engines_eq (st st' : State) :
  engines st' = engines st ->
  _kernels st' = _kernels st /\ clients st' = clients st.
Proof. by intros [= -> ->]. Qed.

Lemma engines_deliver_all (kc : nat) (l : list Arrival) (st : State) :
  engines (deliver_all kc l st) = engines st.
Proof. by destruct (deliver_all_spec (fun _ => True) kc l st) as [? _]. Qed.

Lemma update_channel_clients (kc : nat) (which : ChannelName)
    (f : HydraChannel -> HydraChannel) (st : State) :
  _kernels (update_channel kc which f st).2 = _kernels st /\
  clients (update_channel kc which f st).2 =
    match clients st !! kc with
    | Some client => <[kc := set_channel which (f (channel which client)) client]>
                       (clients st)
    | None => clients st
    end.
Proof. done. Qed.

(** Piping keeps the cache, and the client of the request in the store. *)
Lemma subscribed_spec (sched : Schedule) (parent : Request) (kc : nat) (st : State) :
  _kernels (subscribed sched parent kc st) = _kernels st /\
  (is_Some (clients st !! kc) ->
   is_Some (clients (subscribed sched parent kc st) !! kc)).
Proof.
  unfold subscribed. cbv zeta.
  set (proxy := fresh_place (proxies st)).
  set (st3 := deliver_all kc _ _).
  assert (He : engines st3 = engines st) by (unfold st3; by rewrite engines_deliver_all).
  apply engines_eq in He as [Hk Hc].
  destruct (update_channel_clients kc Iopub
              (fun ch => pipe ch (OnIopubMessage proxy)) st3) as [Hk4 Hc4].
  destruct (update_channel_clients kc Shell
              (fun ch => pipe ch (OnShellMessage proxy))
              (update_channel kc Iopub
                 (fun ch => pipe ch (OnIopubMessage proxy)) st3).2) as [Hk5 Hc5].
  split; [by rewrite Hk5, Hk4, Hk|].
  intros [client Hclient]. rewrite Hc5, Hc4, Hc, Hclient.
  rewrite lookup_insert_eq, lookup_insert_eq. eauto.
Qed.

(** Unpiping keeps the cache and leaves both channels of the client with
    no handler at all, whatever was piped and whoever piped it. *)
Lemma unsubscribed_spec (sched : Schedule) (kc : nat) (st : State) :
  _kernels (unsubscribed sched kc st) = _kernels st /\
  (is_Some (clients st !! kc) ->
   exists client,
     clients (unsubscribed sched kc st) !! kc = Some client /\
     _pipes (shell_channel client) = [] /\ _pipes (iopub_channel client) = []).
Proof.
  unfold unsubscribed. cbv zeta.
  set (st1 := deliver_all kc _ _).
  assert (He : engines st1 = engines st) by (unfold st1; by rewrite engines_deliver_all).
  apply engines_eq in He as [Hk Hc].
  destruct (update_channel_clients kc Iopub unpipe st1) as [Hk2 Hc2].
  destruct (update_channel_clients kc Shell unpipe
              (update_channel kc Iopub unpipe st1).2) as [Hk3 Hc3].
  split; [by rewrite Hk3, Hk2, Hk|].
  intros [client Hclient]. rewrite Hc3, Hc2, Hc, Hclient.
  rewrite lookup_insert_eq, lookup_insert_eq. eauto.
Qed.

(** What [ensure] returns is cached, and its client is in the store. *)
Lemma ensure_returned (name : string) (km : string) (kc : nat) (st st1 : State) :
  clients_known st ->
  ensure env name st = (Returned (km, kc), st1) ->
  _kernels st1 !! name = Some (km, kc) /\ is_Some (clients st1 !! kc).
Proof.
  intros Hknown Hrun.
  destruct (_kernels st !! name) as [handle|] eqn:Hc.
  - rewrite (ensure_cached env name handle st Hc) in Hrun.
    injection Hrun as -> <-. split; [done|]. by apply (Hknown name km kc).
  - destruct (ensure_spawned env name _ _ _ Hc Hrun)
      as (binding & km' & [= -> ->] & _ & Hk & Hcl & _).
    split; [rewrite Hk; apply lookup_insert_eq|].
    rewrite Hcl, lookup_insert_eq. eauto.
Qed.

Lemma preserves_abort_policy (silent stop_on_error : pyval) (proxy : nat) :
  preserves engines (abort_policy silent stop_on_error proxy).
Proof.
  intros st o st'.
  destruct (abort_policy_run silent stop_on_error proxy st) as (o' & -> & _).
  by intros [= _ <-].
Qed.

End SubscriptionFacts.

Section CachedFacts.

Import Kernel.

Variable env : Kernel.Env.

Lemma spawns_not_spawn (evs : list Event) : Forall not_spawn evs -> spawns evs = 0%nat.
Proof.
  induction 1 as [|ev evs Hev _ IH]; [done|].
  unfold spawns in *. simpl. by destruct ev.
Qed.

Lemma preserves_engines_kernels {A} (c : M State A) :
  preserves engines c -> preserves _kernels c.
Proof. intros Hc st o st' Hrun. by destruct (engines_eq _ _ (Hc _ _ _ Hrun)). Qed.

Lemma preserves_update_channel (kc : nat) (which : ChannelName)
    (f : HydraChannel -> HydraChannel) :
  preserves _kernels (update_channel kc which f).
Proof. by apply preserves_modify. Qed.

(** Once [ensure] has returned, the rest of the route starts no engine and
    leaves the cache as it is, however the call ends. *)
Lemma route_after_ensure (sched : Schedule) (parent : Request) (name : string)
    (handle : string * nat) (silent : pyval) (st st1 st' : State)
    (o : outcome (pyval * pyval * nat)) :
  dict_lookup (request_content parent) "silent" = Some silent ->
  ensure env name st = (Returned handle, st1) ->
  route env sched parent name st = (o, st') ->
  _kernels st' = _kernels st1 /\
  exists evs, trace st' = trace st1 ++ evs /\ Forall not_spawn evs.
Proof.
  intros Hsilent Hensure. unfold route, dict_getitem. rewrite bind_run, Hsilent.
  cbn [lift ret]. rewrite bind_run, Hensure.
  destruct handle as [km kc]. intros Hrun.
  assert (Hsend : forall s type content parent metadata,
            not_spawn (Send s type content parent metadata)) by done.
  match type of Hrun with
  | ?c _ = _ =>
      assert (Hemits : emits trace not_spawn c);
      [|assert (Hkeeps : preserves _kernels c)]
  end.
  - apply emits_bind; [apply emits_get | intros s].
    apply emits_bind; [by apply emits_silent_modify | intros _].
    apply emits_bind; [apply emits_emit; by repeat constructor | intros _].
    apply emits_bind; [by apply emits_deliver_all | intros _].
    apply emits_bind; [apply emits_update_channel | intros _].
    apply emits_bind; [apply emits_update_channel | intros _].
    apply emits_bind; [by apply emits_wait | intros _].
    apply emits_bind; [apply emits_emit; by repeat constructor | intros _].
    apply emits_bind; [by apply emits_deliver_all | intros _].
    apply emits_bind; [apply emits_update_channel | intros _].
    apply emits_bind; [apply emits_update_channel | intros _].
    apply emits_ret.
  - apply preserves_bind; [apply preserves_get | intros s].
    apply preserves_bind; [by apply preserves_modify | intros _].
    apply preserves_bind; [by apply preserves_modify | intros _].
    apply preserves_bind;
      [apply preserves_engines_kernels, preserves_deliver_all | intros _].
    apply preserves_bind; [apply preserves_update_channel | intros _].
    apply preserves_bind; [apply preserves_update_channel | intros _].
    apply preserves_bind; [apply preserves_engines_kernels, preserves_wait | intros _].
    apply preserves_bind; [by apply preserves_modify | intros _].
    apply preserves_bind;
      [apply preserves_engines_kernels, preserves_deliver_all | intros _].
    apply preserves_bind; [apply preserves_update_channel | intros _].
    apply preserves_bind; [apply preserves_update_channel | intros _].
    apply preserves_ret.
  - split; [exact (Hkeeps _ _ _ Hrun) | exact (Hemits _ _ _ Hrun)].
Qed.

(** The whole request, once [ensure] has returned in it. *)
Lemma execute_request_after_ensure (sched : Schedule) (parent : Request)
    (name : string) (handle : string * nat) (silent : pyval)
    (st st1 st' : State) (o : outcome unit) :
  binding_name parent = Some name -> name <> "" ->
  dict_lookup (request_content parent) "silent" = Some silent ->
  ensure env name st = (Returned handle, st1) ->
  execute_request env sched parent st = (o, st') ->
  _kernels st' = _kernels st1 /\ spawns (trace st') = spawns (trace st1).
Proof.
  intros Hname Hne Hsilent Hensure.
  rewrite (execute_request_tagged env sched parent name st Hname Hne).
  destruct (route env sched parent name st) as [r st2] eqn:Hroute.
  destruct (route_after_ensure sched parent name handle silent _ _ _ _
              Hsilent Hensure Hroute) as (Hk & evs & Htr & Hevs).
  assert (Hsp : spawns (trace st2) = spawns (trace st1)).
  { rewrite Htr, spawns_app, (spawns_not_spawn evs Hevs). lia. }
  destruct r as [[[silent' stop_on_error] proxy]|e|]; try by intros [= _ <-].
  destruct (abort_policy_run silent' stop_on_error proxy st2) as (o' & -> & _).
  intros [= _ <-]. split; [done|].
  unfold kernel_after. simpl. rewrite spawns_app, Hsp.
  destruct (must_abort _ _ _).
  - rewrite (spawns_not_spawn [AbortQueues]) by (by repeat constructor). lia.
  - rewrite (spawns_not_spawn []) by constructor. lia.
Qed.

(** Served by an engine that is cached already, a request starts no engine
    and leaves the cache as it is, however the call ends. *)
Lemma execute_request_cached (sched : Schedule) (parent : Request) (name : string)
    (handle : string * nat) (st st' : State) (o : outcome unit) :
  binding_name parent = Some name ->
  _kernels st !! name = Some handle ->
  execute_request env sched parent st = (o, st') ->
  _kernels st' = _kernels st /\ spawns (trace st') = spawns (trace st).
Proof.
  intros Hname Hc.
  destruct (decide (name = "")) as [->|Hne].
  { rewrite execute_request_untagged by (by right).
    intros [= _ <-]. split; [done|].
    unfold kernel_after. simpl.
    rewrite spawns_app, (spawns_not_spawn [SuperExecuteRequest parent])
      by (by repeat constructor). lia. }
  destruct (dict_lookup (request_content parent) "silent") as [silent|] eqn:Hsilent.
  - by apply (execute_request_after_ensure sched parent name handle silent),
             ensure_cached.
  - rewrite (execute_request_tagged env sched parent name st Hname Hne).
    unfold route, dict_getitem. rewrite bind_run, Hsilent.
    by intros [= _ <-].
Qed.

(** A run of requests for a cached engine starts no engine. *)
Lemma dispatch_all_cached (name : string) (handle : string * nat)
    (requests : list (Schedule * Request)) (st : State) :
  tagged name requests ->
  _kernels st !! name = Some handle ->
  _kernels (dispatch_all env requests st) !! name = Some handle /\
  spawns (trace (dispatch_all env requests st)) = spawns (trace st).
Proof.
  intros Htag. revert st. induction Htag as [|[sched parent] requests Hname _ IH];
    intros st Hc; [done|].
  cbn [dispatch_all]. simpl in Hname.
  destruct (execute_request env sched parent st) as [o st'] eqn:Hrun.
  destruct (execute_request_cached sched parent name handle _ _ _ Hname Hc Hrun)
    as [Hk Hsp].
  assert (Hc' : _kernels st' !! name = Some handle) by (by rewrite Hk).
  destruct o; [| |done]; destruct (IH st' Hc') as [? Hsp']; by rewrite Hsp'.
Qed.

End CachedFacts.

(** C4: for a name that is not cached yet, [ensure] called any number of
    times, the first call returning a handle, starts exactly one engine:
    every call returns the handle of the first, and the calls after the
    first change nothing, neither the cache nor the trace.  The same holds
    of delegated requests tagged with the name and served one after the
    other: if the first gets its engine they start one engine between them
    and the handle of the first stays cached. *)
Theorem C4_ensure_spawns_once (env : Kernel.Env) (name : string)
    (st st1 : Kernel.State) (handle : string * nat) (n : nat) :
  Kernel._kernels st !! name = None ->
  Kernel.ensure env name st = (Returned handle, st1) ->
  (ensure_times env name (S n) st = (Returned (repeat handle (S n)), st1) /\
   spawns (Kernel.trace st1) = S (spawns (Kernel.trace st)) /\
   Kernel._kernels st1 !! name = Some handle /\
   ensure_times env name n st1 = (Returned (repeat handle n), st1)) /\
  (forall sched parent silent requests,
     name <> "" ->
     Kernel.binding_name parent = Some name ->
     dict_lookup (Kernel.request_content parent) "silent" = Some silent ->
     tagged name requests ->
     let st' := dispatch_all env ((sched, parent) :: requests) st in
     spawns (Kernel.trace st') = S (spawns (Kernel.trace st)) /\
     Kernel._kernels st' !! name = Some handle).
Proof.
  intros Hnew Hfirst.
  destruct (ensure_spawned env name handle st st1 Hnew Hfirst)
    as (binding & km & Hh & Htr & Hk & _).
  assert (Hcached : Kernel._kernels st1 !! name = Some handle).
  { rewrite Hk. apply lookup_insert_eq. }
  assert (Hone : spawns (Kernel.trace st1) = S (spawns (Kernel.trace st))).
  { rewrite Htr, spawns_app. cbn. lia. }
  pose proof (ensure_times_cached env name handle st1 n Hcached) as Hrest.
  split.
  - split; [|split; [|split]]; try done.
    cbn [ensure_times repeat]. rewrite bind_run, Hfirst, bind_run, Hrest. done.
  - intros sched parent silent requests Hne Hname Hsilent Htag st'.
    unfold st'. cbn [dispatch_all].
    destruct (Kernel.execute_request env sched parent st) as [o st2] eqn:Hrun.
    destruct (execute_request_after_ensure env sched parent name handle silent
                _ _ _ _ Hname Hne Hsilent Hfirst Hrun) as [Hk2 Hsp2].
    assert (Hc2 : Kernel._kernels st2 !! name = Some handle) by (by rewrite Hk2).
    destruct (dispatch_all_cached env name handle requests st2 Htag Hc2)
      as [Hc3 Hsp3].
    destruct o; rewrite ?Hsp3, ?Hsp2; done.
Qed.

Lemma C4_ensure_spawns_once_witness :
  exists st1,
    (ensure_times (Scenario.kernel_env None) "node1" 4 Scenario.empty_kernel
     = (Returned (repeat ("kernel-1", 0%nat) 4), st1) /\
     spawns (Kernel.trace st1) = S (spawns (Kernel.trace Scenario.empty_kernel)) /\
     Kernel._kernels st1 !! "node1" = Some ("kernel-1", 0%nat) /\
     ensure_times (Scenario.kernel_env None) "node1" 3 st1
     = (Returned (repeat ("kernel-1", 0%nat) 3), st1)) /\
    (forall sched parent silent requests,
       "node1" <> "" ->
       Kernel.binding_name parent = Some "node1" ->
       dict_lookup (Kernel.request_content parent) "silent" = Some silent ->
       tagged "node1" requests ->
       let st' := dispatch_all (Scenario.kernel_env None)
                    ((sched, parent) :: requests) Scenario.empty_kernel in
       spawns (Kernel.trace st') = S (spawns (Kernel.trace Scenario.empty_kernel)) /\
       Kernel._kernels st' !! "node1" = Some ("kernel-1", 0%nat)).
Proof.
  eexists.
  apply (C4_ensure_spawns_once (Scenario.kernel_env None) "node1"
           Scenario.empty_kernel _ ("kernel-1", 0%nat) 3).
  - reflexivity.
  - vm_compute. reflexivity.
Defined.

(** Three requests for one name, served in a row: one engine is started. *)
Example three_requests_one_engine :
  let request := (Scenario.completing Scenario.ok_reply,
                  Scenario.request_node1 [("silent", PyBool false)]) in
  let st' := dispatch_all (Scenario.kernel_env None) [request; request; request]
               Scenario.empty_kernel in
  spawns (Kernel.trace st') = 1%nat /\
  Kernel._kernels st' !! "node1" = Some ("kernel-1", 0%nat).
Proof. split; by vm_compute. Qed.


(** C10: [unpipe] empties the list of handlers of a channel, whatever it
    held.  So when a delegated request has been served, the call having
    returned, the control and the broadcast channel of the engine's client
    have no subscriber left: the two handlers of this request's proxy are
    gone and so is any handler that was piped before. *)
Theorem C10_unpipe_clears_every_handler (env : Kernel.Env)
    (sched : Kernel.Schedule) (parent : Kernel.Request) (name : string)
    (st st' : Kernel.State) :
  Kernel.binding_name parent = Some name -> name <> "" ->
  clients_known st ->
  Kernel.execute_request env sched parent st = (Returned tt, st') ->
  (forall ch : Kernel.HydraChannel, Kernel._pipes (Kernel.unpipe ch) = []) /\
  exists km kc client,
    Kernel._kernels st' !! name = Some (km, kc) /\
    Kernel.clients st' !! kc = Some client /\
    Kernel._pipes (Kernel.shell_channel client) = [] /\
    Kernel._pipes (Kernel.iopub_channel client) = [].
Proof.
  intros Hname Hne Hknown Hrun. split; [done|].
  rewrite (execute_request_tagged env sched parent name st Hname Hne) in Hrun.
  destruct (Kernel.route env sched parent name st)
    as [[[[silent stop_on_error] proxy]|e|] st1] eqn:Hroute; [|done|done].
  destruct (route_returned env sched parent name _ _ _ Hroute)
    as (silent' & km & kc & s1 & s2 & _ & Hensure & _ & Hwait & ->).
  destruct (ensure_returned env name km kc st s1 Hknown Hensure) as [Hcached Hclient].
  destruct (subscribed_spec sched parent kc s1) as [Hk1 Hc1].
  destruct (engines_eq _ _ (preserves_wait _ _ _ _ _ _ Hwait)) as [Hk2 Hc2].
  destruct (unsubscribed_spec sched kc s2) as [Hk3 Hc3].
  destruct (engines_eq _ _ (preserves_abort_policy _ _ _ _ _ _ Hrun)) as [Hk4 Hc4].
  destruct Hc3 as (client & Hlookup & Hshell & Hiopub).
  { rewrite Hc2. by apply Hc1. }
  exists km, kc, client. rewrite Hk4, Hc4.
  split; [by rewrite Hk3, Hk2, Hk1|]. done.
Qed.

Lemma C10_unpipe_clears_every_handler_witness :
  (forall ch : Kernel.HydraChannel, Kernel._pipes (Kernel.unpipe ch) = []) /\
  exists km kc client,
    Kernel._kernels
      (Kernel.execute_request (Scenario.kernel_env None)
         (Scenario.completing Scenario.ok_reply)
         (Scenario.request_node1 [("silent", PyBool false)])
         Scenario.stale_kernel).2
      !! "node1" = Some (km, kc) /\
    Kernel.clients
      (Kernel.execute_request (Scenario.kernel_env None)
         (Scenario.completing Scenario.ok_reply)
         (Scenario.request_node1 [("silent", PyBool false)])
         Scenario.stale_kernel).2
      !! kc = Some client /\
    Kernel._pipes (Kernel.shell_channel client) = [] /\
    Kernel._pipes (Kernel.iopub_channel client) = [].
Proof.
  apply (C10_unpipe_clears_every_handler (Scenario.kernel_env None)
           (Scenario.completing Scenario.ok_reply)
           (Scenario.request_node1 [("silent", PyBool false)])
           "node1" Scenario.stale_kernel).
  - reflexivity.
  - discriminate.
  - intros name km kc. unfold Scenario.stale_kernel. simpl.
    intros [_ [= _ <-]]%lookup_singleton_Some.
    by rewrite lookup_singleton_eq.
  - by vm_compute.
Defined.

(** ** The wait of the dispatcher *)

(** The loop ends at once when the reply is observable and true, and never
    when it is not and no message arrives any more. *)
Lemma wait_tests_reply_content (proxy kc : nat) (batches : list (list Kernel.Arrival))
    (st : Kernel.State) :
  (truthy (observed st proxy) = true ->
   Kernel.wait proxy kc batches st = (Returned tt, st)) /\
  (truthy (observed st proxy) = false ->
   Kernel.wait proxy kc [] st = (Blocked, st)).
Proof.
  split; intros Ht.
  - destruct batches; simpl; fold (observed st proxy); by rewrite Ht.
  - simpl. fold (observed st proxy). by rewrite Ht.
Qed.

(** With the idle status only, or the reply only, the dispatcher keeps
    waiting; with both, in either order, the request completes and the
    proxy holds the same payload. *)
Example route_either_order :
  let run sched :=
    Kernel.route (Scenario.kernel_env None) sched
      (Scenario.request_node1 [("silent", PyBool false)]) "node1" Scenario.empty_kernel in
  let only arrivals :=
    {| Kernel.before_pipes := []; Kernel.while_waiting := [arrivals];
       Kernel.on_flush := [] |} in
  (run (only [(Kernel.Iopub, idle_status)])).1 = Blocked /\
  (run (only [(Kernel.Shell, execute_reply Scenario.ok_reply)])).1 = Blocked /\
  (run (Scenario.idle_then_reply Scenario.ok_reply)).1
  = Returned (PyBool false, PyBool true, 0%nat) /\
  (run (Scenario.reply_then_idle Scenario.ok_reply)).1
  = Returned (PyBool false, PyBool true, 0%nat) /\
  observed (run (Scenario.idle_then_reply Scenario.ok_reply)).2 0 = Scenario.ok_reply /\
  observed (run (Scenario.reply_then_idle Scenario.ok_reply)).2 0 = Scenario.ok_reply /\
  Kernel.proxies (run (Scenario.idle_then_reply Scenario.ok_reply)).2
  = Kernel.proxies (run (Scenario.reply_then_idle Scenario.ok_reply)).2.
Proof. repeat split; by vm_compute. Qed.

(** ** Handlers behind a channel *)

Section DeliveryFacts.

Import Kernel.

(** On a client whose channels hold the two handlers of one proxy and
    nothing else, delivering a message is the proxy handling it: the store
    holds the proxy that [arrive] describes, the trace has grown by what
    the handler sent, and nothing else has changed. *)
Lemma deliver_arrive (kc proxy : nat) (client : HydraKernelClient)
    (self : ProxyComms) (a : Arrival) (st : State) :
  clients st !! kc = Some client ->
  _pipes (iopub_channel client) = [OnIopubMessage proxy] ->
  _pipes (shell_channel client) = [OnShellMessage proxy] ->
  proxies st !! proxy = Some self ->
  let st' := deliver kc a st in
  proxies st' = <[proxy := arrive self a]> (proxies st) /\
  trace st' = trace st ++ sent_during self [a] /\
  engines st' = engines st /\
  shell_streams st' = shell_streams st.
Proof.
  intros Hclient Hiopub Hshell Hself.
  destruct a as [[] m]; unfold deliver, call_handlers, arrive; cbn [fst snd].
  all: rewrite bind_run; cbn [get]; rewrite Hclient; cbn [channel].
  all: rewrite ?Hiopub, ?Hshell; cbn [for_each].
  all: change (bind ?c ?k) with (c ≫= k); rewrite bind_run.
  all: unfold invoke; rewrite bind_run; cbn [get]; rewrite Hself.
  all: cbn [sent_during fst snd]; rewrite app_nil_r.
  - destruct (on_shell_message self m) as [sent [e|self']];
      rewrite bind_run; cbn [emit modify raise ret set_trace set_proxies trace
                             proxies fst snd];
      repeat split; try done.
    by rewrite insert_id.
  - destruct (on_iopub_message self m) as [sent [e|self']];
      rewrite bind_run; cbn [emit modify raise ret set_trace set_proxies trace
                             proxies fst snd];
      repeat split; try done.
    by rewrite insert_id.
Qed.

(** So a run of deliveries is the run of the handlers on the proxy: what
    the dispatcher reads at the end depends on the interleaving of the two
    channels only as [arrive_all] does. *)
Lemma deliver_all_arrive_all (kc proxy : nat) (client : HydraKernelClient)
    (self : ProxyComms) (l : list Arrival) (st : State) :
  clients st !! kc = Some client ->
  _pipes (iopub_channel client) = [OnIopubMessage proxy] ->
  _pipes (shell_channel client) = [OnShellMessage proxy] ->
  proxies st !! proxy = Some self ->
  let st' := deliver_all kc l st in
  proxies st' = <[proxy := arrive_all self l]> (proxies st) /\
  trace st' = trace st ++ sent_during self l /\
  engines st' = engines st /\
  observed st' proxy = reply_content (arrive_all self l).
Proof.
  intros Hclient Hiopub Hshell. revert self st Hclient.
  induction l as [|a l IH]; intros self st Hclient Hself; cbv zeta.
  - cbn. rewrite app_nil_r, insert_id by done. unfold observed. by rewrite Hself.
  - cbn [deliver_all fold_left arrive_all sent_during].
    change (fold_left (fun st a => deliver kc a st) l ?s) with (deliver_all kc l s).
    change (fold_left arrive l ?p) with (arrive_all p l).
    destruct (deliver_arrive kc proxy client self a st Hclient Hiopub Hshell Hself)
      as (Hp & Htr & He & _).
    destruct (engines_eq _ _ He) as [_ Hc].
    destruct (IH (arrive self a) (deliver kc a st)) as (Hp' & Htr' & He' & Hobs).
    { by rewrite Hc. }
    { by rewrite Hp, lookup_insert_eq. }
    split; [by rewrite Hp', Hp, insert_insert_eq|].
    split; [|split; [by rewrite He'|done]].
    rewrite Htr', Htr. cbn [sent_during]. by rewrite app_nil_r, app_assoc.
Qed.

End DeliveryFacts.

(** * Further properties *)

(** ** The bootstrap agent, continued *)

Lemma string_app_cons (c : ascii) (s1 s2 : string) :
  String c s1 +:+ s2 = String c (s1 +:+ s2).
Proof. reflexivity. Qed.

Lemma string_app_assoc (s1 s2 s3 : string) :
  (s1 +:+ s2) +:+ s3 = s1 +:+ s2 +:+ s3.
Proof.
  induction s1 as [|c s1 IH]; [done|]. rewrite !string_app_cons. by rewrite IH.
Qed.

Lemma string_app_length (s1 s2 : string) :
  String.length (s1 +:+ s2) = (String.length s1 + String.length s2)%nat.
Proof.
  induction s1 as [|c s1 IH]; [done|]. rewrite string_app_cons. simpl. by rewrite IH.
Qed.

Lemma string_app_inv_head (s s1 s2 : string) : s +:+ s1 = s +:+ s2 -> s1 = s2.
Proof. apply String.app_inj. Qed.

Lemma string_app_inv_tail (s s1 s2 : string) : s1 +:+ s = s2 +:+ s -> s1 = s2.
Proof.
  revert s2. induction s1 as [|c s1 IH]; intros [|c' s2]; [done| | |].
  - intros H. apply (f_equal String.length) in H.
    rewrite string_app_cons in H. simpl in H.
    rewrite !string_app_length in H. simpl in H. lia.
  - intros H. apply (f_equal String.length) in H.
    rewrite string_app_cons in H. simpl in H.
    rewrite !string_app_length in H. simpl in H. lia.
  - rewrite !string_app_cons. intros [= -> H]. by rewrite (IH s2 H).
Qed.

(** While the file is absent and the clock within the timeout the loop goes
    on; the pass that finds the file ends it. *)
Lemma poll_loop_found (h : Agent.Host) (args : Agent.Args) (n : Z) (k fuel : nat) :
  Agent.timeout args = Agent.TimeoutInt n ->
  (forall j, (j < k)%nat -> Agent.path_exists h j = false) ->
  (forall j, (j < k)%nat -> (Agent.perf_counter h j - Agent.start h <= inject_Z n)%Q) ->
  Agent.path_exists h k = true ->
  Agent.poll_loop h args (S k + fuel) 0 = Some (inr tt).
Proof.
  intros Ht Habsent Hwithin Hfound.
  assert (Hgen : forall m i, (i + m = k)%nat ->
            Agent.poll_loop h args (S m + fuel) i = Some (inr tt)).
  { induction m as [|m IH]; intros i Him.
    - assert (i = k) as -> by lia. simpl. by rewrite Hfound.
    - change (S (S m) + fuel)%nat with (S (S m + fuel)).
      cbn [Agent.poll_loop].
      rewrite Habsent by lia. rewrite Ht. cbn [Agent.elapsed_gt].
      assert (Hle : Qle_bool (Agent.perf_counter h i - Agent.start h) (inject_Z n) = true).
      { apply Qle_bool_iff, Hwithin. lia. }
      rewrite Hle. cbn [negb]. apply IH. lia. }
  apply (Hgen k 0%nat). lia.
Qed.

(** X1: when the connection file is there at some pass of the loop, the
    default timeout not having elapsed at the passes before, the script
    ends normally, and what its two [print] calls have written is the
    process id, a newline, the str that [f.read()] returned for the
    connection file and a newline.  At the pass that finds the file the
    clock is not read. *)
Theorem agent_completes_when_file_appears (h : Agent.Host)
    (argv : Agent.CommandLine) (pid : N) (text : string) (k fuel : nat) :
  Agent.opt_timeout argv = None ->
  Agent.popen h (Agent.cmd_str h (Agent.parse_args argv)) = inr pid ->
  Agent.read_file h (Agent.connection_file h (Agent.parse_args argv)) = inr text ->
  (forall j, (j < k)%nat -> Agent.path_exists h j = false) ->
  (forall j, (j < k)%nat -> (Agent.perf_counter h j - Agent.start h <= 10)%Q) ->
  Agent.path_exists h k = true ->
  Agent.main h argv (S k + fuel)
  = Agent.Completed (str_of_N pid +:+ Agent.newline +:+ text +:+ Agent.newline).
Proof.
  intros Ht Hpopen Hread Habsent Hwithin Hfound.
  unfold Agent.main. rewrite Hpopen.
  rewrite (poll_loop_found h (Agent.parse_args argv) 10 k fuel); try done.
  - rewrite Hread. unfold Agent.print.
    change ("" +:+ str_of_N pid +:+ Agent.newline)
      with (str_of_N pid +:+ Agent.newline).
    by rewrite string_app_assoc.
  - unfold Agent.parse_args. cbn [Agent.timeout]. by rewrite Ht.
Qed.

Lemma agent_completes_when_file_appears_witness :
  Agent.main Scenario.ready_host (Scenario.agent_argv None) (6 + 4)
  = Agent.Completed
      (str_of_N 4242 +:+ Agent.newline +:+ Scenario.descriptor_text +:+ Agent.newline).
Proof.
  apply (agent_completes_when_file_appears Scenario.ready_host
           (Scenario.agent_argv None) 4242%N Scenario.descriptor_text 5 4).
  - reflexivity.
  - reflexivity.
  - reflexivity.
  - intros j Hj. do 5 (destruct j as [|j]; [reflexivity|]). lia.
  - intros j Hj. do 5 (destruct j as [|j]; [by vm_compute|]). lia.
  - reflexivity.
Defined.

Lemma poll_loop_ignores_poll (h : Agent.Host) (p : nat -> option Z)
    (args : Agent.Args) (fuel k : nat) :
  Agent.poll_loop (with_poll h p) args fuel k = Agent.poll_loop h args fuel k.
Proof.
  revert k. induction fuel as [|fuel IH]; intros k; [done|].
  cbn [Agent.poll_loop with_poll Agent.path_exists Agent.perf_counter Agent.start].
  destruct (Agent.path_exists h k); [done|].
  destruct (Agent.elapsed_gt _ _) as [e|[|]]; [done|done|apply IH].
Qed.

(** X2: what a run of the agent does, its output and the error it raises,
    is the same whatever the state of the launched process is and becomes:
    a process that has exited, with whatever status, is treated as one that
    is still running. *)
Theorem agent_outcome_ignores_process_state (h : Agent.Host) (p : nat -> option Z)
    (argv : Agent.CommandLine) (fuel : nat) :
  Agent.main (with_poll h p) argv fuel = Agent.main h argv fuel.
Proof.
  unfold Agent.main. rewrite poll_loop_ignores_poll. reflexivity.
Qed.

(** X3: with the default timeout, no connection file and a clock that
    advances by at most [g] between two readings, the agent fails at the
    first pass past ten seconds, so no later than [g] after the deadline,
    with a [TimeoutError] whose message names the log file exactly when
    logging to a file was asked for; it has printed nothing. *)
Theorem agent_default_timeout_expires (h : Agent.Host) (argv : Agent.CommandLine)
    (pid : N) (k fuel : nat) (g : Q) :
  Agent.opt_timeout argv = None ->
  Agent.popen h (Agent.cmd_str h (Agent.parse_args argv)) = inr pid ->
  (forall j, (j <= k)%nat -> Agent.path_exists h j = false) ->
  (forall j, (j < k)%nat -> (Agent.perf_counter h j - Agent.start h <= 10)%Q) ->
  (10 < Agent.perf_counter h k - Agent.start h)%Q ->
  (Agent.perf_counter h 0 - Agent.start h <= g)%Q ->
  (forall j, (Agent.perf_counter h (S j) - Agent.perf_counter h j <= g)%Q) ->
  Agent.main h argv (S k + fuel) =
    Agent.Failed ""
      (Exn TimeoutError
         (if Agent.log_to_file (Agent.parse_args argv)
          then "Failed to find connection file, did the kernel fail to start?"
               +:+ " See " +:+ Agent.log_file h (Agent.parse_args argv)
               +:+ " for details."
          else "Failed to find connection file, did the kernel fail to start?")) /\
  (Agent.perf_counter h k - Agent.start h <= 10 + g)%Q.
Proof.
  intros Ht Hpopen Habsent Hwithin Hpast Hfirst Hstep. split.
  - by apply (default_timeout_raises_TimeoutError h argv pid k fuel).
  - destruct k as [|k].
    + lra.
    + specialize (Hwithin k (Nat.lt_succ_diag_r k)). specialize (Hstep k). lra.
Qed.

Lemma agent_default_timeout_expires_witness :
  Agent.main (Scenario.silent_host None) (Scenario.agent_argv None) (101 + 0) =
    Agent.Failed ""
      (Exn TimeoutError
         (if Agent.log_to_file (Agent.parse_args (Scenario.agent_argv None))
          then "Failed to find connection file, did the kernel fail to start?"
               +:+ " See "
               +:+ Agent.log_file (Scenario.silent_host None)
                     (Agent.parse_args (Scenario.agent_argv None))
               +:+ " for details."
          else "Failed to find connection file, did the kernel fail to start?")) /\
  (Agent.perf_counter (Scenario.silent_host None) 100
   - Agent.start (Scenario.silent_host None) <= 10 + (1 # 10))%Q.
Proof.
  apply (agent_default_timeout_expires (Scenario.silent_host None)
           (Scenario.agent_argv None) 4242%N 100 0 (1 # 10)).
  - reflexivity.
  - reflexivity.
  - reflexivity.
  - intros j Hj. cbn [Scenario.silent_host Agent.perf_counter Agent.start].
    unfold Qle, Qminus, Qplus, Qopp. simpl. lia.
  - by vm_compute.
  - by vm_compute.
  - intros j. cbn [Scenario.silent_host Agent.perf_counter].
    unfold Qle, Qminus, Qplus, Qopp. simpl. lia.
Defined.

(** ** The files of an engine *)

Lemma path_join_kernel (dir name : string) :
  Agent.path_join dir ("kernel-" +:+ name)
  = directory_prefix dir +:+ "kernel-" +:+ name.
Proof.
  unfold Agent.path_join, directory_prefix.
  change ("kernel-" +:+ name) with (String "k" ("ernel-" +:+ name)).
  cbv iota beta.
  destruct (String.eqb dir ""); [done|].
  destruct (String.eqb _ "/"); [done|]. by rewrite string_app_assoc.
Qed.

(** X4: the connection file and the log file of an engine are named after
    its id and put in the runtime directory; two ids never share a
    connection file, and the log file of an engine is never its connection
    file. *)
Theorem agent_files_are_per_id (h : Agent.Host) (args args' : Agent.Args) :
  Agent.connection_file h args
    = directory_prefix (Agent.jupyter_runtime_dir h)
      +:+ "kernel-" +:+ Agent.id args +:+ ".json" /\
  Agent.log_file h args
    = directory_prefix (Agent.jupyter_runtime_dir h)
      +:+ "kernel-" +:+ Agent.id args +:+ ".log" /\
  (Agent.connection_file h args = Agent.connection_file h args' ->
   Agent.id args = Agent.id args') /\
  Agent.connection_file h args <> Agent.log_file h args.
Proof.
  unfold Agent.connection_file, Agent.log_file.
  rewrite !path_join_kernel. split; [done|]. split; [done|]. split.
  - intros H. apply string_app_inv_head, string_app_inv_head in H.
    by apply string_app_inv_tail in H.
  - intros H. do 3 apply string_app_inv_head in H. discriminate H.
Qed.

(** ** The kernel manager, continued *)

Section ManagerRuns.
Import Manager.
Variable env : Manager.Env.

Lemma manager_after_after (st : State) (evs1 evs2 : list Event) :
  manager_after (manager_after st evs1) evs2 = manager_after st (evs1 ++ evs2).
Proof. unfold manager_after. simpl. by rewrite <- app_assoc. Qed.

Lemma lift_Returned_inv {S A} (r : Exc A) (st st' : S) (a : A) :
  lift r st = (Returned a, st') -> r = inr a /\ st' = st.
Proof. destruct r; [done|]. by intros [= -> ->]. Qed.

Lemma manager_call_Returned_inv {A} (ev : Event) (answer : list Event -> Exc A)
    (st st' : State) (a : A) :
  Manager.call ev answer st = (Returned a, st') ->
  answer (trace st) = inr a /\ st' = manager_after st [ev].
Proof.
  rewrite manager_call_run. destruct (answer _); [done|]. by intros [= -> <-].
Qed.

Lemma lookup_or_install_returned (km : HydraKernelManager) (st st' : State) :
  lookup_or_install env km st = (Returned tt, st') ->
  let name := kernel_name km in
  exists spec, st' = manager_after st spec /\
    ((spec = [GetKernelSpec name] /\ get_kernel_spec env name (trace st) = None) \/
     (spec = [GetKernelSpec name; InstallKernelSpec name] /\
      exists e, get_kernel_spec env name (trace st) = Some e /\
                isinstance e NoSuchKernel = true /\
                install_kernel_spec env name (trace st ++ [GetKernelSpec name]) = None)).
Proof.
  rewrite lookup_or_install_run. cbv zeta.
  destruct (get_kernel_spec env _ _) as [e|] eqn:Hget.
  - destruct (isinstance e NoSuchKernel) eqn:Hcls; [|done].
    destruct (install_kernel_spec env _ _) eqn:Hinst; [done|].
    intros [= <-]. eexists. split; [done|]. right. split; [done|]. by exists e.
  - intros [= <-]. eexists. split; [done|]. by left.
Qed.

Lemma spawn_remote_returned (km : HydraKernelManager) (st st' : State) :
  spawn_remote env km st = (Returned tt, st') ->
  exists b code stdout stderr res info,
    _binding km = Some b /\
    exec env (spawn_command km) (trace st) = inr (code, stdout, stderr) /\
    Json.load (decoder env) stdout = inr res /\
    getitem res "connection" = inr info /\
    st' = manager_after st [Exec (spawn_command km); LoadConnectionInfo info].
Proof.
  unfold spawn_remote. fold (spawn_command km). intros H.
  apply bind_Returned_inv in H as ([] & s0 & Hb & H).
  apply lift_Returned_inv in Hb as [Hb ->].
  destruct (_binding km) as [b|]; [|done].
  apply bind_Returned_inv in H as ([[code stdout] stderr] & s1 & Hexec & H).
  apply manager_call_Returned_inv in Hexec as [Hexec ->].
  apply bind_Returned_inv in H as (res & s2 & Hload & H).
  apply lift_Returned_inv in Hload as [Hload ->].
  apply bind_Returned_inv in H as (info & s3 & Hget & H).
  apply lift_Returned_inv in Hget as [Hget ->].
  apply manager_call_Returned_inv in H as [_ ->].
  exists b, code, stdout, stderr, res, info.
  by rewrite manager_after_after.
Qed.

Lemma tunnel_ports_returned (km : HydraKernelManager) (st st' : State) :
  tunnel_ports env km st = (Returned tt, st') ->
  (tunnel km = false /\ st' = st) \/
  exists b, _binding km = Some b /\
    if tunnelled km b then
      exists p,
        tunnel_to_kernel env (get_connection_info env (trace st)) (sshserver b)
          (ssh_private_key_file b) (trace st ++ [GetConnectionInfo]) = inr p /\
        st' = manager_after st
                [GetConnectionInfo;
                 TunnelToKernel (get_connection_info env (trace st)) (sshserver b)
                   (ssh_private_key_file b);
                 AssignPorts p]
    else st' = st.
Proof.
  unfold tunnel_ports, needs_tunnel, tunnelled. intros H.
  apply bind_Returned_inv in H as (t & s0 & Ht & H).
  apply lift_Returned_inv in Ht as [Ht ->].
  destruct (tunnel km); [|injection Ht as <-; injection H as <-; by left].
  right. destruct (_binding km) as [b|]; [|done]. exists b. split; [done|].
  injection Ht as <-. simpl. destruct (negb (is_loopback b)).
  - apply bind_Returned_inv in H as (conn & s1 & Hconn & H).
    apply lift_Returned_inv in Hconn as [[= <-] ->].
    apply bind_Returned_inv in H as (info & s2 & Hinfo & H).
    apply manager_call_Returned_inv in Hinfo as [[= <-] ->].
    apply bind_Returned_inv in H as (p & s3 & Hcall & H).
    apply manager_call_Returned_inv in Hcall as [Hcall ->].
    apply manager_call_Returned_inv in H as [_ ->].
    exists p. by rewrite !manager_after_after.
  - by injection H as <-.
Qed.

(** A run of [pre_start_kernel] that returns, taken apart. *)
Lemma pre_start_kernel_returned (st st' : State) :
  pre_start_kernel env st = (Returned tt, st') ->
  let km := self st in
  let name := kernel_name km in
  exists b info spec code stdout stderr res tun,
    _binding km = Some b /\
    ((spec = [GetKernelSpec name] /\ get_kernel_spec env name (trace st) = None) \/
     (spec = [GetKernelSpec name; InstallKernelSpec name] /\
      exists e, get_kernel_spec env name (trace st) = Some e /\
                isinstance e NoSuchKernel = true /\
                install_kernel_spec env name (trace st ++ [GetKernelSpec name]) = None)) /\
    exec env (spawn_command km) (trace st ++ spec) = inr (code, stdout, stderr) /\
    Json.load (decoder env) stdout = inr res /\
    getitem res "connection" = inr info /\
    let loaded := trace st ++ spec ++ [Exec (spawn_command km); LoadConnectionInfo info] in
    (if tunnelled km b then
       exists p,
         tunnel_to_kernel env (get_connection_info env loaded) (sshserver b)
           (ssh_private_key_file b) (loaded ++ [GetConnectionInfo]) = inr p /\
         tun = [GetConnectionInfo;
                TunnelToKernel (get_connection_info env loaded) (sshserver b)
                  (ssh_private_key_file b);
                AssignPorts p]
     else tun = []) /\
    trace st' = loaded ++ tun ++ SuperPreStartKernel
                :: (if _kernel_spec km || String.eqb name "" then []
                    else [GetKernelSpec name]) /\
    self st' = if _kernel_spec km || String.eqb name "" then km else holding_spec km.
Proof.
  unfold pre_start_kernel. intros H.
  apply bind_Returned_inv in H as (s0 & s0' & [= <- <-] & H).
  apply bind_Returned_inv in H as ([] & s1 & Hspec & H).
  apply lookup_or_install_returned in Hspec as (spec & -> & Hspec).
  apply bind_Returned_inv in H as ([] & s2 & Hspawn & H).
  apply spawn_remote_returned in Hspawn
    as (b & code & stdout & stderr & res & info & Hb & Hexec & Hload & Hget & ->).
  apply bind_Returned_inv in H as ([] & s3 & Htun & H).
  rewrite manager_after_after in Htun.
  set (events := spec ++ [Exec (spawn_command (self st)); LoadConnectionInfo info]) in *.
  assert (Htunnel : exists tun,
            s3 = manager_after st (events ++ tun) /\
            if tunnelled (self st) b then
              exists p,
                tunnel_to_kernel env (get_connection_info env (trace st ++ events))
                  (sshserver b) (ssh_private_key_file b)
                  ((trace st ++ events) ++ [GetConnectionInfo]) = inr p /\
                tun = [GetConnectionInfo;
                       TunnelToKernel (get_connection_info env (trace st ++ events))
                         (sshserver b) (ssh_private_key_file b);
                       AssignPorts p]
            else tun = []).
  { apply tunnel_ports_returned in Htun as [[Ht ->]|(b' & Hb' & Htun)].
    - exists []. rewrite app_nil_r. split; [done|].
      unfold tunnelled. by rewrite Ht.
    - rewrite Hb in Hb'. injection Hb' as <-.
      destruct (tunnelled (self st) b).
      + destruct Htun as (p & Hp & ->). eexists. rewrite manager_after_after.
        split; [reflexivity|]. by exists p.
      + subst s3. exists []. by rewrite app_nil_r. }
  destruct Htunnel as (tun & -> & Htunnel).
  rewrite base_pre_start_kernel_run in H. cbv zeta in H.
  cbn [manager_after self trace] in H.
  exists b, info, spec, code, stdout, stderr, res, tun.
  split; [done|]. split; [done|]. split; [done|]. split; [done|]. split; [done|].
  cbv zeta. fold events. rewrite app_assoc. split; [done|].
  clear Hspec Hexec Htunnel. revert H.
  destruct (super_pre_start_kernel env _) as [e|]; [done|].
  destruct (_kernel_spec (self st) || String.eqb (kernel_name (self st)) "").
  - intros [= _ <-]. cbn [manager_after self trace].
    by rewrite <- !app_assoc.
  - destruct (get_kernel_spec env _ _) as [e|]; [done|].
    intros [= _ <-]. cbn [manager_after self trace].
    by rewrite <- !app_assoc.
Qed.

Lemma emits_weaken {S Ev A : Type} (tr : S -> list Ev) (P Q : Ev -> Prop) (c : M S A) :
  (forall ev, P ev -> Q ev) -> emits tr P c -> emits tr Q c.
Proof.
  intros HPQ Hc st o st' Hrun. destruct (Hc _ _ _ Hrun) as (evs & Htr & Hevs).
  exists evs. split; [done|]. by apply (Forall_impl _ _ _ Hevs).
Qed.

(** After the first statement nothing is installed. *)
Lemma after_lookup_emits (km : HydraKernelManager) :
  emits trace (fun ev => is_install ev = false)
    (spawn_remote env km;; tunnel_ports env km;; base_pre_start_kernel env).
Proof.
  assert (Hspec : forall ev, is_spec_event ev = false -> is_install ev = false).
  { by intros []. }
  apply emits_bind; [apply (emits_weaken _ _ _ _ Hspec), spawn_remote_emits | intros _].
  apply emits_bind; [apply (emits_weaken _ _ _ _ Hspec), tunnel_ports_emits | intros _].
  intros st o st'. rewrite base_pre_start_kernel_run. cbv zeta.
  destruct (super_pre_start_kernel env _) as [e|].
  { intros [= <- <-]. exists [SuperPreStartKernel]. by repeat constructor. }
  destruct (_kernel_spec (self st) || String.eqb (kernel_name (self st)) "").
  { intros [= <- <-]. exists [SuperPreStartKernel]. by repeat constructor. }
  destruct (get_kernel_spec env _ _) as [e|]; intros [= <- <-];
    exists [SuperPreStartKernel; GetKernelSpec (kernel_name (self st))];
    cbn [manager_after trace]; rewrite <- ?app_assoc; by repeat constructor.
Qed.

Lemma spawn_remote_with_exit (km : HydraKernelManager) (code : Z) (stderr : string)
    (st : State) :
  spawn_remote (with_exit env code stderr) km st = spawn_remote env km st.
Proof.
  unfold spawn_remote. rewrite !bind_run.
  destruct (_binding km) as [b|]; [|done]. cbn [lift ret].
  rewrite !bind_run, !manager_call_run. cbn [exec with_exit].
  by destruct (exec env _ _) as [e|[[c out] err]].
Qed.

End ManagerRuns.



(** The same run, evaluated. *)
Example tunnelled_start :
  Manager.pre_start_kernel (tunnel_env false) remote_state
  = (Returned tt,
     {| Manager.self := holding_spec (Manager.self remote_state);
        Manager.trace :=
          [Manager.GetKernelSpec "python3"; Manager.InstallKernelSpec "python3";
           Manager.Exec "hydra spawn k2 python3";
           Manager.LoadConnectionInfo
             (PyDict [("shell_port", PyInt 5001); ("key", PyStr "k")]);
           Manager.GetConnectionInfo;
           Manager.TunnelToKernel
             (PyDict [("transport", PyStr "tcp"); ("ip", PyStr "127.0.0.1");
                      ("shell_port", PyInt 5001); ("iopub_port", PyInt 0);
                      ("stdin_port", PyInt 0); ("hb_port", PyInt 0);
                      ("control_port", PyInt 0)])
             "cc@10.0.0.5" (Some "/home/cc/.ssh/id_rsa");
           Manager.AssignPorts
             {| Manager.shell_port := 6001; Manager.iopub_port := 6002;
                Manager.stdin_port := 6003; Manager.hb_port := 6004;
                Manager.control_port := 6005 |};
           Manager.SuperPreStartKernel; Manager.GetKernelSpec "python3"] |}).
Proof. by vm_compute. Qed.



(** X7: [pre_start_kernel] begins with the lookup of the kernel spec, and
    installs the spec if and only if that lookup raised [NoSuchKernel] (or
    an exception of a subclass).  A lookup that raises anything else ends
    the call with that exception: nothing is installed and no command is
    run on the remote side. *)
Theorem install_only_when_spec_missing (env : Manager.Env) (st st' : Manager.State)
    (o : outcome unit) :
  Manager.pre_start_kernel env st = (o, st') ->
  let name := Manager.kernel_name (Manager.self st) in
  exists evs,
    Manager.trace st' = Manager.trace st ++ Manager.GetKernelSpec name :: evs /\
    ((exists n, In (Manager.InstallKernelSpec n) evs) <->
     exists e, Manager.get_kernel_spec env name (Manager.trace st) = Some e /\
               isinstance e NoSuchKernel = true) /\
    (forall e, Manager.get_kernel_spec env name (Manager.trace st) = Some e ->
               isinstance e NoSuchKernel = false -> o = Raised e /\ evs = []).
Proof.
  intros H name. revert H. unfold Manager.pre_start_kernel.
  rewrite bind_run. cbn [get]. rewrite bind_run, lookup_or_install_run.
  cbv zeta. fold name.
  pose proof (after_lookup_emits env (Manager.self st)) as Hrest.
  assert (Hno : forall evs, Forall (fun ev => is_install ev = false) evs ->
                  ~ exists n, In (Manager.InstallKernelSpec n) evs).
  { intros evs Hevs [n Hn]. rewrite List.Forall_forall in Hevs.
    by specialize (Hevs _ Hn). }
  destruct (Manager.get_kernel_spec env name (Manager.trace st)) as [e|].
  - destruct (isinstance e NoSuchKernel) eqn:Hcls.
    + destruct (Manager.install_kernel_spec env _ _) as [e'|].
      * intros [= <- <-]. exists [Manager.InstallKernelSpec name]. split; [done|].
        split; [|by intros e0 [= <-]; congruence].
        split; [by exists e | intros _; exists name; by left].
      * intros Hrun. destruct (Hrest _ _ _ Hrun) as (evs & Htr & Hevs).
        exists (Manager.InstallKernelSpec name :: evs).
        split; [by rewrite Htr; simpl; rewrite <- app_assoc|].
        split; [|by intros e0 [= <-]; congruence].
        split; [by exists e | intros _; exists name; by left].
    + intros [= <- <-]. exists []. split; [done|].
      split; [|by intros e0 [= <-]].
      split; [by intros [n []] | intros (e0 & [= <-] & He0); congruence].
  - intros Hrun. destruct (Hrest _ _ _ Hrun) as (evs & Htr & Hevs).
    exists evs. split; [by rewrite Htr; simpl; rewrite <- app_assoc|].
    split; [|done].
    split; [intros Hin; by destruct (Hno evs Hevs) | by intros (e0 & He0 & _)].
Qed.

Lemma install_only_when_spec_missing_witness :
  exists evs,
    Manager.trace (Manager.pre_start_kernel (tunnel_env false) remote_state).2
    = Manager.trace remote_state ++ Manager.GetKernelSpec "python3" :: evs /\
    ((exists n, In (Manager.InstallKernelSpec n) evs) <->
     exists e, Manager.get_kernel_spec (tunnel_env false) "python3"
                 (Manager.trace remote_state) = Some e /\
               isinstance e NoSuchKernel = true) /\
    (forall e, Manager.get_kernel_spec (tunnel_env false) "python3"
                 (Manager.trace remote_state) = Some e ->
               isinstance e NoSuchKernel = false ->
               (Manager.pre_start_kernel (tunnel_env false) remote_state).1 = Raised e /\
               evs = []).
Proof.
  apply (install_only_when_spec_missing (tunnel_env false) remote_state
           (Manager.pre_start_kernel (tunnel_env false) remote_state).2
           (Manager.pre_start_kernel (tunnel_env false) remote_state).1).
  by vm_compute.
Defined.

(** X8: the exit status and the error output of the remote command play no
    part in [pre_start_kernel]: with any other status and error output in
    their place the call does the same and ends the same.  A command that
    failed is told from one that succeeded by what it printed only. *)
Theorem pre_start_kernel_ignores_exit_code (env : Manager.Env) (code : Z)
    (stderr : string) (st : Manager.State) :
  Manager.pre_start_kernel (with_exit env code stderr) st
  = Manager.pre_start_kernel env st.
Proof.
  unfold Manager.pre_start_kernel. rewrite !bind_run. cbn [get].
  rewrite !bind_run.
  change (Manager.lookup_or_install (with_exit env code stderr))
    with (Manager.lookup_or_install env).
  destruct (Manager.lookup_or_install env (Manager.self st) st) as [[[]|e|] s1];
    [|done|done].
  rewrite !bind_run, spawn_remote_with_exit.
  by destruct (Manager.spawn_remote env (Manager.self st) s1) as [[[]|e|] s2].
Qed.

(** ** The comm of the front end *)

Section CommFacts.

Import Comms.

Variable env : Comms.Env.

Lemma comm_call_run {A} (ev : Event) (answer : list Event -> Exc A) (st : State) :
  Comms.call ev answer st =
  (match answer (trace st) with inl e => Raised e | inr a => Returned a end,
   comm_after st [ev]).
Proof. unfold Comms.call, comm_after. by destruct (answer _). Qed.

Lemma comm_after_nil (st : State) : comm_after st [] = st.
Proof. unfold comm_after. destruct st. simpl. by rewrite app_nil_r. Qed.

(** The registration of a comm, evaluated. *)
Lemma register_banana_run (comm : nat) (message : pyval) (st : State) :
  register_banana comm message st =
  (Returned tt,
   {| trace := trace st; _comm := Some comm;
      listening := {[comm]} ∪ match _comm st with
                              | Some old => listening st ∖ {[old]}
                              | None => listening st
                              end |}).
Proof. unfold register_banana. rewrite bind_run. cbn [get]. by destruct (_comm st). Qed.

Lemma on_binding_change_run (binding : Manager.Binding) (change : pyval) (st : State) :
  exists o,
    on_binding_change env binding change st =
    (o, comm_after st
          match _comm st with
          | Some comm =>
              [CommSend comm (PyDict [("event", PyStr "binding_update");
                                      ("binding", as_dict env binding)])]
          | None => []
          end) /\ o <> Blocked.
Proof.
  unfold on_binding_change. rewrite bind_run. cbn [get].
  destruct (_comm st) as [comm|].
  - rewrite comm_call_run. eexists. split; [done|]. by destruct (unit_answer _).
  - exists (Returned tt). by rewrite comm_after_nil.
Qed.

(** The handler of the comm's messages, case by case. *)
Lemma on_comm_msg_run (message : dict) (st : State) :
  exists o,
    on_comm_msg env message st =
    (o, comm_after st
          match _comm st with
          | Some comm =>
              if is_list_request message
              then [BindingManagerList;
                    CommSend comm (binding_list_reply env (trace st))]
              else []
          | None => []
          end) /\
    o <> Blocked /\
    (requested_event message = None -> exists e, o = Raised e) /\
    (is_list_request message = true -> forall comm, _comm st = Some comm ->
       o = match comm_send env comm (binding_list_reply env (trace st))
                   (trace st ++ [BindingManagerList]) with
           | Some e => Raised e
           | None => Returned tt
           end) /\
    (requested_event message <> None -> is_list_request message = false ->
     o = Returned tt).
Proof.
  unfold on_comm_msg, is_list_request, requested_event. rewrite bind_run.
  destruct (dict_get message "content" (PyDict [])) as [| | | | | |content];
    cbn [get_method lift raise ret].
  1-6: eexists; rewrite <- (comm_after_nil st) at 1;
       (split; [by destruct (_comm st)|]); split; [done|];
       split; [by eexists|]; split; [done|]; done.
  rewrite bind_run.
  destruct (dict_get content "data" (PyDict [])) as [| | | | | |data];
    cbn [getitem lift raise ret].
  1-6: eexists; rewrite <- (comm_after_nil st) at 1;
       (split; [by destruct (_comm st)|]); split; [done|];
       split; [by eexists|]; split; [done|]; done.
  unfold dict_getitem.
  destruct (dict_lookup data "event") as [event|]; cbn [lift raise ret].
  2:{ eexists; rewrite <- (comm_after_nil st) at 1;
      (split; [by destruct (_comm st)|]); split; [done|];
      split; [by eexists|]; split; [done|]; done. }
  destruct (eq_str event "binding_list_request").
  - rewrite bind_run. cbn [get].
    destruct (_comm st) as [comm|].
    + rewrite bind_run, comm_call_run. rewrite comm_call_run.
      unfold comm_after, binding_list_reply. cbn [trace _comm listening].
      rewrite <- app_assoc. cbn [app].
      eexists. split; [done|].
      split; [by destruct (comm_send env _ _ _)|].
      split; [done|]. split; [|done].
      intros _ c [= <-]. by destruct (comm_send env _ _ _).
    + exists (Returned tt). rewrite comm_after_nil. by repeat split.
  - exists (Returned tt). rewrite <- (comm_after_nil st) at 1.
    split; [by destruct (_comm st)|]. by repeat split.
Qed.

Lemma handle_msg_run (comm : nat) (message : dict) (st : State) :
  handle_msg env comm message st =
  if bool_decide (comm ∈ listening st) then on_comm_msg env message st
  else (Returned tt, st).
Proof. unfold handle_msg. rewrite bind_run. cbn [get]. by destruct (bool_decide _). Qed.

(** The comm the kernel holds is the one whose callback is set, whatever
    happens. *)
Lemma dispatch_one_listener (a : Action) (st : State) :
  one_listener st -> one_listener (dispatch env a st).2.
Proof.
  unfold one_listener. intros Hinv. destruct a as [comm message|binding change|comm message];
    cbn [dispatch].
  - rewrite register_banana_run. cbn. rewrite Hinv.
    destruct (_comm st) as [old|]; [rewrite difference_diag_L|]; apply union_empty_r_L.
  - by destruct (on_binding_change_run binding change st) as (o & -> & _).
  - rewrite handle_msg_run. destruct (bool_decide _); [|done].
    by destruct (on_comm_msg_run message st) as (o & -> & _).
Qed.

Lemma dispatch_comm (a : Action) (st : State) :
  _comm (dispatch env a st).2 =
  match a with CommOpen comm _ => Some comm | _ => _comm st end.
Proof.
  destruct a as [comm message|binding change|comm message]; cbn [dispatch].
  - by rewrite register_banana_run.
  - by destruct (on_binding_change_run binding change st) as (o & -> & _).
  - rewrite handle_msg_run. destruct (bool_decide _); [|done].
    by destruct (on_comm_msg_run message st) as (o & -> & _).
Qed.

Lemma run_app (l1 l2 : list Action) (st : State) :
  run env (l1 ++ l2) st = run env l2 (run env l1 st).
Proof. apply fold_left_app. Qed.

Lemma last_opened_app (l1 l2 : list Action) :
  last_opened (l1 ++ l2) =
  match last_opened l2 with Some c => Some c | None => last_opened l1 end.
Proof.
  induction l1 as [|a l1 IH]; simpl; [by destruct (last_opened l2)|].
  rewrite IH. by destruct (last_opened l2).
Qed.

Lemma run_invariant (actions : list Action) :
  let st := run env actions initial in
  _comm st = last_opened actions /\ one_listener st.
Proof.
  induction actions as [|a actions IH] using rev_ind; [done|].
  cbv zeta in *. rewrite run_app, last_opened_app. destruct IH as [Hc Hinv].
  cbn [run fold_left]. split; [|by apply dispatch_one_listener].
  rewrite dispatch_comm, Hc. by destruct a.
Qed.

End CommFacts.

(** X9: whatever the front end and the binding manager do, in whatever
    order, the kernel holds the comm that was opened last and that comm is
    the only one whose message callback is the kernel's handler:
    [register_banana] takes the handler off the comm it replaces. *)
Theorem only_latest_comm_listens (env : Comms.Env) (actions : list Comms.Action) :
  let st := Comms.run env actions Comms.initial in
  Comms._comm st = last_opened actions /\
  Comms.listening st =
    match last_opened actions with Some c => {[c]} | None => ∅ end.
Proof.
  intros st. destruct (run_invariant env actions) as [Hc Hinv]. fold st in Hc, Hinv.
  split; [done|]. unfold one_listener in Hinv. by rewrite Hinv, Hc.
Qed.

(** X10: every message the kernel sends on this side, a binding update or
    a list of bindings, goes to the comm opened last at that time; before a
    comm is opened nothing is sent, a request that arrives on a comm that
    has been replaced is not answered, and the opening of a comm sends
    nothing. *)
Theorem comm_traffic_goes_to_latest (env : Comms.Env) (pre : list Comms.Action)
    (a : Comms.Action) :
  exists evs,
    Comms.trace (Comms.run env (pre ++ [a]) Comms.initial)
    = Comms.trace (Comms.run env pre Comms.initial) ++ evs /\
    Forall (sent_to (last_opened pre)) evs /\
    (forall c message, a = Comms.CommMsg c message -> last_opened pre <> Some c ->
       evs = []) /\
    (forall c message, a = Comms.CommOpen c message -> evs = []).
Proof.
  rewrite run_app. cbn [Comms.run fold_left].
  destruct (run_invariant env pre) as [Hc Hinv]. cbv zeta in Hc, Hinv.
  set (st := Comms.run env pre Comms.initial) in *.
  unfold one_listener in Hinv. rewrite Hc in Hinv.
  destruct a as [comm message|binding change|comm message]; cbn [Comms.dispatch].
  - rewrite register_banana_run. exists []. cbn. rewrite app_nil_r. by repeat split.
  - destruct (on_binding_change_run env binding change st) as (o & -> & _).
    eexists. split; [done|]. rewrite Hc.
    split; [|done]. destruct (last_opened pre); by repeat constructor.
  - rewrite handle_msg_run.
    destruct (bool_decide (comm ∈ Comms.listening st)) eqn:Hin.
    + apply bool_decide_eq_true_1 in Hin. rewrite Hinv in Hin.
      destruct (on_comm_msg_run env message st) as (o & -> & _).
      eexists. split; [done|]. rewrite Hc.
      destruct (last_opened pre) as [c|]; [|by apply not_elem_of_empty in Hin].
      apply elem_of_singleton in Hin as ->.
      split; [destruct (is_list_request message); by repeat constructor|].
      split; [by intros c' m [= <- _] | done].
    + exists []. cbn. rewrite app_nil_r. by repeat split.
Qed.

(** X11: [on_comm_msg] answers a message if and only if the data of its
    content names the event [binding_list_request] and the kernel holds a
    comm; the answer is one message on that comm, the [binding_list_reply]
    with every binding of the manager as a dict, in the manager's order.
    A message with another event is ignored; one whose content has no data
    dict with an event (the content or the data missing, or no dict) makes
    the handler raise, nothing being sent. *)
Theorem on_comm_msg_answers_list_requests (env : Comms.Env) (message : dict)
    (st : Comms.State) :
  exists o evs,
    Comms.on_comm_msg env message st = (o, comm_after st evs) /\
    o <> Blocked /\
    (evs <> [] <-> is_list_request message = true /\ Comms._comm st <> None) /\
    (forall comm, is_list_request message = true -> Comms._comm st = Some comm ->
       evs = [Comms.BindingManagerList;
              Comms.CommSend comm (binding_list_reply env (Comms.trace st))]) /\
    (requested_event message = None -> exists e, o = Raised e) /\
    (requested_event message <> None -> is_list_request message = false ->
     o = Returned tt).
Proof.
  destruct (on_comm_msg_run env message st) as (o & Hrun & Ho & Hnone & _ & Hother).
  eexists o, _. split; [exact Hrun|]. split; [done|].
  split; [|split; [|done]].
  - destruct (Comms._comm st) as [comm|]; [|split; [done|by intros [_ ?]]].
    destruct (is_list_request message); split; try done. by intros [? _].
  - intros comm -> ->. done.
Qed.

(** ** The message proxy, continued *)

Section ProxyRuns.

Import Kernel.

Lemma arrive_parent (self : ProxyComms) (a : Arrival) :
  parent (arrive self a) = parent self.
Proof.
  destruct a as [[] m].
  - rewrite arrive_shell. by destruct (String.eqb _ _).
  - by destruct (arrive_iopub self m) as [-> | ->].
Qed.

Lemma handler_forwards (self : ProxyComms) (a : Arrival) :
  fst (match fst a with
       | Iopub => on_iopub_message self (snd a)
       | Shell => on_shell_message self (snd a)
       end) = forwarded self a.
Proof.
  destruct a as [[] m]; unfold forwarded; cbn [fst snd].
  - unfold on_shell_message.
    destruct (String.eqb (msg_type m) "execute_request"); [done|].
    by destruct (String.eqb (msg_type m) "execute_reply").
  - unfold on_iopub_message. destruct (String.eqb _ _); [|done].
    destruct (getitem _ _) as [e|v]; [done|]. by destruct (eq_str v "idle").
Qed.

Lemma forwarded_arrive (self : ProxyComms) (a b : Arrival) :
  forwarded (arrive self a) b = forwarded self b.
Proof.
  unfold forwarded. destruct (arrive_sinks self a) as [-> ->].
  by rewrite arrive_parent.
Qed.

Lemma arrive_flags (self : ProxyComms) (a : Arrival) :
  _kernel_idle (arrive self a) = _kernel_idle self || is_idle_status a /\
  _reply_content (arrive self a) = default (_reply_content self) (last_reply [a]).
Proof.
  destruct a as [[] m]; unfold is_idle_status; cbn [fst snd last_reply].
  - rewrite arrive_shell, orb_false_r.
    by destruct (String.eqb (msg_type m) "execute_reply").
  - unfold arrive, on_iopub_message. cbn [fst snd].
    destruct (String.eqb (msg_type m) "status"); [|by rewrite orb_false_r].
    destruct (getitem _ _) as [e|v]; cbn [snd andb]; [by rewrite orb_false_r|].
    destruct (eq_str v "idle"); cbn; [by rewrite orb_true_r | by rewrite orb_false_r].
Qed.

Lemma arrive_all_flags (self : ProxyComms) (l : list Arrival) :
  _kernel_idle (arrive_all self l) = _kernel_idle self || existsb is_idle_status l /\
  _reply_content (arrive_all self l) = default (_reply_content self) (last_reply l).
Proof.
  revert self. induction l as [|a l IH]; intros self.
  - cbn. by rewrite orb_false_r.
  - cbn [arrive_all fold_left existsb].
    change (fold_left arrive l ?p) with (arrive_all p l).
    destruct (IH (arrive self a)) as [-> ->].
    destruct (arrive_flags self a) as [-> ->].
    split; [by rewrite orb_assoc|].
    cbn [last_reply]. by destruct (last_reply l).
Qed.

End ProxyRuns.

(** X12: what the proxy sends while it handles a run of messages is what
    each message calls for by itself, in the order of arrival: a broadcast
    message goes once to the caller's broadcast socket, a control message
    once to each of the caller's control streams in their order and, if it
    is an [execute_request], nowhere; type, content and metadata are passed
    on unchanged under the request being served.  Nothing of it depends on
    what the proxy has handled before, nor on the handler raising after it
    has sent. *)
Theorem proxy_forwards_each_message (self : Kernel.ProxyComms)
    (l : list Kernel.Arrival) :
  sent_during self l = flat_map (forwarded self) l.
Proof.
  revert self. induction l as [|a l IH]; intros self; [done|].
  cbn [sent_during flat_map]. rewrite handler_forwards, IH. f_equal.
  apply flat_map_ext. intros b. apply forwarded_arrive.
Qed.

(** X13: after any run of messages a new proxy shows [None] as long as no
    idle status has arrived on the broadcast channel; once one has, at any
    point of the run, it shows the content of the last [execute_reply] of
    the control channel: a later reply replaces an earlier one. *)
Theorem observable_reply_is_last_reply (parent : Kernel.Request) (iopub : Kernel.Sink)
    (shells : list Kernel.Sink) (l : list Kernel.Arrival) :
  Kernel.reply_content (arrive_all (Kernel.new_ProxyComms parent iopub shells) l)
  = if existsb is_idle_status l then default PyNone (last_reply l) else PyNone.
Proof.
  unfold Kernel.reply_content.
  destruct (arrive_all_flags (Kernel.new_ProxyComms parent iopub shells) l) as [-> ->].
  cbn. by destruct (existsb is_idle_status l).
Qed.

(** ** The dispatcher, continued *)

Section WaitFacts.

Import Kernel.

Variable env : Kernel.Env.

(** A message on a client with nothing piped is dropped. *)
Lemma deliver_unpiped (kc : nat) (client : HydraKernelClient) (a : Arrival) (st : State) :
  clients st !! kc = Some client ->
  _pipes (shell_channel client) = [] -> _pipes (iopub_channel client) = [] ->
  deliver kc a st = st.
Proof.
  intros Hclient Hs Hi. unfold deliver, call_handlers. rewrite bind_run. cbn [get].
  rewrite Hclient. destruct a as [[] m]; cbn [channel fst snd]; by rewrite ?Hs, ?Hi.
Qed.

Lemma deliver_all_unpiped (kc : nat) (client : HydraKernelClient) (l : list Arrival)
    (st : State) :
  clients st !! kc = Some client ->
  _pipes (shell_channel client) = [] -> _pipes (iopub_channel client) = [] ->
  deliver_all kc l st = st.
Proof.
  intros Hclient Hs Hi. induction l as [|a l IH]; [done|].
  cbn [deliver_all fold_left]. by rewrite (deliver_unpiped kc client a st).
Qed.

(** With the two handlers of one proxy piped and nothing else, the wait
    ends exactly when the proxy shows a reply at one of its tests. *)
Lemma wait_completes (proxy kc : nat) (client : HydraKernelClient)
    (batches : list (list Arrival)) (self : ProxyComms) (st : State) :
  clients st !! kc = Some client ->
  _pipes (iopub_channel client) = [OnIopubMessage proxy] ->
  _pipes (shell_channel client) = [OnShellMessage proxy] ->
  proxies st !! proxy = Some self ->
  exists st',
    wait proxy kc batches st
    = (if completes self batches then Returned tt else Blocked, st').
Proof.
  intros Hclient Hi Hs. revert self st Hclient.
  induction batches as [|batch batches IH]; intros self st Hclient Hself;
    cbn [wait completes]; rewrite Hself.
  - rewrite orb_false_r. destruct (truthy (reply_content self)); eauto.
  - destruct (truthy (reply_content self)); [eauto|]. cbn [orb].
    destruct (deliver_all_arrive_all kc proxy client self batch st Hclient Hi Hs Hself)
      as (Hp & _ & He & _).
    destruct (engines_eq _ _ He) as [_ Hc].
    apply (IH (arrive_all self batch)).
    + by rewrite Hc.
    + by rewrite Hp, lookup_insert_eq.
Qed.

(** [route] once the engine is there: its wait decides how it ends. *)
Lemma route_run (sched : Schedule) (parent : Request) (name : string)
    (silent : pyval) (km : string) (kc : nat) (st s1 : State) :
  dict_lookup (request_content parent) "silent" = Some silent ->
  ensure env name st = (Returned (km, kc), s1) ->
  route env sched parent name st =
  match wait (fresh_place (proxies s1)) kc (while_waiting sched)
             (subscribed sched parent kc s1) with
  | (Returned _, s2) =>
      (Returned (silent, dict_get (request_content parent) "stop_on_error" (PyBool true),
                 fresh_place (proxies s1)),
       unsubscribed sched kc s2)
  | (Raised e, s2) => (Raised e, s2)
  | (Blocked, s2) => (Blocked, s2)
  end.
Proof.
  intros Hsilent Hensure. unfold route, dict_getitem.
  rewrite bind_run, Hsilent. cbn [lift ret]. rewrite bind_run, Hensure.
  rewrite bind_run. cbn [get].
  do 5 (rewrite bind_run; cbn [modify emit update_channel]).
  rewrite bind_run. unfold subscribed, kernel_after, update_channel. cbn [modify snd].
  destruct (wait _ _ _ _) as [[[]|e|] s2]; [|done|done].
  do 4 (rewrite bind_run; cbn [modify emit update_channel]).
  done.
Qed.

End WaitFacts.

Section CompletionFacts.

Import Kernel.

Variable env : Kernel.Env.

(** The state in which the wait begins when the client had nothing piped:
    what arrived before the pipes is lost, the channels hold the two
    handlers of the new proxy and nothing else. *)
Lemma subscribed_unpiped (sched : Schedule) (parent : Request) (kc : nat)
    (client : HydraKernelClient) (st : State) :
  clients st !! kc = Some client ->
  _pipes (shell_channel client) = [] -> _pipes (iopub_channel client) = [] ->
  let proxy := fresh_place (proxies st) in
  clients (subscribed sched parent kc st) !! kc
  = Some {| shell_channel := {| _pipes := [OnShellMessage proxy] |};
            iopub_channel := {| _pipes := [OnIopubMessage proxy] |} |} /\
  proxies (subscribed sched parent kc st) !! proxy
  = Some (new_ProxyComms parent IopubSocket (shell_streams st)).
Proof.
  intros Hclient Hs Hi proxy. unfold subscribed. cbv zeta. fold proxy.
  rewrite (deliver_all_unpiped kc client) by done.
  unfold update_channel, kernel_after.
  cbn [modify snd set_clients set_proxies set_trace clients proxies].
  rewrite Hclient, lookup_insert_eq, lookup_insert_eq, lookup_insert_eq.
  unfold pipe. cbn. by rewrite Hs, Hi.
Qed.

End CompletionFacts.

(** An engine that answers before the handlers are piped is never heard:
    the request does not return. *)
Example early_reply_is_lost :
  (Kernel.execute_request (Scenario.kernel_env None) early_reply
     (Scenario.request_node1 [("silent", PyBool false)]) Scenario.empty_kernel).1
  = Blocked.
Proof. by vm_compute. Qed.

Lemma spawn_kernel_keeps_cache (env : Kernel.Env) (binding : Manager.Binding)
    (st : Kernel.State) :
  Kernel._kernels (Kernel.spawn_kernel env binding st).2 = Kernel._kernels st.
Proof.
  rewrite spawn_kernel_run. cbv zeta. unfold teardown.
  destruct (Kernel.start_kernel env _ _ _) as [e|km]; [done|].
  destruct (Kernel.client env km _) as [e|].
  { by destruct (isinstance e RuntimeError). }
  destruct (Kernel.start_channels env _ _) as [e|]; [|done].
  by destruct (isinstance e RuntimeError).
Qed.

(** X15: [spawn_kernel] begins with the start of the engine; when that
    fails nothing else is done.  Afterwards it shuts the engine down if and
    only if [km.client()] or the start of the channels raised a
    [RuntimeError] (or an exception of a subclass); a call that returns has
    shut nothing down. *)
Theorem spawn_kernel_shuts_down_iff_runtime_error (env : Kernel.Env)
    (binding : Manager.Binding) (st : Kernel.State) :
  let run := Kernel.spawn_kernel env binding st in
  exists evs,
    Kernel.trace run.2
    = Kernel.trace st ++ Kernel.StartKernel (Manager.kernel binding) binding :: evs /\
    existsb is_shutdown evs =
      match Kernel.start_kernel env (Manager.kernel binding) binding (Kernel.trace st) with
      | inr km => runtime_error_after_start env binding km st
      | inl _ => false
      end /\
    (forall e, Kernel.start_kernel env (Manager.kernel binding) binding (Kernel.trace st)
               = inl e -> run = (Raised e, kernel_after st
                                   [Kernel.StartKernel (Manager.kernel binding) binding])) /\
    (forall handle, run.1 = Returned handle -> existsb is_shutdown evs = false).
Proof.
  cbv zeta. rewrite spawn_kernel_run. cbv zeta. unfold runtime_error_after_start, teardown.
  cbn [Kernel.trace kernel_after Kernel.set_trace Kernel.set_clients].
  destruct (Kernel.start_kernel env _ _ _) as [e|km].
  { exists []. by repeat split; try (intros ? [= <-]). }
  destruct (Kernel.client env km _) as [e|].
  { destruct (isinstance e RuntimeError); eexists;
      (split; [cbn; rewrite <- ?app_assoc; reflexivity|]); by repeat split. }
  rewrite <- app_assoc. cbn [app].
  destruct (Kernel.start_channels env _ _) as [e|].
  { destruct (isinstance e RuntimeError); eexists;
      (split; [cbn; rewrite <- ?app_assoc; reflexivity|]); by repeat split. }
  eexists. split; [cbn; rewrite <- ?app_assoc; reflexivity|]. by repeat split.
Qed.

(** X16: when the lookup-or-spawn step of [execute_request] raises, the
    name was not cached and is not cached afterwards, the cache being as it
    was: the next request for the name asks the binding manager again.  The
    step had asked it first. *)
Theorem failed_spawn_is_not_cached (env : Kernel.Env) (name : string)
    (st st' : Kernel.State) (e : exn) :
  Kernel.ensure env name st = (Raised e, st') ->
  Kernel._kernels st !! name = None /\
  Kernel._kernels st' = Kernel._kernels st /\
  exists evs, Kernel.trace st' = Kernel.trace st ++ Kernel.BindingManagerGet name :: evs.
Proof.
  intros Hrun.
  destruct (Kernel._kernels st !! name) as [handle|] eqn:Hc.
  { by rewrite (ensure_cached env name handle st Hc) in Hrun. }
  split; [done|]. revert Hrun.
  assert (Hd : bool_decide (is_Some (Kernel._kernels st !! name)) = false).
  { apply bool_decide_eq_false_2. rewrite Hc. by intros [? ?]. }
  unfold Kernel.ensure. rewrite bind_run. cbn [get]. rewrite Hd.
  rewrite !bind_run, kernel_call_run.
  destruct (Kernel.binding_manager_get env name (Kernel.trace st)) as [e0|binding].
  { intros [= <- <-]. split; [done|]. by exists []. }
  rewrite bind_run.
  destruct (Kernel.spawn_kernel env binding _) as [[handle|e1|] s1] eqn:Hspawn.
  - cbn [modify]. rewrite bind_run. cbn [get Kernel.set_kernels Kernel._kernels].
    by rewrite lookup_insert_eq.
  - intros [= <- <-].
    pose proof (spawn_kernel_keeps_cache env binding
                  (kernel_after st [Kernel.BindingManagerGet name])) as Hk.
    destruct (emits_spawn_kernel env binding _ _ _ Hspawn) as (evs & Htr & _).
    rewrite Hspawn in Hk. cbn [snd] in Hk.
    split; [done|]. exists evs. rewrite Htr. cbn. by rewrite <- app_assoc.
  - done.
Qed.

Lemma failed_spawn_is_not_cached_witness :
  Kernel._kernels Scenario.empty_kernel !! "node1" = None /\
  Kernel._kernels
    (Kernel.ensure (Scenario.kernel_env (Some (Exn ZMQError "Address already in use")))
       "node1" Scenario.empty_kernel).2
  = Kernel._kernels Scenario.empty_kernel /\
  exists evs,
    Kernel.trace
      (Kernel.ensure (Scenario.kernel_env (Some (Exn ZMQError "Address already in use")))
         "node1" Scenario.empty_kernel).2
    = Kernel.trace Scenario.empty_kernel ++ Kernel.BindingManagerGet "node1" :: evs.
Proof.
  apply (failed_spawn_is_not_cached
           (Scenario.kernel_env (Some (Exn ZMQError "Address already in use")))
           "node1" Scenario.empty_kernel _ (Exn ZMQError "Address already in use")).
  by vm_compute.
Defined.

(** X17: once a delegated request has completed, a silent request returns
    without the status of the reply being read; for a request that is not
    silent, a reply whose status cannot be read (no dict, or a dict without
    [status]) makes [execute_request] raise that error, after the handlers
    have been unpiped.  Either way the engine stays cached. *)
Theorem reply_status_is_read_unless_silent (env : Kernel.Env)
    (sched : Kernel.Schedule) (parent : Kernel.Request) (name : string)
    (st st1 : Kernel.State) (silent stop_on_error : pyval) (proxy : nat) :
  Kernel.binding_name parent = Some name -> name <> "" ->
  Kernel.route env sched parent name st
    = (Returned (silent, stop_on_error, proxy), st1) ->
  (truthy silent = true ->
   Kernel.execute_request env sched parent st = (Returned tt, st1)) /\
  (truthy silent = false ->
   forall e, getitem (observed st1 proxy) "status" = inl e ->
   Kernel.execute_request env sched parent st = (Raised e, st1)) /\
  is_Some (Kernel._kernels st1 !! name).
Proof.
  intros Hname Hne Hroute.
  rewrite (execute_request_tagged env sched parent name st Hname Hne), Hroute.
  unfold Kernel.abort_policy. split; [by intros ->|]. split.
  - intros -> e He. cbn [negb]. rewrite bind_run. cbn [get].
    fold (observed st1 proxy). by rewrite bind_run, He.
  - destruct (route_returned env sched parent name _ _ _ Hroute)
      as (silent' & km & kc & s1 & s2 & Hsilent & Hensure & _ & _ & _).
    destruct (route_after_ensure env sched parent name (km, kc) silent' _ _ _ _
                Hsilent Hensure Hroute) as [-> _].
    destruct (Kernel._kernels st !! name) as [handle|] eqn:Hc.
    + rewrite (ensure_cached env name handle st Hc) in Hensure.
      injection Hensure as _ <-. by rewrite Hc.
    + destruct (ensure_spawned env name _ _ _ Hc Hensure) as (b & km' & _ & _ & -> & _).
      by rewrite lookup_insert_eq.
Qed.

Lemma reply_status_is_read_unless_silent_witness :
  (truthy (PyBool false) = true ->
   Kernel.execute_request (Scenario.kernel_env None)
     (Scenario.completing (PyDict [("execution_count", PyInt 1)]))
     (Scenario.request_node1 [("silent", PyBool false)]) Scenario.empty_kernel
   = (Returned tt,
      (Kernel.route (Scenario.kernel_env None)
         (Scenario.completing (PyDict [("execution_count", PyInt 1)]))
         (Scenario.request_node1 [("silent", PyBool false)]) "node1"
         Scenario.empty_kernel).2)) /\
  (truthy (PyBool false) = false ->
   forall e,
     getitem
       (observed
          (Kernel.route (Scenario.kernel_env None)
             (Scenario.completing (PyDict [("execution_count", PyInt 1)]))
             (Scenario.request_node1 [("silent", PyBool false)]) "node1"
             Scenario.empty_kernel).2 0) "status" = inl e ->
     Kernel.execute_request (Scenario.kernel_env None)
       (Scenario.completing (PyDict [("execution_count", PyInt 1)]))
       (Scenario.request_node1 [("silent", PyBool false)]) Scenario.empty_kernel
     = (Raised e,
        (Kernel.route (Scenario.kernel_env None)
           (Scenario.completing (PyDict [("execution_count", PyInt 1)]))
           (Scenario.request_node1 [("silent", PyBool false)]) "node1"
           Scenario.empty_kernel).2)) /\
  is_Some
    (Kernel._kernels
       (Kernel.route (Scenario.kernel_env None)
          (Scenario.completing (PyDict [("execution_count", PyInt 1)]))
          (Scenario.request_node1 [("silent", PyBool false)]) "node1"
          Scenario.empty_kernel).2 !! "node1").
Proof.
  apply (reply_status_is_read_unless_silent (Scenario.kernel_env None)
           (Scenario.completing (PyDict [("execution_count", PyInt 1)]))
           (Scenario.request_node1 [("silent", PyBool false)]) "node1"
           Scenario.empty_kernel _ (PyBool false) (PyBool true) 0).
  - reflexivity.
  - discriminate.
  - by vm_compute.
Defined.

(** ** The multi kernel manager *)

(** X18: a manager prepared by [HydraMultiKernelManager.pre_start_kernel]
    was given a binding, and when its own [pre_start_kernel] returns it has
    run [hydra spawn] with the kernel id assigned by the multi kernel
    manager and its kernel name, both quoted; it still carries that id,
    the binding and its tunnel setting. *)
Theorem prepared_manager_spawns_under_its_id (env : Manager.Env)
    (km km' : Manager.HydraKernelManager) (kernel_id : string)
    (binding : option Manager.Binding) (tr : list Manager.Event) (st' : Manager.State) :
  Manager.multi_pre_start_kernel km kernel_id binding = inr km' ->
  Manager.pre_start_kernel env {| Manager.self := km'; Manager.trace := tr |}
    = (Returned tt, st') ->
  exists b,
    binding = Some b /\
    In (Manager.Exec ("hydra spawn " +:+ Manager.quote kernel_id +:+ " "
                      +:+ Manager.quote (Manager.kernel_name km)))
       (Manager.trace st') /\
    Manager.id (Manager.self st') = kernel_id /\
    Manager._binding (Manager.self st') = Some b /\
    Manager.tunnel (Manager.self st') = Manager.tunnel km.
Proof.
  intros Hmulti Hrun. destruct binding as [b|]; [|done].
  injection Hmulti as <-. exists b. split; [done|].
  destruct (pre_start_kernel_returned env _ _ Hrun)
    as (b' & info & spec & code & stdout & stderr & res & tun & [= <-] & _ & _ & _ & _
        & _ & Htr & Hself).
  cbv zeta in Htr. cbn [Manager.self Manager.trace] in Htr, Hself.
  split.
  - rewrite Htr, !in_app_iff. left. right. right. by left.
  - rewrite Hself. by destruct (_ || _).
Qed.

Lemma prepared_manager_spawns_under_its_id_witness :
  exists b,
    Some remote_binding = Some b /\
    In (Manager.Exec ("hydra spawn " +:+ Manager.quote "9f2c" +:+ " "
                      +:+ Manager.quote (Manager.kernel_name Scenario.manager_k1)))
       (Manager.trace (Manager.pre_start_kernel (tunnel_env true) prepared_state).2) /\
    Manager.id
      (Manager.self (Manager.pre_start_kernel (tunnel_env true) prepared_state).2)
    = "9f2c" /\
    Manager._binding
      (Manager.self (Manager.pre_start_kernel (tunnel_env true) prepared_state).2)
    = Some b /\
    Manager.tunnel
      (Manager.self (Manager.pre_start_kernel (tunnel_env true) prepared_state).2)
    = Manager.tunnel Scenario.manager_k1.
Proof.
  apply (prepared_manager_spawns_under_its_id (tunnel_env true) Scenario.manager_k1
           (Manager.self prepared_state) "9f2c" (Some remote_binding) []
           (Manager.pre_start_kernel (tunnel_env true) prepared_state).2).
  - reflexivity.
  - by vm_compute.
Defined.

(** ** Between two requests *)

Section QuiescentFacts.

Import Kernel.

Variable env : Kernel.Env.

Lemma subscribed_clients (sched : Schedule) (parent : Request) (kc : nat) (st : State) :
  _kernels (subscribed sched parent kc st) = _kernels st /\
  exists f,
    clients (subscribed sched parent kc st) =
    match clients st !! kc with
    | Some client => <[kc := f client]> (clients st)
    | None => clients st
    end.
Proof.
  unfold subscribed. cbv zeta.
  set (proxy := fresh_place (proxies st)).
  set (st3 := deliver_all kc _ _).
  assert (He : engines st3 = engines st) by (unfold st3; by rewrite engines_deliver_all).
  apply engines_eq in He as [Hk Hc].
  destruct (update_channel_clients kc Iopub
              (fun ch => pipe ch (OnIopubMessage proxy)) st3) as [Hk4 Hc4].
  destruct (update_channel_clients kc Shell
              (fun ch => pipe ch (OnShellMessage proxy))
              (update_channel kc Iopub
                 (fun ch => pipe ch (OnIopubMessage proxy)) st3).2) as [Hk5 Hc5].
  split; [by rewrite Hk5, Hk4, Hk|].
  exists (fun client =>
            set_channel Shell
              (pipe (channel Shell (set_channel Iopub
                                      (pipe (channel Iopub client) (OnIopubMessage proxy))
                                      client))
                    (OnShellMessage proxy))
              (set_channel Iopub (pipe (channel Iopub client) (OnIopubMessage proxy))
                 client)).
  rewrite Hc5, Hc4, Hc. destruct (clients st !! kc) as [client|] eqn:Hclient.
  - by rewrite lookup_insert_eq, insert_insert_eq.
  - by rewrite Hclient.
Qed.

Lemma unsubscribed_clients (sched : Schedule) (kc : nat) (st : State) :
  _kernels (unsubscribed sched kc st) = _kernels st /\
  exists client',
    unpiped client' /\
    clients (unsubscribed sched kc st) =
    match clients st !! kc with
    | Some _ => <[kc := client']> (clients st)
    | None => clients st
    end.
Proof.
  unfold unsubscribed. cbv zeta.
  set (st1 := deliver_all kc _ _).
  assert (He : engines st1 = engines st) by (unfold st1; by rewrite engines_deliver_all).
  apply engines_eq in He as [Hk Hc].
  destruct (update_channel_clients kc Iopub unpipe st1) as [Hk2 Hc2].
  destruct (update_channel_clients kc Shell unpipe
              (update_channel kc Iopub unpipe st1).2) as [Hk3 Hc3].
  split; [by rewrite Hk3, Hk2, Hk|].
  exists {| shell_channel := {| _pipes := [] |}; iopub_channel := {| _pipes := [] |} |}.
  split; [done|].
  rewrite Hc3, Hc2, Hc. destruct (clients st !! kc) as [client|] eqn:Hclient.
  - by rewrite lookup_insert_eq, insert_insert_eq.
  - by rewrite Hclient.
Qed.

(** The wait loop raises nothing. *)
Lemma wait_never_raises (proxy kc : nat) (batches : list (list Arrival)) (st : State) :
  forall e st', wait proxy kc batches st <> (Raised e, st').
Proof.
  revert st. induction batches as [|batch batches IH]; intros st e st'; cbn [wait].
  - by destruct (truthy _).
  - destruct (truthy _); [done|]. apply IH.
Qed.

(** The lookup-or-spawn step keeps the dispatcher quiescent however it
    ends, and what it returns is a cached handle whose client has nothing
    piped. *)
Lemma ensure_quiescent (name : string) (st st' : State) (o : outcome (string * nat)) :
  quiescent st ->
  ensure env name st = (o, st') ->
  quiescent st' /\ proxies st' = proxies st /\ shell_streams st' = shell_streams st /\
  forall km kc, o = Returned (km, kc) ->
    exists client, clients st' !! kc = Some client /\ unpiped client.
Proof.
  intros [Hknown Hun].
  destruct (_kernels st !! name) as [handle|] eqn:Hc.
  { rewrite (ensure_cached env name handle st Hc). intros [= <- <-].
    split; [done|]. split; [done|]. split; [done|].
    intros km kc [= ->]. destruct (Hknown name km kc Hc) as [client Hclient].
    exists client. split; [done|]. by apply (Hun kc). }
  assert (Hd : bool_decide (is_Some (_kernels st !! name)) = false).
  { apply bool_decide_eq_false_2. rewrite Hc. by intros [? ?]. }
  assert (Hnew : forall tr,
            unpiped {| shell_channel := new_HydraChannel;
                       iopub_channel := new_HydraChannel |} ->
            quiescent
              {| trace := tr; _kernels := _kernels st;
                 clients := <[fresh_place (clients st) :=
                                {| shell_channel := new_HydraChannel;
                                   iopub_channel := new_HydraChannel |}]> (clients st);
                 proxies := proxies st; shell_streams := shell_streams st |}).
  { intros tr Hu. split.
    - intros n km kc Hn. cbn in *.
      destruct (decide (kc = fresh_place (clients st))) as [->|Hne].
      + rewrite lookup_insert_eq. eauto.
      + rewrite lookup_insert_ne by done. by apply (Hknown n km kc).
    - intros kc client. cbn.
      destruct (decide (kc = fresh_place (clients st))) as [->|Hne].
      + rewrite lookup_insert_eq. by intros [= <-].
      + rewrite lookup_insert_ne by done. apply Hun. }
  assert (Hsame : forall tr,
            quiescent {| trace := tr; _kernels := _kernels st; clients := clients st;
                         proxies := proxies st; shell_streams := shell_streams st |}).
  { intros tr. by split. }
  unfold ensure. rewrite bind_run. cbn [get]. rewrite Hd.
  rewrite !bind_run, kernel_call_run.
  destruct (binding_manager_get env name (trace st)) as [e0|binding].
  { intros [= <- <-]. split; [apply Hsame|]. by repeat split. }
  rewrite bind_run, spawn_kernel_run. cbv zeta. unfold teardown, kernel_after.
  cbn [trace set_trace set_clients clients _kernels proxies shell_streams].
  destruct (start_kernel env _ _ _) as [e|km].
  { intros [= <- <-]. split; [apply Hsame|]. by repeat split. }
  destruct (client env km _) as [e|].
  { destruct (isinstance e RuntimeError); intros [= <- <-];
      (split; [apply Hsame|]); by repeat split. }
  destruct (start_channels env _ _) as [e|].
  { destruct (isinstance e RuntimeError); intros [= <- <-];
      (split; [by apply Hnew|]); by repeat split. }
  cbn [modify]. rewrite bind_run.
  cbn [get set_kernels _kernels trace clients proxies shell_streams].
  rewrite lookup_insert_eq. intros [= <- <-].
  split; [|split; [done|split; [done|]]].
  - split.
    + intros n km' kc' Hn. cbn in *.
      destruct (decide (n = name)) as [->|Hne].
      * rewrite lookup_insert_eq in Hn. injection Hn as <- <-.
        rewrite lookup_insert_eq. eauto.
      * rewrite lookup_insert_ne in Hn by done.
        destruct (decide (kc' = fresh_place (clients st))) as [->|Hne'].
        -- rewrite lookup_insert_eq. eauto.
        -- rewrite lookup_insert_ne by done. by apply (Hknown n km' kc').
    + intros kc client. cbn.
      destruct (decide (kc = fresh_place (clients st))) as [->|Hne].
      * rewrite lookup_insert_eq. by intros [= <-].
      * rewrite lookup_insert_ne by done. apply Hun.
  - intros km' kc' [= <- <-]. cbn. rewrite lookup_insert_eq.
    eexists. split; [reflexivity|]. by split.
Qed.

End QuiescentFacts.

Section InvariantFacts.

Import Kernel.

Variable env : Kernel.Env.

Lemma quiescent_engines (st st' : State) :
  engines st' = engines st -> quiescent st -> quiescent st'.
Proof.
  intros [Hk Hc]%engines_eq [Hknown Hun]. split.
  - intros n km kc. rewrite Hk, Hc. apply Hknown.
  - intros kc client. rewrite Hc. apply Hun.
Qed.

Lemma quiescent_insert (st st' : State) (kc : nat) (client' : HydraKernelClient) :
  quiescent st -> unpiped client' ->
  _kernels st' = _kernels st ->
  clients st' = <[kc := client']> (clients st) ->
  quiescent st'.
Proof.
  intros [Hknown Hun] Hu Hk Hc. split.
  - intros n km kc'. rewrite Hk, Hc. intros Hn.
    apply lookup_insert_is_Some'. right. by apply (Hknown n km kc').
  - intros kc' client. rewrite Hc.
    destruct (decide (kc' = kc)) as [->|Hne].
    + rewrite lookup_insert_eq. by intros [= <-].
    + rewrite lookup_insert_ne by done. apply Hun.
Qed.

(** A route that has returned leaves the dispatcher quiescent. *)
Lemma route_quiescent (sched : Schedule) (parent : Request) (name : string)
    (st st' : State) (r : pyval * pyval * nat) :
  quiescent st ->
  route env sched parent name st = (Returned r, st') ->
  quiescent st'.
Proof.
  intros Hq Hroute.
  destruct (route_returned env sched parent name _ _ _ Hroute)
    as (silent & km & kc & s1 & s2 & _ & Hensure & _ & Hwait & ->).
  destruct (ensure_quiescent env name st s1 _ Hq Hensure) as (Hq1 & _ & _ & Hclient).
  destruct (Hclient km kc eq_refl) as (client & Hlookup & _).
  destruct (subscribed_clients sched parent kc s1) as (Hk1 & f & Hc1).
  rewrite Hlookup in Hc1.
  destruct (engines_eq _ _ (preserves_wait _ _ _ _ _ _ Hwait)) as [Hk2 Hc2].
  destruct (unsubscribed_clients sched kc s2) as (Hk3 & client' & Hu & Hc3).
  rewrite Hc2, Hc1, lookup_insert_eq, insert_insert_eq in Hc3.
  apply (quiescent_insert s1 _ kc client' Hq1 Hu); [|done].
  by rewrite Hk3, Hk2, Hk1.
Qed.

End InvariantFacts.

(** X19: between two requests no handler is piped.  If every cached
    handle has its client and no client has a handler piped when
    [execute_request] is called, the same holds when the call comes back,
    whether it returns or raises, and whatever the request was: tagged or
    not, served by a cached engine or by one it started, or one whose
    engine failed to start. *)
Theorem requests_leave_no_handler (env : Kernel.Env) (sched : Kernel.Schedule)
    (parent : Kernel.Request) (st st' : Kernel.State) (o : outcome unit) :
  quiescent st ->
  Kernel.execute_request env sched parent st = (o, st') ->
  o <> Blocked ->
  quiescent st'.
Proof.
  intros Hq Hrun Ho.
  assert (Hafter : forall s evs, quiescent s -> quiescent (kernel_after s evs)).
  { intros s evs. by apply quiescent_engines. }
  destruct (Kernel.binding_name parent) as [name|] eqn:Hname.
  2:{ rewrite execute_request_untagged in Hrun by (by left).
      injection Hrun as _ <-. by apply Hafter. }
  destruct (decide (name = "")) as [->|Hne].
  { rewrite execute_request_untagged in Hrun by (by right).
    injection Hrun as _ <-. by apply Hafter. }
  rewrite (execute_request_tagged env sched parent name st Hname Hne) in Hrun.
  destruct (Kernel.route env sched parent name st) as [[[[silent stop] proxy]|e|] st1]
    eqn:Hroute.
  - destruct (abort_policy_run silent stop proxy st1) as (o' & Hpol & _).
    rewrite Hpol in Hrun. injection Hrun as _ <-.
    apply Hafter. by apply (route_quiescent env sched parent name st st1 _ Hq Hroute).
  - injection Hrun as _ <-. revert Hroute. unfold Kernel.route, dict_getitem.
    rewrite bind_run.
    destruct (dict_lookup (Kernel.request_content parent) "silent") as [silent|];
      [|by intros [= _ <-]].
    cbn [lift ret]. rewrite bind_run.
    destruct (Kernel.ensure env name st) as [[[km kc]|e1|] s1] eqn:Hensure.
    + fold (dict_getitem (Kernel.request_content parent) "silent").
      intros Hrest. exfalso. revert Hrest.
      rewrite bind_run. cbn [get].
      do 5 (rewrite bind_run; cbn [modify Kernel.emit Kernel.update_channel]).
      rewrite bind_run.
      destruct (Kernel.wait _ _ _ _) as [[[]|e2|] s2] eqn:Hwait; [|
        by destruct (wait_never_raises _ _ _ _ _ _ Hwait) | done].
      do 4 (rewrite bind_run; cbn [modify Kernel.emit Kernel.update_channel]).
      done.
    + intros [= _ <-].
      by destruct (ensure_quiescent env name st s1 _ Hq Hensure) as [? _].
    + done.
  - by injection Hrun as <- _.
Qed.

Lemma requests_leave_no_handler_witness :
  quiescent
    (Kernel.execute_request (Scenario.kernel_env None)
       (Scenario.completing Scenario.ok_reply)
       (Scenario.request_node1 [("silent", PyBool false)]) Scenario.empty_kernel).2.
Proof.
  apply (requests_leave_no_handler (Scenario.kernel_env None)
           (Scenario.completing Scenario.ok_reply)
           (Scenario.request_node1 [("silent", PyBool false)]) Scenario.empty_kernel
           _ (Returned tt)).
  - split; [by intros n km kc | by intros kc client].
  - by vm_compute.
  - discriminate.
Defined.

(** X14: a delegated request whose engine is there, cached or just
    started, never returns if and only if the proxy shows no reply at any
    test of the wait loop, counting the messages that arrive once the two
    handlers are piped.  What arrives between the sending of the request
    and the piping is handed to no handler and is lost: it does not count,
    and neither does what arrives during the flush. *)
Theorem delegated_request_returns_iff_completed (env : Kernel.Env)
    (sched : Kernel.Schedule) (parent : Kernel.Request) (name : string)
    (silent : pyval) (handle : string * nat) (st s1 : Kernel.State) :
  Kernel.binding_name parent = Some name -> name <> "" ->
  dict_lookup (Kernel.request_content parent) "silent" = Some silent ->
  quiescent st ->
  Kernel.ensure env name st = (Returned handle, s1) ->
  (Kernel.execute_request env sched parent st).1 = Blocked <->
  completes (Kernel.new_ProxyComms parent Kernel.IopubSocket (Kernel.shell_streams st))
            (Kernel.while_waiting sched) = false.
Proof.
  intros Hname Hne Hsilent Hq Hensure. destruct handle as [km kc].
  destruct (ensure_quiescent env name st s1 _ Hq Hensure) as (_ & Hp & Hsh & Hclient).
  destruct (Hclient km kc eq_refl) as (client & Hlookup & Hs & Hi).
  rewrite (execute_request_tagged env sched parent name st Hname Hne).
  rewrite (route_run env sched parent name silent km kc st s1 Hsilent Hensure).
  destruct (subscribed_unpiped sched parent kc client s1 Hlookup Hs Hi)
    as [Hclient' Hproxy].
  destruct (wait_completes (Kernel.fresh_place (Kernel.proxies s1)) kc _
              (Kernel.while_waiting sched) _ _ Hclient' eq_refl eq_refl Hproxy)
    as (s2 & ->).
  rewrite Hsh.
  destruct (completes _ _).
  - destruct (abort_policy_run silent
                (dict_get (Kernel.request_content parent) "stop_on_error" (PyBool true))
                (Kernel.fresh_place (Kernel.proxies s1))
                (unsubscribed sched kc s2)) as (o & -> & Ho).
    cbn [fst]. split; [done|discriminate].
  - done.
Qed.

Lemma delegated_request_returns_iff_completed_witness :
  (Kernel.execute_request (Scenario.kernel_env None) early_reply
     (Scenario.request_node1 [("silent", PyBool false)]) Scenario.empty_kernel).1
  = Blocked <->
  completes (Kernel.new_ProxyComms (Scenario.request_node1 [("silent", PyBool false)])
               Kernel.IopubSocket (Kernel.shell_streams Scenario.empty_kernel))
            (Kernel.while_waiting early_reply) = false.
Proof.
  apply (delegated_request_returns_iff_completed (Scenario.kernel_env None) early_reply
           (Scenario.request_node1 [("silent", PyBool false)]) "node1"
           (PyBool false) ("kernel-1", 0%nat) Scenario.empty_kernel
           (Kernel.ensure (Scenario.kernel_env None) "node1" Scenario.empty_kernel).2).
  - reflexivity.
  - discriminate.
  - reflexivity.
  - split; [by intros n km kc | by intros kc client].
  - by vm_compute.
Defined.

(** ** Handlers behind a channel, continued *)

Section ChannelFacts.

Import Kernel.

Lemma for_each_app {S A} (l1 l2 : list A) (body : A -> M S unit) (st : S) :
  for_each (l1 ++ l2) body st =
  match for_each l1 body st with
  | (Returned _, st1) => for_each l2 body st1
  | (Raised e, st1) => (Raised e, st1)
  | (Blocked, st1) => (Blocked, st1)
  end.
Proof.
  revert st. induction l1 as [|x l1 IH]; intros st; [done|].
  cbn [app for_each]. change (bind ?c ?k) with (c ≫= k). rewrite !bind_run.
  destruct (body x st) as [[[]|e|] st1]; [apply IH|done|done].
Qed.

(** A handler neither reads nor writes the clients. *)
Lemma invoke_set_clients (g : gmap nat HydraKernelClient -> gmap nat HydraKernelClient)
    (h : Handler) (m : Msg) (st : State) :
  invoke h m (set_clients g st)
  = ((invoke h m st).1, set_clients g (invoke h m st).2).
Proof.
  unfold invoke. destruct h as [ref|ref]; rewrite !bind_run; cbn [get proxies set_clients].
  all: destruct (proxies st !! ref) as [self|]; [|done].
  - destruct (on_iopub_message self m) as [sent [e|self']]; rewrite !bind_run; done.
  - destruct (on_shell_message self m) as [sent [e|self']]; rewrite !bind_run; done.
Qed.

Lemma for_each_invoke_set_clients
    (g : gmap nat HydraKernelClient -> gmap nat HydraKernelClient)
    (hs : list Handler) (m : Msg) (st : State) :
  for_each hs (fun h => invoke h m) (set_clients g st)
  = ((for_each hs (fun h => invoke h m) st).1,
     set_clients g (for_each hs (fun h => invoke h m) st).2).
Proof.
  revert st. induction hs as [|h hs IH]; intros st; [done|].
  cbn [for_each]. change (bind ?c ?k) with (c ≫= k).
  rewrite !bind_run, invoke_set_clients.
  destruct (invoke h m st) as [[[]|e|] st1]; cbn [fst snd]; [apply IH|done|done].
Qed.

End ChannelFacts.

(** X20: [pipe] puts a handler behind those already piped.  A message on
    a channel on which the handler [h] was piped last is handled by the
    earlier handlers as it was before, in their order, and then by [h];
    when one of the earlier handlers raises, [call_handlers] ends there and
    [h] is not called. *)
Theorem piped_handler_runs_last (kc : nat) (which : Kernel.ChannelName)
    (h : Kernel.Handler) (m : Kernel.Msg) (client : Kernel.HydraKernelClient)
    (st : Kernel.State) :
  Kernel.clients st !! kc = Some client ->
  Kernel.call_handlers kc which m (piped kc which h st) =
  match Kernel.call_handlers kc which m st with
  | (Returned _, st1) =>
      ((Kernel.invoke h m st1).1, piped kc which h (Kernel.invoke h m st1).2)
  | (Raised e, st1) => (Raised e, piped kc which h st1)
  | (Blocked, st1) => (Blocked, piped kc which h st1)
  end.
Proof.
  intros Hclient.
  assert (Hpiped : forall s, piped kc which h s = Kernel.set_clients (fun cs =>
            match cs !! kc with
            | Some client =>
                <[kc := Kernel.set_channel which
                          (Kernel.pipe (Kernel.channel which client) h) client]> cs
            | None => cs
            end) s) by done.
  unfold Kernel.call_handlers. rewrite !bind_run. cbn [get].
  rewrite Hclient.
  assert (Hlook : Kernel.clients (piped kc which h st) !! kc
                  = Some (Kernel.set_channel which
                            (Kernel.pipe (Kernel.channel which client) h) client)).
  { rewrite Hpiped. cbn. by rewrite Hclient, lookup_insert_eq. }
  rewrite Hlook.
  assert (Hpipes : Kernel._pipes (Kernel.channel which
                      (Kernel.set_channel which
                         (Kernel.pipe (Kernel.channel which client) h) client))
                   = Kernel._pipes (Kernel.channel which client) ++ [h]).
  { by destruct which. }
  rewrite Hpipes, for_each_app, (Hpiped st), for_each_invoke_set_clients.
  destruct (for_each _ _ st) as [[[]|e|] st1]; cbn [fst snd]; rewrite <- ?Hpiped;
    [|done|done].
  cbn [for_each]. change (bind ?c ?k) with (c ≫= k).
  rewrite bind_run, (Hpiped st1), invoke_set_clients, <- Hpiped.
  by destruct (Kernel.invoke h m st1) as [[[]|e|] st2].
Qed.

Lemma piped_handler_runs_last_witness :
  Kernel.call_handlers 0 Kernel.Iopub idle_status
    (piped 0 Kernel.Iopub (Kernel.OnIopubMessage 7) Scenario.stale_kernel) =
  match Kernel.call_handlers 0 Kernel.Iopub idle_status Scenario.stale_kernel with
  | (Returned _, st1) =>
      ((Kernel.invoke (Kernel.OnIopubMessage 7) idle_status st1).1,
       piped 0 Kernel.Iopub (Kernel.OnIopubMessage 7)
         (Kernel.invoke (Kernel.OnIopubMessage 7) idle_status st1).2)
  | (Raised e, st1) => (Raised e, piped 0 Kernel.Iopub (Kernel.OnIopubMessage 7) st1)
  | (Blocked, st1) => (Blocked, piped 0 Kernel.Iopub (Kernel.OnIopubMessage 7) st1)
  end.
Proof.
  eapply (piped_handler_runs_last 0 Kernel.Iopub (Kernel.OnIopubMessage 7) idle_status
            _ Scenario.stale_kernel).
  reflexivity.
Defined.
